(** * The exchange simulator of [simulator/simulator.py]

    A shallow embedding of the class [Sim] (the tick loop, the application
    of market data and actions, aggressive and passive matching) and of the
    analytics function [md_to_dataframe] of [simulator/get_info.py],
    followed by the properties of the engine.

    Conventions of the embedding.
    - Python floats that carry [np.inf] or [-np.inf] (best bid and ask,
      last trade prices, limit prices, the event time of a queue) are
      values of [ext]: an integer or one of the two infinities.
    - Timestamps and latencies are nanosecond counts, values of [Z].
    - A Python exception is a value [Raise e] of the type [result].
    - The progress bar is display only and is left out. *)

From Stdlib Require Import ZArith List Bool Lia Permutation Sorted.
Import ListNotations.
Open Scope Z_scope.

Set Implicit Arguments.

(** ** Extended numbers *)

Inductive ext : Type :=
| NegInf
| Fin (z : Z)
| PosInf.

Module Ext.

Definition eqb (a b : ext) : bool :=
  match a, b with
  | NegInf, NegInf => true
  | Fin x, Fin y => x =? y
  | PosInf, PosInf => true
  | _, _ => false
  end.

(** [a < b] on floats without NaN. *)
Definition ltb (a b : ext) : bool :=
  match a, b with
  | NegInf, NegInf => false
  | NegInf, _ => true
  | Fin _, NegInf => false
  | Fin x, Fin y => x <? y
  | Fin _, PosInf => true
  | PosInf, _ => false
  end.

(** [a <= b]. *)
Definition leb (a b : ext) : bool := negb (ltb b a).

(** Python's [min(a, b)]: the first argument unless the second is
    strictly smaller. *)
Definition min (a b : ext) : ext := if ltb b a then b else a.

Definition max (a b : ext) : ext := if ltb a b then b else a.

End Ext.

(** ** Exceptions *)

Inductive error : Type :=
| AttributeError   (* an attribute of [None] is read *)
| AssertionError   (* an [assert] fails *)
| IndexError       (* [popleft] on an empty deque, [pop] on an empty queue *)
| KeyError         (* [dict.pop] of a missing key *)
| OutOfFuel.       (* the bound of the modelled loop; never reached, see
                      [tick_loop_fuel] *)

Inductive result (A : Type) : Type :=
| Ok (a : A)
| Raise (e : error).

Arguments Ok {A} a.
Arguments Raise {A} e.

Definition bind {A B : Type} (r : result A) (k : A -> result B) : result B :=
  match r with
  | Ok a => k a
  | Raise e => Raise e
  end.

Notation "x <- r ;; k" := (bind r (fun x => k))
  (at level 61, r at next level, right associativity).
Notation "' p <- r ;; k" := (bind r (fun x => let 'p := x in k))
  (at level 61, p pattern, r at next level, right associativity).

(** ** Event types

    The classes of [simulator/utils.py]; their fields are read off the
    constructor calls and attribute accesses of the three source files. *)

Inductive Side : Type := BID | ASK.

Definition Side_eqb (a b : Side) : bool :=
  match a, b with
  | BID, BID | ASK, ASK => true
  | _, _ => false
  end.

(** Order kind, the field [type] of an order. *)
Inductive OrderType : Type := LIMIT | POST_ONLY.

(** The field [trade_type] of an own trade. *)
Inductive TradeType : Type := TAKER | MAKER.

(** The field [execute] of an own trade. *)
Inductive Venue : Type := BOOK | TRADE.

Module OrderbookSnapshotUpdate.
(** Modelled from the spec: the class [OrderbookSnapshotUpdate] of
    [simulator/utils.py]; built in [load_books] from the exchange and
    receive timestamps and the lists of (price, size) pairs of the ask and
    the bid side. *)
Record t : Type := mk {
  exchange_ts : Z;
  receive_ts : Z;
  asks : list (ext * Z);
  bids : list (ext * Z)
}.
End OrderbookSnapshotUpdate.

Module AnonTrade.
(** Modelled from the spec: the class [AnonTrade] of [simulator/utils.py];
    built in [load_trades] from the columns exchange_ts, receive_ts,
    aggro_side, size, price. *)
Record t : Type := mk {
  exchange_ts : Z;
  receive_ts : Z;
  side : Side;
  size : Z;
  price : ext
}.
End AnonTrade.

Module MdUpdate.
(** Modelled from the spec: the class [MdUpdate] of [simulator/utils.py];
    built in [merge_books_and_trades] from the two timestamps, an optional
    snapshot and an optional trade. *)
Record t : Type := mk {
  exchange_ts : Z;
  receive_ts : Z;
  orderbook : option OrderbookSnapshotUpdate.t;
  trade : option AnonTrade.t
}.
End MdUpdate.

Module Order.
(** Modelled from the spec: the class [Order] of [simulator/utils.py];
    built in [Sim.place_order]. *)
Record t : Type := mk {
  place_ts : Z;
  exchange_ts : Z;
  order_id : Z;
  side : Side;
  size : Z;
  price : ext;
  type : OrderType
}.
End Order.

Module CancelOrder.
(** Modelled from the spec: the class [CancelOrder] of
    [simulator/utils.py]; built in [Sim.cancel_order]. *)
Record t : Type := mk {
  exchange_ts : Z;
  id_to_delete : Z
}.
End CancelOrder.

Module OwnTrade.
(** Modelled from the spec: the class [OwnTrade] of [simulator/utils.py];
    built in [Sim.execute_last_order] and [Sim.execute_orders]. *)
Record t : Type := mk {
  place_ts : Z;
  exchange_ts : Z;
  receive_ts : Z;
  trade_id : Z;
  order_id : Z;
  side : Side;
  size : Z;
  price : ext;
  trade_type : TradeType;
  execute : Venue
}.
End OwnTrade.

(** [Union[Order, CancelOrder]], the elements of the action queue. *)
Inductive Action : Type :=
| APlace (o : Order.t)
| ACancel (c : CancelOrder.t).

Definition Action_exchange_ts (a : Action) : Z :=
  match a with
  | APlace o => Order.exchange_ts o
  | ACancel c => CancelOrder.exchange_ts c
  end.

(** [Union[OwnTrade, MdUpdate]], the elements of the notification queue. *)
Inductive Update : Type :=
| UMd (m : MdUpdate.t)
| UTrade (t : OwnTrade.t).

Definition Update_receive_ts (u : Update) : Z :=
  match u with
  | UMd m => MdUpdate.receive_ts m
  | UTrade t => OwnTrade.receive_ts t
  end.

(** ** Best-price tracker *)

(** Modelled from the spec: the function [update_best_positions] of
    [simulator/utils.py], which is not among the sources.  With a snapshot
    the new best bid is the highest bid price present (minus infinity for an
    empty side) and the new best ask the lowest ask price present (plus
    infinity for an empty side); without a snapshot both are unchanged. *)
Definition update_best_positions (best_bid best_ask : ext) (md : MdUpdate.t)
  : ext * ext :=
  match MdUpdate.orderbook md with
  | Some book =>
      (fold_right Ext.max NegInf (map fst (OrderbookSnapshotUpdate.bids book)),
       fold_right Ext.min PosInf (map fst (OrderbookSnapshotUpdate.asks book)))
  | None => (best_bid, best_ask)
  end.

(** ** Keyed priority queue *)

Module PriorQueue.
Section WithValue.
Variable V : Type.

(** Modelled from the spec: the class [PriorQueue] of
    [simulator/utils.py], which is not among the sources: a map from a
    key to the list of the values pushed under it, kept in ascending
    order of the keys. *)
Definition t : Type := list (Z * list V).

Definition empty : t := [].

(** Modelled from the spec: [push(key, value)] inserts the value under
    the key, after the values already there. *)
Fixpoint push (key : Z) (value : V) (q : t) : t :=
  match q with
  | [] => [(key, [value])]
  | (k, vs) :: q' =>
      if key <? k then (key, [value]) :: q
      else if key =? k then (k, vs ++ [value]) :: q'
      else (k, vs) :: push key value q'
  end.

(** Modelled from the spec: [pop()] removes the lowest key and returns
    it with all its values in the order of their insertion; it fails on
    an empty queue. *)
Definition pop (q : t) : result (Z * list V * t) :=
  match q with
  | [] => Raise IndexError
  | (k, vs) :: q' => Ok (k, vs, q')
  end.

(** Modelled from the spec: [min_key()] is the lowest key, plus infinity
    for an empty queue. *)
Definition min_key (q : t) : ext :=
  match q with
  | [] => PosInf
  | (k, _) :: _ => Fin k
  end.

(** All the values held, by ascending key. *)
Definition contents (q : t) : list V := concat (map snd q).

Definition keys (q : t) : list Z := map fst q.
End WithValue.

Arguments empty {V}.
End PriorQueue.

(** ** The resting map: a Python dict, which iterates in insertion order *)

Module Dict.
Section WithValue.
Variable V : Type.

Definition t : Type := list (Z * V).

(** [k in d] *)
Definition mem (k : Z) (d : t) : bool :=
  existsb (fun kv => fst kv =? k) d.

(** [d[k] = v]: an existing key keeps its place, a new one goes last. *)
Fixpoint set (k : Z) (v : V) (d : t) : t :=
  match d with
  | [] => [(k, v)]
  | (k', v') :: d' =>
      if k' =? k then (k', v) :: d' else (k', v') :: set k v d'
  end.

(** [d.pop(k)]: KeyError when the key is missing. *)
Fixpoint pop (k : Z) (d : t) : result t :=
  match d with
  | [] => Raise KeyError
  | (k', v') :: d' =>
      if k' =? k then Ok d'
      else d'' <- pop k d' ;; Ok ((k', v') :: d'')
  end.

(** The keys of a dict are pairwise different. *)
Fixpoint unique_keys (d : t) : bool :=
  match d with
  | [] => true
  | (k, _) :: d' => negb (mem k d') && unique_keys d'
  end.

Definition wf (d : t) : Prop := unique_keys d = true.
End WithValue.
End Dict.

(** ** The engine *)

Module Sim.

Record t : Type := mk {
  md_queue : list MdUpdate.t;
  actions_queue : list Action;
  strategy_updates_queue : PriorQueue.t Update;
  ready_to_execute_orders : Dict.t Order.t;
  md : option MdUpdate.t;
  order_id : Z;
  trade_id : Z;
  latency : Z;
  md_latency : Z;
  best_bid : ext;
  best_ask : ext;
  trade_price_BID : ext;   (* trade_price['BID'] *)
  trade_price_ASK : ext;   (* trade_price['ASK'] *)
  last_order : option Order.t
}.

(** Assignments to one attribute. *)

Definition set_md_queue (s : t) (x : list MdUpdate.t) : t :=
  mk x (actions_queue s) (strategy_updates_queue s)
     (ready_to_execute_orders s) (md s) (order_id s) (trade_id s)
     (latency s) (md_latency s) (best_bid s) (best_ask s)
     (trade_price_BID s) (trade_price_ASK s) (last_order s).

Definition set_actions_queue (s : t) (x : list Action) : t :=
  mk (md_queue s) x (strategy_updates_queue s)
     (ready_to_execute_orders s) (md s) (order_id s) (trade_id s)
     (latency s) (md_latency s) (best_bid s) (best_ask s)
     (trade_price_BID s) (trade_price_ASK s) (last_order s).

Definition set_strategy_updates_queue (s : t) (x : PriorQueue.t Update) : t :=
  mk (md_queue s) (actions_queue s) x
     (ready_to_execute_orders s) (md s) (order_id s) (trade_id s)
     (latency s) (md_latency s) (best_bid s) (best_ask s)
     (trade_price_BID s) (trade_price_ASK s) (last_order s).

Definition set_ready_to_execute_orders (s : t) (x : Dict.t Order.t) : t :=
  mk (md_queue s) (actions_queue s) (strategy_updates_queue s)
     x (md s) (order_id s) (trade_id s)
     (latency s) (md_latency s) (best_bid s) (best_ask s)
     (trade_price_BID s) (trade_price_ASK s) (last_order s).

Definition set_md (s : t) (x : option MdUpdate.t) : t :=
  mk (md_queue s) (actions_queue s) (strategy_updates_queue s)
     (ready_to_execute_orders s) x (order_id s) (trade_id s)
     (latency s) (md_latency s) (best_bid s) (best_ask s)
     (trade_price_BID s) (trade_price_ASK s) (last_order s).

Definition set_order_id (s : t) (x : Z) : t :=
  mk (md_queue s) (actions_queue s) (strategy_updates_queue s)
     (ready_to_execute_orders s) (md s) x (trade_id s)
     (latency s) (md_latency s) (best_bid s) (best_ask s)
     (trade_price_BID s) (trade_price_ASK s) (last_order s).

Definition set_trade_id (s : t) (x : Z) : t :=
  mk (md_queue s) (actions_queue s) (strategy_updates_queue s)
     (ready_to_execute_orders s) (md s) (order_id s) x
     (latency s) (md_latency s) (best_bid s) (best_ask s)
     (trade_price_BID s) (trade_price_ASK s) (last_order s).

Definition set_best (s : t) (bid_ask : ext * ext) : t :=
  mk (md_queue s) (actions_queue s) (strategy_updates_queue s)
     (ready_to_execute_orders s) (md s) (order_id s) (trade_id s)
     (latency s) (md_latency s) (fst bid_ask) (snd bid_ask)
     (trade_price_BID s) (trade_price_ASK s) (last_order s).

Definition set_trade_price (s : t) (side : Side) (x : ext) : t :=
  mk (md_queue s) (actions_queue s) (strategy_updates_queue s)
     (ready_to_execute_orders s) (md s) (order_id s) (trade_id s)
     (latency s) (md_latency s) (best_bid s) (best_ask s)
     (match side with BID => x | ASK => trade_price_BID s end)
     (match side with ASK => x | BID => trade_price_ASK s end)
     (last_order s).

Definition set_last_order (s : t) (x : option Order.t) : t :=
  mk (md_queue s) (actions_queue s) (strategy_updates_queue s)
     (ready_to_execute_orders s) (md s) (order_id s) (trade_id s)
     (latency s) (md_latency s) (best_bid s) (best_ask s)
     (trade_price_BID s) (trade_price_ASK s) x.

(** [Sim.__init__] *)
Definition init (market_data : list MdUpdate.t)
           (execution_latency md_latency : Z) : t :=
  {| md_queue := market_data;
     actions_queue := [];
     strategy_updates_queue := PriorQueue.empty;
     ready_to_execute_orders := [];
     md := None;
     order_id := 0;
     trade_id := 0;
     latency := execution_latency;
     md_latency := md_latency;
     best_bid := NegInf;
     best_ask := PosInf;
     trade_price_BID := NegInf;
     trade_price_ASK := PosInf;
     last_order := None |}.

Definition get_md_queue_event_time (s : t) : ext :=
  match md_queue s with
  | [] => PosInf
  | m :: _ => Fin (MdUpdate.exchange_ts m)
  end.

Definition get_actions_queue_event_time (s : t) : ext :=
  match actions_queue s with
  | [] => PosInf
  | a :: _ => Fin (Action_exchange_ts a)
  end.

Definition get_strategy_updates_queue_event_time (s : t) : ext :=
  PriorQueue.min_key (strategy_updates_queue s).

Definition get_order_id (s : t) : Z * t :=
  (order_id s, set_order_id s (order_id s + 1)).

Definition get_trade_id (s : t) : Z * t :=
  (trade_id s, set_trade_id s (trade_id s + 1)).

(** Reading an attribute of [self.md]. *)
Definition current_md (s : t) : result MdUpdate.t :=
  match md s with
  | Some m => Ok m
  | None => Raise AttributeError
  end.

Definition update_last_trade (s : t) : result t :=
  match md s with
  | None => Raise AssertionError
  | Some m =>
      match MdUpdate.trade m with
      | Some tr => Ok (set_trade_price s (AnonTrade.side tr) (AnonTrade.price tr))
      | None => Ok s
      end
  end.

Definition delete_last_trade (s : t) : t :=
  set_trade_price (set_trade_price s BID NegInf) ASK PosInf.

Definition push_update (s : t) (key : Z) (u : Update) : t :=
  set_strategy_updates_queue s
    (PriorQueue.push key u (strategy_updates_queue s)).

Definition update_md (s : t) (m : MdUpdate.t) : result t :=
  let s := set_md s (Some m) in
  let s := set_best s (update_best_positions (best_bid s) (best_ask s) m) in
  s <- update_last_trade s ;;
  Ok (push_update s (MdUpdate.receive_ts m) (UMd m)).

(** The branch [assert False, "Wrong action type!"] is excluded by the
    type of the actions. *)
Definition update_action (s : t) (action : Action) : result t :=
  match action with
  | APlace o => Ok (set_last_order s (Some o))
  | ACancel c =>
      if Dict.mem (CancelOrder.id_to_delete c) (ready_to_execute_orders s)
      then
        d <- Dict.pop (CancelOrder.id_to_delete c) (ready_to_execute_orders s) ;;
        Ok (set_ready_to_execute_orders s d)
      else Ok s
  end.

(** The price at which the pending order would execute at once. *)
Definition aggressive_price (s : t) (o : Order.t) : option ext :=
  if Side_eqb (Order.side o) BID && Ext.ltb (best_ask s) (Order.price o)
  then Some (best_ask s)
  else if Side_eqb (Order.side o) ASK && Ext.ltb (Order.price o) (best_bid s)
  then Some (best_bid s)
  else None.

Definition execute_last_order (s : t) : result t :=
  match last_order s with
  | None => Ok s
  | Some o =>
      s1 <- match aggressive_price s o with
            | Some executed_price =>
                match Order.type o with
                | POST_ONLY => Ok s
                | LIMIT =>
                    m <- current_md s ;;
                    let '(tid, s') := get_trade_id s in
                    let own_trade :=
                      OwnTrade.mk (Order.place_ts o)
                        (MdUpdate.exchange_ts m)
                        (MdUpdate.exchange_ts m + md_latency s)
                        tid (Order.order_id o) (Order.side o) (Order.size o)
                        executed_price TAKER BOOK in
                    Ok (push_update s' (OwnTrade.receive_ts own_trade)
                          (UTrade own_trade))
                end
            | None =>
                Ok (set_ready_to_execute_orders s
                      (Dict.set (Order.order_id o) o (ready_to_execute_orders s)))
            end ;;
      Ok (set_last_order s1 None)
  end.

(** The four-way test of [execute_orders] on one resting order. *)
Definition passive_match (s : t) (order : Order.t) : option (ext * Venue) :=
  if Side_eqb (Order.side order) BID && Ext.ltb (best_ask s) (Order.price order)
  then Some (Order.price order, BOOK)
  else if Side_eqb (Order.side order) ASK && Ext.ltb (Order.price order) (best_bid s)
  then Some (Order.price order, BOOK)
  else if Side_eqb (Order.side order) BID && Ext.ltb (trade_price_ASK s) (Order.price order)
  then Some (Order.price order, TRADE)
  else if Side_eqb (Order.side order) ASK && Ext.ltb (Order.price order) (trade_price_BID s)
  then Some (Order.price order, TRADE)
  else None.

(** The first loop of [execute_orders], over the items of the resting map
    as they were when the loop started. *)
Fixpoint execute_orders_loop (items : list (Z * Order.t))
         (executed_orders_id : list Z) (s : t) : result (list Z * t) :=
  match items with
  | [] => Ok (executed_orders_id, s)
  | (order_id, order) :: items' =>
      match passive_match s order with
      | Some (executed_price, execute) =>
          m <- current_md s ;;
          let '(tid, s') := get_trade_id s in
          let executed_order :=
            OwnTrade.mk (Order.place_ts order)
              (MdUpdate.exchange_ts m)
              (MdUpdate.exchange_ts m + md_latency s)
              tid order_id (Order.side order) (Order.size order)
              executed_price MAKER execute in
          execute_orders_loop items' (executed_orders_id ++ [order_id])
            (push_update s' (OwnTrade.receive_ts executed_order)
               (UTrade executed_order))
      | None => execute_orders_loop items' executed_orders_id s
      end
  end.

(** The second loop of [execute_orders]. *)
Fixpoint pop_executed (ks : list Z) (d : Dict.t Order.t) : result (Dict.t Order.t) :=
  match ks with
  | [] => Ok d
  | k :: ks' => d' <- Dict.pop k d ;; pop_executed ks' d'
  end.

Definition execute_orders (s : t) : result t :=
  ' (executed_orders_id, s1) <-
      execute_orders_loop (ready_to_execute_orders s) [] s ;;
  d <- pop_executed executed_orders_id (ready_to_execute_orders s1) ;;
  Ok (set_ready_to_execute_orders s1 d).

Definition popleft_md (s : t) : result (MdUpdate.t * t) :=
  match md_queue s with
  | [] => Raise IndexError
  | m :: rest => Ok (m, set_md_queue s rest)
  end.

Definition popleft_action (s : t) : result (Action * t) :=
  match actions_queue s with
  | [] => Raise IndexError
  | a :: rest => Ok (a, set_actions_queue s rest)
  end.

(** One iteration of the [while True] of [tick]: either [break] or a new
    state. *)
Inductive loop_step : Type :=
| Break
| Continue (s : t).

Definition tick_body (s : t) : result loop_step :=
  let strategy_updates_queue_et := get_strategy_updates_queue_event_time s in
  let md_queue_et := get_md_queue_event_time s in
  let actions_queue_et := get_actions_queue_event_time s in
  if Ext.eqb md_queue_et PosInf && Ext.eqb actions_queue_et PosInf
  then Ok Break
  else if Ext.ltb strategy_updates_queue_et (Ext.min md_queue_et actions_queue_et)
  then Ok Break
  else
    let call_execute := Ext.leb md_queue_et actions_queue_et in
    s1 <- (if Ext.leb md_queue_et actions_queue_et
           then ' (m, s') <- popleft_md s ;; update_md s' m
           else Ok s) ;;
    s2 <- (if Ext.leb actions_queue_et md_queue_et
           then ' (a, s') <- popleft_action s1 ;;
                s'' <- update_action s' a ;;
                execute_last_order s''
           else Ok s1) ;;
    s3 <- (if call_execute then execute_orders s2 else Ok s2) ;;
    Ok (Continue (delete_last_trade s3)).

Fixpoint tick_loop (fuel : nat) (s : t) : result t :=
  match fuel with
  | O => Raise OutOfFuel
  | S fuel' =>
      r <- tick_body s ;;
      match r with
      | Break => Ok s
      | Continue s' => tick_loop fuel' s'
      end
  end.

(** Every iteration that does not break pops an update or an action. *)
Definition tick_fuel (s : t) : nat :=
  S (length (md_queue s) + length (actions_queue s)).

Definition tick (s : t) : result (Z * list Update * t) :=
  s' <- tick_loop (tick_fuel s) s ;;
  ' (key, res, q) <- PriorQueue.pop (strategy_updates_queue s') ;;
  Ok (key, res, set_strategy_updates_queue s' q).

Definition place_order (s : t) (ts : Z) (size : Z) (side : Side)
           (price : ext) (order_type : OrderType) : Order.t * t :=
  let '(oid, s1) := get_order_id s in
  let order := Order.mk ts (ts + latency s) oid side size price order_type in
  (order, set_actions_queue s1 (actions_queue s1 ++ [APlace order])).

Definition cancel_order (s : t) (ts : Z) (id_to_delete : Z)
  : CancelOrder.t * t :=
  let ts := ts + latency s in
  let delete_order := CancelOrder.mk ts id_to_delete in
  (delete_order, set_actions_queue s (actions_queue s ++ [ACancel delete_order])).

End Sim.

(** ** Analytics: [md_to_dataframe] of [simulator/get_info.py] *)

Module GetInfo.

(** The four columns of the data frame. *)
Record md_frame : Type := mk_frame {
  exchange_ts : list Z;
  receive_ts : list Z;
  bid_price : list ext;
  ask_price : list ext
}.

(** The loop [for md in md_list]. *)
Fixpoint md_loop (md_list : list MdUpdate.t) (best_bid best_ask : ext)
         (best_bids best_asks : list ext) : list ext * list ext :=
  match md_list with
  | [] => (best_bids, best_asks)
  | md :: md_list' =>
      let '(best_bid, best_ask) := update_best_positions best_bid best_ask md in
      md_loop md_list' best_bid best_ask
        (best_bids ++ [best_bid]) (best_asks ++ [best_ask])
  end.

Definition md_to_dataframe (md_list : list MdUpdate.t) : md_frame :=
  let '(best_bids, best_asks) := md_loop md_list NegInf PosInf [] [] in
  {| exchange_ts := map MdUpdate.exchange_ts md_list;
     receive_ts := map MdUpdate.receive_ts md_list;
     bid_price := best_bids;
     ask_price := best_asks |}.

End GetInfo.

(** ** Driving the engine

    The three entry points of the engine as a caller uses them. *)

Inductive call : Type :=
| CallPlace (ts size : Z) (side : Side) (price : ext) (order_type : OrderType)
| CallCancel (ts id_to_delete : Z)
| CallTick.

(** A sequence of calls; the batches returned by the calls of [tick] are
    collected in the order of the calls. *)
Fixpoint run (cs : list call) (s : Sim.t)
  : result (list (Z * list Update) * Sim.t) :=
  match cs with
  | [] => Ok ([], s)
  | CallPlace ts size side price order_type :: cs' =>
      run cs' (snd (Sim.place_order s ts size side price order_type))
  | CallCancel ts id_to_delete :: cs' =>
      run cs' (snd (Sim.cancel_order s ts id_to_delete))
  | CallTick :: cs' =>
      ' (key, res, s1) <- Sim.tick s ;;
      ' (batches, s2) <- run cs' s1 ;;
      Ok ((key, res) :: batches, s2)
  end.



(** Nothing is left to process or to deliver. *)
Definition exhausted (s : Sim.t) : Prop :=
  Sim.md_queue s = [] /\ Sim.actions_queue s = [] /\
  Sim.strategy_updates_queue s = [].

(** The integers [a, a+1, ..., a+n-1]. *)
Fixpoint zrange (a : Z) (n : nat) : list Z :=
  match n with
  | O => []
  | S n' => a :: zrange (a + 1) n'
  end.

(** Every value of a batch or of the queue sits under its receive
    timestamp. *)
Definition keyed (b : Z * list Update) : Prop :=
  Forall (fun u => Update_receive_ts u = fst b) (snd b).


(** The market data arrives in the order of its receive timestamps. *)
Definition md_sorted (market_data : list MdUpdate.t) : Prop :=
  StronglySorted (fun a b => MdUpdate.receive_ts a <= MdUpdate.receive_ts b)
                 market_data.

(** ** The selection of work of one iteration, as the specification words it

    Stop when both input queues are empty; stop when the notification queue
    comes strictly first; otherwise the market-data update alone when it is
    strictly earlier than the action, the action alone when it is strictly
    earlier, and on a tie the update and then the action. *)

Inductive selection : Type :=
| SelStop
| SelMd (m : MdUpdate.t)
| SelAction (a : Action)
| SelBoth (m : MdUpdate.t) (a : Action).

Definition next_input_time (s : Sim.t) : ext :=
  match Sim.md_queue s, Sim.actions_queue s with
  | [], [] => PosInf
  | m :: _, [] => Fin (MdUpdate.exchange_ts m)
  | [], a :: _ => Fin (Action_exchange_ts a)
  | m :: _, a :: _ => Fin (Z.min (MdUpdate.exchange_ts m) (Action_exchange_ts a))
  end.

Definition select (s : Sim.t) : selection :=
  match Sim.md_queue s, Sim.actions_queue s with
  | [], [] => SelStop
  | mq, aq =>
      if Ext.ltb (PriorQueue.min_key (Sim.strategy_updates_queue s))
                 (next_input_time s)
      then SelStop
      else
        match mq, aq with
        | [], [] => SelStop
        | m :: _, [] => SelMd m
        | [], a :: _ => SelAction a
        | m :: _, a :: _ =>
            match MdUpdate.exchange_ts m ?= Action_exchange_ts a with
            | Lt => SelMd m
            | Eq => SelBoth m a
            | Gt => SelAction a
            end
        end
  end.

(** What the iteration does with the selected work. *)
Definition perform (s : Sim.t) (w : selection) : result Sim.loop_step :=
  match w with
  | SelStop => Ok Sim.Break
  | SelMd m =>
      s1 <- Sim.update_md (Sim.set_md_queue s (tl (Sim.md_queue s))) m ;;
      s2 <- Sim.execute_orders s1 ;;
      Ok (Sim.Continue (Sim.delete_last_trade s2))
  | SelAction a =>
      s1 <- Sim.update_action (Sim.set_actions_queue s (tl (Sim.actions_queue s))) a ;;
      s2 <- Sim.execute_last_order s1 ;;
      Ok (Sim.Continue (Sim.delete_last_trade s2))
  | SelBoth m a =>
      s1 <- Sim.update_md (Sim.set_md_queue s (tl (Sim.md_queue s))) m ;;
      s2 <- Sim.update_action (Sim.set_actions_queue s1 (tl (Sim.actions_queue s1))) a ;;
      s3 <- Sim.execute_last_order s2 ;;
      s4 <- Sim.execute_orders s3 ;;
      Ok (Sim.Continue (Sim.delete_last_trade s4))
  end.

(** ** States used in the statements *)

(** The state after [update_md s m]. *)
Definition after_md (s : Sim.t) (m : MdUpdate.t) : Sim.t :=
  let s1 := Sim.set_best (Sim.set_md s (Some m))
              (update_best_positions (Sim.best_bid s) (Sim.best_ask s) m) in
  let s2 := match MdUpdate.trade m with
            | Some tr => Sim.set_trade_price s1 (AnonTrade.side tr) (AnonTrade.price tr)
            | None => s1
            end in
  Sim.push_update s2 (MdUpdate.receive_ts m) (UMd m).

(** ** Matching, as the specification words it *)

(** The order crosses the touch: a buy strictly above the best ask, a sell
    strictly below the best bid. *)
Definition marketable (s : Sim.t) (o : Order.t) : bool :=
  match Order.side o with
  | BID => Ext.ltb (Sim.best_ask s) (Order.price o)
  | ASK => Ext.ltb (Order.price o) (Sim.best_bid s)
  end.

(** The best price of the opposite side. *)
Definition touch (s : Sim.t) (o : Order.t) : ext :=
  match Order.side o with
  | BID => Sim.best_ask s
  | ASK => Sim.best_bid s
  end.

(** A trade seen in this iteration crossed the limit of the order: a buy
    strictly above the ask-side trade price, a sell strictly below the
    bid-side trade price. *)
Definition crossed_by_trade (s : Sim.t) (o : Order.t) : bool :=
  match Order.side o with
  | BID => Ext.ltb (Sim.trade_price_ASK s) (Order.price o)
  | ASK => Ext.ltb (Order.price o) (Sim.trade_price_BID s)
  end.

(** The venue of a passive fill, if any: the book first, then the tape. *)
Definition passive_venue (s : Sim.t) (o : Order.t) : option Venue :=
  if marketable s o then Some BOOK
  else if crossed_by_trade s o then Some TRADE
  else None.

Definition still_resting (s : Sim.t) (item : Z * Order.t) : bool :=
  match passive_venue s (snd item) with
  | Some _ => false
  | None => true
  end.

(** The trade of an aggressive fill of [o] while [m] is the current
    update. *)
Definition taker_trade (s : Sim.t) (m : MdUpdate.t) (o : Order.t) : OwnTrade.t :=
  {| OwnTrade.place_ts := Order.place_ts o;
     OwnTrade.exchange_ts := MdUpdate.exchange_ts m;
     OwnTrade.receive_ts := MdUpdate.exchange_ts m + Sim.md_latency s;
     OwnTrade.trade_id := Sim.trade_id s;
     OwnTrade.order_id := Order.order_id o;
     OwnTrade.side := Order.side o;
     OwnTrade.size := Order.size o;
     OwnTrade.price := touch s o;
     OwnTrade.trade_type := TAKER;
     OwnTrade.execute := BOOK |}.

(** The trade of a passive fill of the resting order [o] kept under the
    key [k]. *)
Definition maker_trade (s : Sim.t) (m : MdUpdate.t) (tid : Z) (k : Z)
           (o : Order.t) (v : Venue) : OwnTrade.t :=
  {| OwnTrade.place_ts := Order.place_ts o;
     OwnTrade.exchange_ts := MdUpdate.exchange_ts m;
     OwnTrade.receive_ts := MdUpdate.exchange_ts m + Sim.md_latency s;
     OwnTrade.trade_id := tid;
     OwnTrade.order_id := k;
     OwnTrade.side := Order.side o;
     OwnTrade.size := Order.size o;
     OwnTrade.price := Order.price o;
     OwnTrade.trade_type := MAKER;
     OwnTrade.execute := v |}.

(** The trades of one passive pass over [items], numbered from [tid]. *)
Fixpoint maker_trades (s : Sim.t) (m : MdUpdate.t) (tid : Z)
         (items : list (Z * Order.t)) : list OwnTrade.t :=
  match items with
  | [] => []
  | (k, o) :: items' =>
      match passive_venue s o with
      | Some v => maker_trade s m tid k o v :: maker_trades s m (tid + 1) items'
      | None => maker_trades s m tid items'
      end
  end.

(** Pushing trades, each under its receive timestamp. *)
Definition push_trades (q : PriorQueue.t Update) (ts : list OwnTrade.t)
  : PriorQueue.t Update :=
  fold_left (fun q t => PriorQueue.push (OwnTrade.receive_ts t) (UTrade t) q) ts q.

(** The state once [ts] were generated and queued. *)
Definition with_trades (s : Sim.t) (ts : list OwnTrade.t) : Sim.t :=
  Sim.set_trade_id
    (Sim.set_strategy_updates_queue s
       (push_trades (Sim.strategy_updates_queue s) ts))
    (Sim.trade_id s + Z.of_nat (length ts)).

(** The pending order goes to the resting map. *)
Definition rest_order (s : Sim.t) (o : Order.t) : Sim.t :=
  Sim.set_ready_to_execute_orders s
    (Dict.set (Order.order_id o) o (Sim.ready_to_execute_orders s)).

(** Two states show the same market to the matching logic. *)
Definition same_market (s s' : Sim.t) : Prop :=
  Sim.best_bid s' = Sim.best_bid s /\ Sim.best_ask s' = Sim.best_ask s /\
  Sim.trade_price_BID s' = Sim.trade_price_BID s /\
  Sim.trade_price_ASK s' = Sim.trade_price_ASK s /\
  Sim.md s' = Sim.md s /\ Sim.md_latency s' = Sim.md_latency s.

(** ** The iterations of the tick loop, as the specification words them *)

(** An iteration that advances the market-data queue: the update is
    applied, then the action with the same timestamp if there is one, then
    aggressive resolution, then passive resolution, and the last trade
    prices are cleared. *)
Definition md_iteration (s : Sim.t) (m : MdUpdate.t) (tie : option Action)
  : result Sim.t :=
  s1 <- Sim.update_md (Sim.set_md_queue s (tl (Sim.md_queue s))) m ;;
  s2 <- match tie with
        | Some a =>
            Sim.update_action
              (Sim.set_actions_queue s1 (tl (Sim.actions_queue s1))) a
        | None => Ok s1
        end ;;
  s3 <- Sim.execute_last_order s2 ;;
  s4 <- Sim.execute_orders s3 ;;
  Ok (Sim.delete_last_trade s4).

(** An iteration that advances the action queue only. *)
Definition action_iteration (s : Sim.t) (a : Action) : result Sim.t :=
  s1 <- Sim.update_action (Sim.set_actions_queue s (tl (Sim.actions_queue s))) a ;;
  s2 <- Sim.execute_last_order s1 ;;
  Ok (Sim.delete_last_trade s2).

(** ** The states of a run *)

(** The states of an engine built on [market_data], between two iterations
    of the tick loop and between two calls. *)
Inductive reachable (market_data : list MdUpdate.t) (lat mdl : Z)
  : Sim.t -> Prop :=
| reach_init : reachable market_data lat mdl (Sim.init market_data lat mdl)
| reach_place s ts size side price order_type :
    reachable market_data lat mdl s ->
    reachable market_data lat mdl
      (snd (Sim.place_order s ts size side price order_type))
| reach_cancel s ts id_to_delete :
    reachable market_data lat mdl s ->
    reachable market_data lat mdl (snd (Sim.cancel_order s ts id_to_delete))
| reach_iteration s s' :
    reachable market_data lat mdl s ->
    Sim.tick_body s = Ok (Sim.Continue s') ->
    reachable market_data lat mdl s'
| reach_pop s key res q :
    reachable market_data lat mdl s ->
    PriorQueue.pop (Sim.strategy_updates_queue s) = Ok (key, res, q) ->
    reachable market_data lat mdl (Sim.set_strategy_updates_queue s q).

(** What holds between two iterations: no order is pending, no trade price
    is recorded, the best prices are infinite as long as no update was
    applied, and the resting map has one entry per key. *)
Definition settled (s : Sim.t) : Prop :=
  Sim.last_order s = None /\
  Sim.trade_price_BID s = NegInf /\ Sim.trade_price_ASK s = PosInf /\
  (Sim.md s = None -> Sim.best_bid s = NegInf /\ Sim.best_ask s = PosInf) /\
  Dict.wf (Sim.ready_to_execute_orders s).

(** Replaying the best-price tracker over a list of updates. *)
Definition replay_best (start : ext * ext) (mds : list MdUpdate.t) : ext * ext :=
  fold_left (fun ba m => update_best_positions (fst ba) (snd ba) m) mds start.

(** What holds at every point of an iteration: the resting map has one
    entry per key, and the best prices are infinite as long as no update
    was applied. *)
Definition coherent (s : Sim.t) : Prop :=
  Dict.wf (Sim.ready_to_execute_orders s) /\
  (Sim.md s = None -> Sim.best_bid s = NegInf /\ Sim.best_ask s = PosInf).

(** The effect of a piece of the tick loop that consumed the updates [mds]
    and the actions [acts] and generated the trades [trades]. *)
Record effect (s s' : Sim.t) (mds : list MdUpdate.t) (acts : list Action)
       (trades : list OwnTrade.t) : Prop := mk_effect {
  eff_md_queue : Sim.md_queue s = mds ++ Sim.md_queue s';
  eff_actions_queue : Sim.actions_queue s = acts ++ Sim.actions_queue s';
  eff_best :
    (Sim.best_bid s', Sim.best_ask s')
    = replay_best (Sim.best_bid s, Sim.best_ask s) mds;
  eff_contents :
    Permutation
      (PriorQueue.contents (Sim.strategy_updates_queue s'))
      (PriorQueue.contents (Sim.strategy_updates_queue s)
         ++ map UMd mds ++ map UTrade trades);
  eff_keyed :
    Forall keyed (Sim.strategy_updates_queue s) ->
    Forall keyed (Sim.strategy_updates_queue s');
  eff_trade_ids :
    map OwnTrade.trade_id trades = zrange (Sim.trade_id s) (length trades);
  eff_trade_id : Sim.trade_id s' = Sim.trade_id s + Z.of_nat (length trades);
  eff_potential :
    (length (PriorQueue.keys (Sim.strategy_updates_queue s'))
     + length (Sim.ready_to_execute_orders s')
     <= length (PriorQueue.keys (Sim.strategy_updates_queue s))
        + length (Sim.ready_to_execute_orders s)
        + length mds + length acts)%nat;
  eff_latency :
    Sim.latency s' = Sim.latency s /\ Sim.md_latency s' = Sim.md_latency s
}.

(** The state in which the order [o], just popped from the action queue of
    [s], is pending. *)
Definition pending_state (s : Sim.t) (o : Order.t) : Sim.t :=
  Sim.set_last_order
    (Sim.set_actions_queue s (tl (Sim.actions_queue s))) (Some o).

(** The behaviour of a single pending slot that drops orders, for a run of
    calls: no returned notification names an order placed before the latest
    one, whose id is the order counter minus one. *)
Definition prior_orders_dropped (market_data : list MdUpdate.t) (lat mdl : Z)
           (cs : list call) : Prop :=
  match run cs (Sim.init market_data lat mdl) with
  | Ok (batches, s') =>
      forall t, In (UTrade t) (concat (map snd batches)) ->
                OwnTrade.order_id t = Sim.order_id s' - 1
  | Raise _ => True
  end.

(** ** Sample data *)

(** An update with a one-level book. *)
Definition book_update (exchange_ts receive_ts bid ask : Z) : MdUpdate.t :=
  {| MdUpdate.exchange_ts := exchange_ts;
     MdUpdate.receive_ts := receive_ts;
     MdUpdate.orderbook :=
       Some {| OrderbookSnapshotUpdate.exchange_ts := exchange_ts;
               OrderbookSnapshotUpdate.receive_ts := receive_ts;
               OrderbookSnapshotUpdate.asks := [(Fin ask, 1)];
               OrderbookSnapshotUpdate.bids := [(Fin bid, 1)] |};
     MdUpdate.trade := None |}.

Definition sample_md : list MdUpdate.t :=
  [book_update 0 1 99 101; book_update 10 11 99 101; book_update 20 21 99 94].

(** A buy at 102 against a book of 99 / 101. *)
Definition sample_buy (order_type : OrderType) : Order.t :=
  Order.mk 1 6 0 BID 7 (Fin 102) order_type.

Definition sample_pending (order_type : OrderType) : Sim.t :=
  {| Sim.md_queue := [];
     Sim.actions_queue := [];
     Sim.strategy_updates_queue := [];
     Sim.ready_to_execute_orders := [];
     Sim.md := Some (book_update 0 1 99 101);
     Sim.order_id := 1;
     Sim.trade_id := 0;
     Sim.latency := 5;
     Sim.md_latency := 2;
     Sim.best_bid := Fin 99;
     Sim.best_ask := Fin 101;
     Sim.trade_price_BID := NegInf;
     Sim.trade_price_ASK := PosInf;
     Sim.last_order := Some (sample_buy order_type) |}.

(** A buy at 95 and a sell at 120 resting against a book of 99 / 94. *)
Definition sample_resting : Sim.t :=
  {| Sim.md_queue := [];
     Sim.actions_queue := [];
     Sim.strategy_updates_queue := [];
     Sim.ready_to_execute_orders :=
       [(0, Order.mk 1 6 0 BID 7 (Fin 95) LIMIT);
        (1, Order.mk 1 6 1 ASK 3 (Fin 120) LIMIT)];
     Sim.md := Some (book_update 20 21 99 94);
     Sim.order_id := 2;
     Sim.trade_id := 0;
     Sim.latency := 5;
     Sim.md_latency := 2;
     Sim.best_bid := Fin 99;
     Sim.best_ask := Fin 94;
     Sim.trade_price_BID := NegInf;
     Sim.trade_price_ASK := PosInf;
     Sim.last_order := None |}.

(** One update is delivered, two marketable buys are placed, and the engine
    is ticked twice. *)
Definition sample_two_places : list call :=
  [CallTick;
   CallPlace 1 7 BID (Fin 102) LIMIT;
   CallPlace 1 7 BID (Fin 103) LIMIT;
   CallTick; CallTick].

(** A fresh engine on the sample data, and the same engine once a buy or a
    cancel was submitted ten time units before the first update. *)
Definition sample_engine : Sim.t := Sim.init sample_md 5 2.

Definition sample_placed : Sim.t :=
  snd (Sim.place_order sample_engine (-10) 7 BID (Fin 102) LIMIT).

Definition sample_cancelled : Sim.t :=
  snd (Sim.cancel_order sample_engine (-10) 42).

(** The pairs of best prices after each update of a replay. *)
Fixpoint replay_trace (start : ext * ext) (mds : list MdUpdate.t)
  : list (ext * ext) :=
  match mds with
  | [] => []
  | m :: mds' =>
      let next := update_best_positions (fst start) (snd start) m in
      next :: replay_trace next mds'
  end.


(** The ids of the orders waiting in an action queue, in queue order. *)
Definition place_ids (actions : list Action) : list Z :=
  flat_map (fun a => match a with
                     | APlace o => [Order.order_id o]
                     | ACancel _ => []
                     end) actions.

(** A resting entry sits under the id of its order, an id that the engine
    has issued and that is below the ids of the orders still waiting in the
    action queue. *)
Definition entry_ok (s : Sim.t) (item : Z * Order.t) : Prop :=
  fst item = Order.order_id (snd item)
  /\ 0 <= fst item < Sim.order_id s
  /\ Forall (fun i => fst item < i) (place_ids (Sim.actions_queue s)).

(** The order counter never goes below zero, and the ids of the waiting
    orders ascend and were issued by the engine. *)
Definition ids_ok (s : Sim.t) : Prop :=
  0 <= Sim.order_id s
  /\ StronglySorted Z.lt (place_ids (Sim.actions_queue s))
  /\ Forall (fun i => 0 <= i < Sim.order_id s) (place_ids (Sim.actions_queue s)).

(** The book keeping of the engine between two iterations. *)
Definition book_keeping (s : Sim.t) : Prop :=
  ids_ok s
  /\ Forall (entry_ok s) (Sim.ready_to_execute_orders s)
  /\ Forall (fun item => marketable s (snd item) = false)
            (Sim.ready_to_execute_orders s).

(** ** Merging books and trades: [merge_books_and_trades] of
    [simulator/load_data.py] *)

Module LoadData.

(** The dict keys: a pair (exchange_ts, receive_ts). *)
Definition key : Type := (Z * Z)%type.

Definition key_eqb (a b : key) : bool :=
  (fst a =? fst b) && (snd a =? snd b).

Definition book_key (b : OrderbookSnapshotUpdate.t) : key :=
  (OrderbookSnapshotUpdate.exchange_ts b, OrderbookSnapshotUpdate.receive_ts b).

Definition trade_key (t : AnonTrade.t) : key :=
  (AnonTrade.exchange_ts t, AnonTrade.receive_ts t).

(** [d[k] = v] on a dict with pairs as keys. *)
Fixpoint dict_set {V : Type} (k : key) (v : V) (d : list (key * V))
  : list (key * V) :=
  match d with
  | [] => [(k, v)]
  | (k', v') :: d' =>
      if key_eqb k' k then (k', v) :: d' else (k', v') :: dict_set k v d'
  end.

(** The comprehension [{key_of(x): x for x in l}]. *)
Definition dict_of {V : Type} (key_of : V -> key) (l : list V)
  : list (key * V) :=
  fold_left (fun d x => dict_set (key_of x) x d) l [].

(** [d.get(k, None)] *)
Fixpoint dict_get {V : Type} (k : key) (d : list (key * V)) : option V :=
  match d with
  | [] => None
  | (k', v) :: d' => if key_eqb k' k then Some v else dict_get k d'
  end.

(** The order of the sort key [lambda x: (x[1], x[0])]: by receive
    timestamp, then by exchange timestamp. *)
Definition sort_key_ltb (a b : key) : bool :=
  (snd a <? snd b) || ((snd a =? snd b) && (fst a <? fst b)).

(** [sorted(keys, key=...)] of a set of keys: the sort key is one to one on
    the dict keys, so the result is the one list that holds every key of
    the set once, in ascending order; it is built here by inserting the
    keys one by one, a key already there being skipped. *)
Fixpoint insert_key (k : key) (l : list key) : list key :=
  match l with
  | [] => [k]
  | k' :: l' =>
      if sort_key_ltb k k' then k :: l
      else if key_eqb k k' then l
      else k' :: insert_key k l'
  end.

Definition sorted_keys (ks : list key) : list key :=
  fold_right insert_key [] ks.

Definition merge_books_and_trades (books : list OrderbookSnapshotUpdate.t)
           (trades : list AnonTrade.t) : list MdUpdate.t :=
  let trades_dict := dict_of trade_key trades in
  let books_dict := dict_of book_key books in
  let ts := sorted_keys (map fst trades_dict ++ map fst books_dict) in
  map (fun key =>
         MdUpdate.mk (fst key) (snd key)
           (dict_get key books_dict) (dict_get key trades_dict))
      ts.

End LoadData.

(** The last element of a list that has the key [k]. *)
Definition last_with_key {V : Type} (key_of : V -> LoadData.key)
           (k : LoadData.key) (l : list V) : option V :=
  find (fun x => LoadData.key_eqb (key_of x) k) (rev l).

(** The strict order of the sort key of the merge. *)
Definition key_lt (a b : LoadData.key) : Prop :=
  snd a < snd b \/ (snd a = snd b /\ fst a < fst b).

Definition md_key (m : MdUpdate.t) : LoadData.key :=
  (MdUpdate.exchange_ts m, MdUpdate.receive_ts m).

(** The sample engine after its first call of [tick], and then with a
    marketable buy submitted. *)
Definition sample_ticked : Sim.t :=
  match Sim.tick sample_engine with
  | Ok (_, _, s') => s'
  | Raise _ => sample_engine
  end.

Definition sample_marketable_placed : Sim.t :=
  snd (Sim.place_order sample_ticked 1 7 BID (Fin 102) LIMIT).

(** Market data whose only update brings the best ask down to 94, an engine
    on it in which a buy at 95, submitted before the update, rests, and the
    same engine with a cancel of this order submitted. *)
Definition sample_crossing_md : list MdUpdate.t := [book_update 0 1 90 94].

Definition sample_bid_placed : Sim.t :=
  snd (Sim.place_order (Sim.init sample_crossing_md 5 2) (-10) 7 BID (Fin 95) LIMIT).

Definition sample_bid_rested : Sim.t :=
  match Sim.tick_body sample_bid_placed with
  | Ok (Sim.Continue s') => s'
  | _ => sample_bid_placed
  end.

Definition sample_bid_cancelled : Sim.t :=
  snd (Sim.cancel_order sample_bid_rested (-8) 0).

(** * Properties *)

(** ** Extended numbers *)

Lemma Ext_ltb_irrefl (a : ext) : Ext.ltb a a = false.
Proof. destruct a; simpl; auto using Z.ltb_irrefl. Qed.

Lemma Ext_ltb_PosInf_l (a : ext) : Ext.ltb PosInf a = false.
Proof. reflexivity. Qed.

Lemma Ext_ltb_NegInf_r (a : ext) : Ext.ltb a NegInf = false.
Proof. destruct a; reflexivity. Qed.

Lemma Ext_min_Fin (x y : Z) : Ext.min (Fin x) (Fin y) = Fin (Z.min x y).
Proof.
  unfold Ext.min; simpl.
  destruct (Z.ltb_spec y x); f_equal; lia.
Qed.

(** ** The result monad *)

Lemma bind_assoc {A B C : Type} (r : result A) (f : A -> result B)
      (g : B -> result C) :
  bind (bind r f) g = bind r (fun x => bind (f x) g).
Proof. destruct r; reflexivity. Qed.

Lemma bind_Ok_inv {A B : Type} (r : result A) (f : A -> result B) (b : B) :
  bind r f = Ok b -> exists a, r = Ok a /\ f a = Ok b.
Proof. destruct r; simpl; intros H; [eauto | discriminate]. Qed.

(** ** Applying a market-data update never fails *)

Lemma update_md_eq (s : Sim.t) (m : MdUpdate.t) :
  Sim.update_md s m = Ok (after_md s m).
Proof.
  unfold Sim.update_md, after_md, Sim.update_last_trade.
  destruct s; cbn. destruct (MdUpdate.trade m); reflexivity.
Qed.

Lemma after_md_actions_queue (s : Sim.t) (m : MdUpdate.t) :
  Sim.actions_queue (after_md s m) = Sim.actions_queue s.
Proof. unfold after_md. destruct s; cbn. destruct (MdUpdate.trade m); reflexivity. Qed.

Lemma after_md_fields (s : Sim.t) (m : MdUpdate.t) :
  Sim.md_queue (after_md s m) = Sim.md_queue s
  /\ Sim.strategy_updates_queue (after_md s m)
     = PriorQueue.push (MdUpdate.receive_ts m) (UMd m)
         (Sim.strategy_updates_queue s)
  /\ Sim.ready_to_execute_orders (after_md s m) = Sim.ready_to_execute_orders s
  /\ Sim.md (after_md s m) = Some m
  /\ Sim.trade_id (after_md s m) = Sim.trade_id s
  /\ Sim.latency (after_md s m) = Sim.latency s
  /\ Sim.md_latency (after_md s m) = Sim.md_latency s
  /\ Sim.last_order (after_md s m) = Sim.last_order s
  /\ Sim.best_bid (after_md s m)
     = fst (update_best_positions (Sim.best_bid s) (Sim.best_ask s) m)
  /\ Sim.best_ask (after_md s m)
     = snd (update_best_positions (Sim.best_bid s) (Sim.best_ask s) m)
  /\ (forall tr, MdUpdate.trade m = Some tr ->
        match AnonTrade.side tr with
        | BID => Sim.trade_price_BID (after_md s m)
        | ASK => Sim.trade_price_ASK (after_md s m)
        end = AnonTrade.price tr).
Proof.
  unfold after_md. destruct s.
  destruct (MdUpdate.trade m) as [tr0|]; repeat apply conj;
    try reflexivity; intros tr H; [|discriminate].
  injection H as <-. destruct (AnonTrade.side tr0); reflexivity.
Qed.

Lemma set_md_queue_fields (s : Sim.t) (mq : list MdUpdate.t) :
  Sim.md_queue (Sim.set_md_queue s mq) = mq
  /\ Sim.actions_queue (Sim.set_md_queue s mq) = Sim.actions_queue s
  /\ Sim.strategy_updates_queue (Sim.set_md_queue s mq)
     = Sim.strategy_updates_queue s
  /\ Sim.ready_to_execute_orders (Sim.set_md_queue s mq)
     = Sim.ready_to_execute_orders s
  /\ Sim.trade_id (Sim.set_md_queue s mq) = Sim.trade_id s
  /\ Sim.latency (Sim.set_md_queue s mq) = Sim.latency s
  /\ Sim.md_latency (Sim.set_md_queue s mq) = Sim.md_latency s
  /\ Sim.last_order (Sim.set_md_queue s mq) = Sim.last_order s
  /\ Sim.best_bid (Sim.set_md_queue s mq) = Sim.best_bid s
  /\ Sim.best_ask (Sim.set_md_queue s mq) = Sim.best_ask s.
Proof. destruct s. repeat apply conj; reflexivity. Qed.

Lemma after_md_pop_action (s : Sim.t) (m : MdUpdate.t) :
  Sim.set_actions_queue
    (after_md (Sim.set_md_queue s (tl (Sim.md_queue s))) m)
    (tl (Sim.actions_queue
           (after_md (Sim.set_md_queue s (tl (Sim.md_queue s))) m)))
  = after_md
      (Sim.set_md_queue
         (Sim.set_actions_queue s (tl (Sim.actions_queue s)))
         (tl (Sim.md_queue (Sim.set_actions_queue s (tl (Sim.actions_queue s))))))
      m.
Proof.
  unfold after_md. destruct s. destruct (MdUpdate.trade m); reflexivity.
Qed.

(** ** The tick loop selects its work as specified *)

Lemma select_stop s :
  (Sim.md_queue s = [] -> Sim.actions_queue s = [] -> select s = SelStop)
  /\ (Ext.ltb (PriorQueue.min_key (Sim.strategy_updates_queue s))
              (Ext.min (Sim.get_md_queue_event_time s)
                       (Sim.get_actions_queue_event_time s)) = true ->
      select s = SelStop).
Proof.
  unfold select, next_input_time, Sim.get_md_queue_event_time,
    Sim.get_actions_queue_event_time.
  split.
  - intros -> ->. reflexivity.
  - destruct (Sim.md_queue s) as [|m mq], (Sim.actions_queue s) as [|a aq];
      rewrite ?Ext_min_Fin; cbn [Ext.min Ext.ltb];
      intros H; rewrite ?H; reflexivity.
Qed.

Lemma select_md s m :
  (exists a, select s = SelBoth m a) \/ select s = SelMd m ->
  exists rest, Sim.md_queue s = m :: rest
  /\ Ext.leb (Fin (MdUpdate.exchange_ts m))
             (Sim.get_actions_queue_event_time s) = true.
Proof.
  unfold select, next_input_time, Sim.get_actions_queue_event_time.
  destruct (Sim.md_queue s) as [|m' mq], (Sim.actions_queue s) as [|a' aq];
    try match goal with
      | |- context [if ?c then _ else _] => destruct c
      end;
    try (destruct (Z.compare_spec (MdUpdate.exchange_ts m') (Action_exchange_ts a')));
    intros [[a HH]|HH]; try discriminate; injection HH; intros; subst;
    eexists; (split; [reflexivity|]);
    unfold Ext.leb; cbn [Ext.ltb negb]; try reflexivity;
    apply negb_true_iff, Z.ltb_ge; lia.
Qed.

Lemma select_action s a :
  (exists m, select s = SelBoth m a) \/ select s = SelAction a ->
  exists rest, Sim.actions_queue s = a :: rest
  /\ Ext.leb (Fin (Action_exchange_ts a))
             (Sim.get_md_queue_event_time s) = true.
Proof.
  unfold select, next_input_time, Sim.get_md_queue_event_time.
  destruct (Sim.md_queue s) as [|m' mq], (Sim.actions_queue s) as [|a' aq];
    try match goal with
      | |- context [if ?c then _ else _] => destruct c
      end;
    try (destruct (Z.compare_spec (MdUpdate.exchange_ts m') (Action_exchange_ts a')));
    intros [[m HH]|HH]; try discriminate; injection HH; intros; subst;
    eexists; (split; [reflexivity|]);
    unfold Ext.leb; cbn [Ext.ltb negb]; try reflexivity;
    apply negb_true_iff, Z.ltb_ge; lia.
Qed.

Lemma select_both s m a :
  select s = SelBoth m a -> MdUpdate.exchange_ts m = Action_exchange_ts a.
Proof.
  unfold select.
  destruct (Sim.md_queue s) as [|m' mq], (Sim.actions_queue s) as [|a' aq];
    try match goal with
      | |- context [if ?c then _ else _] => destruct c
      end;
    try (destruct (Z.compare_spec (MdUpdate.exchange_ts m') (Action_exchange_ts a')));
    intros HH; try discriminate; injection HH; intros; subst; assumption.
Qed.

Lemma tick_body_perform (s : Sim.t) : Sim.tick_body s = perform s (select s).
Proof.
  destruct s as [mq aq q ready cur oid tid lat mdl bb ba tb ta lo].
  unfold Sim.tick_body, select, perform, next_input_time,
    Sim.get_md_queue_event_time, Sim.get_actions_queue_event_time,
    Sim.get_strategy_updates_queue_event_time, Sim.popleft_md,
    Sim.popleft_action, Ext.leb.
  cbn [Sim.md_queue Sim.actions_queue Sim.strategy_updates_queue
       Sim.set_md_queue Sim.set_actions_queue].
  destruct mq as [|m mq], aq as [|a aq]; [reflexivity | | |].
  - cbn [Ext.eqb andb Ext.min Ext.ltb Ext.leb negb].
    destruct (Ext.ltb (PriorQueue.min_key q) (Fin (Action_exchange_ts a)));
      [reflexivity|].
    cbn [bind tl Sim.actions_queue]. rewrite bind_assoc. reflexivity.
  - cbn [Ext.eqb andb Ext.min Ext.ltb Ext.leb negb].
    destruct (Ext.ltb (PriorQueue.min_key q) (Fin (MdUpdate.exchange_ts m)));
      [reflexivity|].
    cbn [bind tl Sim.md_queue]. reflexivity.
  - rewrite Ext_min_Fin.
    cbn [Ext.eqb andb Ext.ltb Ext.leb negb].
    destruct (Ext.ltb (PriorQueue.min_key q)
                (Fin (Z.min (MdUpdate.exchange_ts m) (Action_exchange_ts a))));
      [reflexivity|].
    destruct (Z.compare_spec (MdUpdate.exchange_ts m) (Action_exchange_ts a))
      as [Hc|Hc|Hc].
    + rewrite Hc, Z.ltb_irrefl. cbn [negb bind tl Sim.md_queue].
      rewrite !update_md_eq. cbn [bind].
      rewrite !after_md_actions_queue.
      cbn [bind tl Sim.actions_queue Sim.set_md_queue].
      rewrite bind_assoc. reflexivity.
    + rewrite (proj2 (Z.ltb_lt _ _) Hc),
        (proj2 (Z.ltb_ge _ _) (Z.lt_le_incl _ _ Hc)).
      cbn [negb bind tl Sim.md_queue]. reflexivity.
    + rewrite (proj2 (Z.ltb_lt _ _) Hc),
        (proj2 (Z.ltb_ge _ _) (Z.lt_le_incl _ _ Hc)).
      cbn [negb bind tl Sim.actions_queue]. rewrite bind_assoc. reflexivity.
Qed.

(** C1. One iteration of the tick loop does what the selection rule of the
    specification says: it stops when both input queues are empty, stops
    without consuming input when the least key of the notification queue is
    strictly below the next input time, and otherwise applies the
    market-data update when its timestamp is at most that of the action,
    and the action when its timestamp is at most that of the update; on a
    tie both, the update first. *)
Theorem tick_body_selects (s : Sim.t) :
  Sim.tick_body s = perform s (select s)
  /\ (Sim.md_queue s = [] -> Sim.actions_queue s = [] -> select s = SelStop)
  /\ (Ext.ltb (PriorQueue.min_key (Sim.strategy_updates_queue s))
              (Ext.min (Sim.get_md_queue_event_time s)
                       (Sim.get_actions_queue_event_time s)) = true ->
      select s = SelStop)
  /\ (forall m, (exists a, select s = SelBoth m a) \/ select s = SelMd m ->
        exists rest, Sim.md_queue s = m :: rest
        /\ Ext.leb (Fin (MdUpdate.exchange_ts m))
                   (Sim.get_actions_queue_event_time s) = true)
  /\ (forall a, (exists m, select s = SelBoth m a) \/ select s = SelAction a ->
        exists rest, Sim.actions_queue s = a :: rest
        /\ Ext.leb (Fin (Action_exchange_ts a))
                   (Sim.get_md_queue_event_time s) = true)
  /\ (forall m a, select s = SelBoth m a ->
        MdUpdate.exchange_ts m = Action_exchange_ts a).
Proof.
  split; [apply tick_body_perform|].
  split; [apply select_stop|].
  split; [apply select_stop|].
  split; [apply select_md|].
  split; [apply select_action|apply select_both].
Qed.

(** ** Records of the engine state *)

Ltac sim_simpl :=
  unfold with_trades, rest_order, after_md, Sim.push_update,
    Sim.delete_last_trade, Sim.get_trade_id, Sim.get_order_id,
    Sim.set_md_queue, Sim.set_actions_queue,
    Sim.set_strategy_updates_queue, Sim.set_ready_to_execute_orders,
    Sim.set_md, Sim.set_order_id, Sim.set_trade_id, Sim.set_best,
    Sim.set_trade_price, Sim.set_last_order in *;
  cbn [Sim.md_queue Sim.actions_queue Sim.strategy_updates_queue
       Sim.ready_to_execute_orders Sim.md Sim.order_id Sim.trade_id
       Sim.latency Sim.md_latency Sim.best_bid Sim.best_ask
       Sim.trade_price_BID Sim.trade_price_ASK Sim.last_order fst snd] in *.

(** ** Aggressive resolution *)

Lemma aggressive_price_marketable (s : Sim.t) (o : Order.t) :
  Sim.aggressive_price s o = if marketable s o then Some (touch s o) else None.
Proof.
  unfold Sim.aggressive_price, marketable, touch.
  destruct (Order.side o); cbn [Side_eqb andb];
    match goal with |- context [Ext.ltb ?a ?b] => destruct (Ext.ltb a b) end;
    reflexivity.
Qed.

Lemma Dict_set_holds {V : Type} (k : Z) (v : V) (d : Dict.t V) :
  In (k, v) (Dict.set k v d).
Proof.
  induction d as [|[k' v'] d IH]; cbn [Dict.set].
  - left. reflexivity.
  - destruct (Z.eqb_spec k' k) as [->|Hne].
    + left. reflexivity.
    + right. exact IH.
Qed.

(** C3. Aggressive resolution of a pending LIMIT order: a buy fills exactly
    when its limit is strictly above the best ask and a sell exactly when
    its limit is strictly below the best bid.  When it fills, the queue of
    the returned state is the queue with one trade pushed under the
    exchange timestamp of the current update plus the market-data latency;
    the trade is at the touch and not at the limit, TAKER on BOOK, and
    takes the trade counter, which goes up by one; the resting map is
    unchanged.  When it does not fill, the resting map of the returned
    state is the resting map with the order set under its id, and neither
    the queue nor the trade counter changes.  In both cases the pending
    slot of the returned state is empty. *)
Theorem execute_last_order_limit (s : Sim.t) (o : Order.t) (m : MdUpdate.t) :
  Sim.last_order s = Some o ->
  Order.type o = LIMIT ->
  Sim.md s = Some m ->
  exists s',
    Sim.execute_last_order s = Ok s'
    /\ s' = (if marketable s o
             then Sim.set_last_order
                    (Sim.push_update (Sim.set_trade_id s (Sim.trade_id s + 1))
                       (MdUpdate.exchange_ts m + Sim.md_latency s)
                       (UTrade (taker_trade s m o)))
                    None
             else Sim.set_last_order (rest_order s o) None)
    /\ marketable s o
       = match Order.side o with
         | BID => Ext.ltb (Sim.best_ask s) (Order.price o)
         | ASK => Ext.ltb (Order.price o) (Sim.best_bid s)
         end
    /\ (marketable s o = true ->
        Sim.strategy_updates_queue s'
        = PriorQueue.push (MdUpdate.exchange_ts m + Sim.md_latency s)
            (UTrade
               (OwnTrade.mk (Order.place_ts o) (MdUpdate.exchange_ts m)
                  (MdUpdate.exchange_ts m + Sim.md_latency s) (Sim.trade_id s)
                  (Order.order_id o) (Order.side o) (Order.size o)
                  match Order.side o with
                  | BID => Sim.best_ask s
                  | ASK => Sim.best_bid s
                  end TAKER BOOK))
            (Sim.strategy_updates_queue s)
        /\ Sim.trade_id s' = Sim.trade_id s + 1
        /\ Sim.ready_to_execute_orders s' = Sim.ready_to_execute_orders s)
    /\ (marketable s o = false ->
        Sim.ready_to_execute_orders s'
        = Dict.set (Order.order_id o) o (Sim.ready_to_execute_orders s)
        /\ In (Order.order_id o, o) (Sim.ready_to_execute_orders s')
        /\ Sim.strategy_updates_queue s' = Sim.strategy_updates_queue s
        /\ Sim.trade_id s' = Sim.trade_id s)
    /\ Sim.last_order s' = None
    /\ Sim.md_queue s' = Sim.md_queue s
    /\ Sim.actions_queue s' = Sim.actions_queue s
    /\ Sim.order_id s' = Sim.order_id s
    /\ same_market s s'.
Proof.
  intros Hlast Hty Hmd.
  eexists. split; [|split; [reflexivity|]].
  - unfold Sim.execute_last_order, Sim.current_md.
    rewrite Hlast, aggressive_price_marketable, Hty, Hmd.
    destruct (marketable s o); destruct s; reflexivity.
  - split; [reflexivity|].
    destruct (marketable s o) eqn:Hm.
    + split; [intros _; destruct s; repeat apply conj; reflexivity|].
      split; [discriminate|].
      destruct s; repeat apply conj; reflexivity.
    + split; [discriminate|].
      split.
      * intros _.
        assert (Hset : Sim.ready_to_execute_orders
                         (Sim.set_last_order (rest_order s o) None)
                       = Dict.set (Order.order_id o) o
                           (Sim.ready_to_execute_orders s))
          by (destruct s; reflexivity).
        split; [exact Hset|].
        split; [rewrite Hset; apply Dict_set_holds|].
        destruct s; split; reflexivity.
      * destruct s; repeat apply conj; reflexivity.
Qed.

(** C5. A POST_ONLY order that is marketable when it is resolved
    aggressively is discarded: the state is unchanged but for the pending
    slot, which is cleared; so no trade is generated, nothing is queued and
    the order does not rest. *)
Theorem execute_last_order_post_only (s : Sim.t) (o : Order.t) :
  Sim.last_order s = Some o ->
  Order.type o = POST_ONLY ->
  marketable s o = true ->
  Sim.execute_last_order s = Ok (Sim.set_last_order s None)
  /\ Sim.strategy_updates_queue (Sim.set_last_order s None)
     = Sim.strategy_updates_queue s
  /\ Sim.trade_id (Sim.set_last_order s None) = Sim.trade_id s
  /\ Sim.ready_to_execute_orders (Sim.set_last_order s None)
     = Sim.ready_to_execute_orders s
  /\ Sim.last_order (Sim.set_last_order s None) = None.
Proof.
  intros Hlast Hty Hm.
  split; [|repeat split; destruct s; reflexivity].
  unfold Sim.execute_last_order.
  rewrite Hlast, aggressive_price_marketable, Hty, Hm. reflexivity.
Qed.

(** ** The priority queue *)

Lemma push_contents {V : Type} (k : Z) (v : V) (q : PriorQueue.t V) :
  Permutation (PriorQueue.contents (PriorQueue.push k v q))
              (PriorQueue.contents q ++ [v]).
Proof.
  unfold PriorQueue.contents.
  induction q as [|[k' vs] q IH]; cbn [PriorQueue.push map concat snd app].
  - reflexivity.
  - destruct (k <? k'); [|destruct (k =? k')];
      cbn [map concat snd app].
    + change (Permutation ([v] ++ (vs ++ concat (map snd q)))
                          ((vs ++ concat (map snd q)) ++ [v])).
      apply Permutation_app_comm.
    + rewrite <- !app_assoc. apply Permutation_app_head.
      apply Permutation_app_comm.
    + rewrite <- app_assoc. apply Permutation_app_head. exact IH.
Qed.

Lemma push_keys_length {V : Type} (k : Z) (v : V) (q : PriorQueue.t V) :
  (length (PriorQueue.keys (PriorQueue.push k v q))
   <= S (length (PriorQueue.keys q)))%nat.
Proof.
  unfold PriorQueue.keys.
  induction q as [|[k' vs] q IH]; cbn [PriorQueue.push map length].
  - lia.
  - destruct (k <? k'); [|destruct (k =? k')]; cbn [map length]; lia.
Qed.

Lemma push_keyed (u : Update) (q : PriorQueue.t Update) :
  Forall keyed q ->
  Forall keyed (PriorQueue.push (Update_receive_ts u) u q).
Proof.
  induction q as [|[k' vs] q IH]; intros Hq; cbn [PriorQueue.push].
  - constructor; [|constructor]. constructor; [reflexivity|constructor].
  - inversion Hq as [|? ? Hk Hq']; subst.
    destruct (Update_receive_ts u <? k').
    + constructor; [|assumption]. constructor; [reflexivity|constructor].
    + destruct (Z.eqb_spec (Update_receive_ts u) k') as [Heq|Hne].
      * constructor; [|assumption]. unfold keyed in *. cbn [fst snd] in *.
        apply Forall_app. split; [assumption|].
        constructor; [assumption|constructor].
      * constructor; [assumption|]. apply IH. assumption.
Qed.

Lemma push_trades_contents (ts : list OwnTrade.t) :
  forall q,
    Permutation (PriorQueue.contents (push_trades q ts))
                (PriorQueue.contents q ++ map UTrade ts).
Proof.
  induction ts as [|t ts IH]; intros q; cbn [push_trades fold_left map].
  - rewrite app_nil_r. reflexivity.
  - change (Permutation
              (PriorQueue.contents
                 (push_trades (PriorQueue.push (OwnTrade.receive_ts t) (UTrade t) q) ts))
              (PriorQueue.contents q ++ UTrade t :: map UTrade ts)).
    rewrite IH, push_contents, <- app_assoc. reflexivity.
Qed.

Lemma push_trades_keys_length (ts : list OwnTrade.t) :
  forall q,
    (length (PriorQueue.keys (push_trades q ts))
     <= length (PriorQueue.keys q) + length ts)%nat.
Proof.
  induction ts as [|t ts IH]; intros q; cbn [push_trades fold_left length].
  - lia.
  - change (length (PriorQueue.keys
              (push_trades (PriorQueue.push (OwnTrade.receive_ts t) (UTrade t) q) ts))
            <= length (PriorQueue.keys q) + S (length ts))%nat.
    pose proof (IH (PriorQueue.push (OwnTrade.receive_ts t) (UTrade t) q)).
    pose proof (push_keys_length (OwnTrade.receive_ts t) (UTrade t) q).
    lia.
Qed.

Lemma push_trades_keyed (ts : list OwnTrade.t) :
  forall q, Forall keyed q -> Forall keyed (push_trades q ts).
Proof.
  induction ts as [|t ts IH]; intros q Hq; cbn [push_trades fold_left].
  - assumption.
  - apply IH. apply (push_keyed (UTrade t)). assumption.
Qed.

(** ** Passive resolution *)

Lemma passive_match_venue (s : Sim.t) (o : Order.t) :
  Sim.passive_match s o =
    match passive_venue s o with
    | Some v => Some (Order.price o, v)
    | None => None
    end.
Proof.
  unfold Sim.passive_match, passive_venue, marketable, crossed_by_trade.
  destruct (Order.side o); cbn [Side_eqb andb];
    repeat match goal with
           | |- context [Ext.ltb ?a ?b] => destruct (Ext.ltb a b)
           end; reflexivity.
Qed.

Lemma passive_venue_same_market (s s' : Sim.t) (o : Order.t) :
  same_market s s' -> passive_venue s' o = passive_venue s o.
Proof.
  intros (Hb & Ha & Htb & Hta & _).
  unfold passive_venue, marketable, crossed_by_trade.
  rewrite Hb, Ha, Htb, Hta. reflexivity.
Qed.

Lemma same_market_refl (s : Sim.t) : same_market s s.
Proof. repeat split. Qed.

Lemma with_trades_cons (s : Sim.t) (t : OwnTrade.t) (ts : list OwnTrade.t) :
  with_trades
    (Sim.push_update (Sim.set_trade_id s (Sim.trade_id s + 1))
       (OwnTrade.receive_ts t) (UTrade t)) ts
  = with_trades s (t :: ts).
Proof.
  destruct s. sim_simpl. cbn [length push_trades fold_left].
  f_equal. rewrite Nat2Z.inj_succ. lia.
Qed.

Lemma execute_orders_loop_eq (s0 : Sim.t) (m : MdUpdate.t)
      (items : list (Z * Order.t)) :
  forall (s : Sim.t) (acc : list Z),
    same_market s0 s -> Sim.md s0 = Some m ->
    Sim.execute_orders_loop items acc s =
      Ok (acc ++ map OwnTrade.order_id (maker_trades s0 m (Sim.trade_id s) items),
          with_trades s (maker_trades s0 m (Sim.trade_id s) items)).
Proof.
  induction items as [|[k o] items IH]; intros s acc Hsame Hmd.
  - cbn. rewrite app_nil_r. unfold with_trades. destruct s; cbn.
    rewrite Z.add_0_r. reflexivity.
  - cbn [Sim.execute_orders_loop maker_trades].
    rewrite passive_match_venue, (passive_venue_same_market o Hsame).
    destruct (passive_venue s0 o) as [v|].
    + unfold Sim.current_md.
      destruct Hsame as (Hb & Ha & Htb & Hta & Hm & Hl).
      rewrite Hm, Hmd. cbn [bind Sim.get_trade_id].
      rewrite IH.
      * cbn [map]. rewrite <- app_assoc. cbn [app].
        replace (Sim.trade_id
                   (Sim.push_update (Sim.set_trade_id s (Sim.trade_id s + 1))
                      (OwnTrade.receive_ts
                         (OwnTrade.mk (Order.place_ts o) (MdUpdate.exchange_ts m)
                            (MdUpdate.exchange_ts m + Sim.md_latency s)
                            (Sim.trade_id s) k (Order.side o) (Order.size o)
                            (Order.price o) MAKER v))
                      (UTrade
                         (OwnTrade.mk (Order.place_ts o) (MdUpdate.exchange_ts m)
                            (MdUpdate.exchange_ts m + Sim.md_latency s)
                            (Sim.trade_id s) k (Order.side o) (Order.size o)
                            (Order.price o) MAKER v))))
          with (Sim.trade_id s + 1) by (destruct s; reflexivity).
        rewrite with_trades_cons.
        unfold maker_trade. rewrite Hl. reflexivity.
      * destruct s; cbn in *. repeat split; assumption.
      * assumption.
    + apply IH; assumption.
Qed.
Lemma Dict_mem_In {V : Type} (k : Z) (d : Dict.t V) :
  Dict.mem k d = true <-> In k (map fst d).
Proof.
  unfold Dict.mem. rewrite existsb_exists. split.
  - intros [[k' v] [Hin Hk]]. apply Z.eqb_eq in Hk. cbn in Hk. subst.
    apply (in_map fst) in Hin. exact Hin.
  - intros Hin. apply in_map_iff in Hin. destruct Hin as [[k' v] [Hk Hin]].
    cbn in Hk. subst. exists (k, v). split; [assumption|apply Z.eqb_refl].
Qed.

Lemma Dict_wf_cons {V : Type} (k : Z) (v : V) (d : Dict.t V) :
  Dict.wf ((k, v) :: d) <-> ~ In k (map fst d) /\ Dict.wf d.
Proof.
  unfold Dict.wf. cbn [Dict.unique_keys]. rewrite andb_true_iff, negb_true_iff.
  rewrite <- Dict_mem_In. destruct (Dict.mem k d); intuition congruence.
Qed.

Lemma pop_executed_skip (k : Z) (o : Order.t) (ks : list Z) :
  forall d : Dict.t Order.t,
    ~ In k ks ->
    Sim.pop_executed ks ((k, o) :: d) =
      (d' <- Sim.pop_executed ks d ;; Ok ((k, o) :: d')).
Proof.
  induction ks as [|k' ks IH]; intros d Hk.
  - reflexivity.
  - cbn [Sim.pop_executed Dict.pop].
    destruct (Z.eqb_spec k k') as [->|Hne].
    + exfalso. apply Hk. left. reflexivity.
    + rewrite !bind_assoc. destruct (Dict.pop k' d) as [d1|e]; cbn [bind].
      * apply IH. intros Hin. apply Hk. right. exact Hin.
      * reflexivity.
Qed.

Lemma pop_executed_filter (f : Z * Order.t -> bool) (d : Dict.t Order.t) :
  Dict.wf d ->
  Sim.pop_executed (map fst (filter (fun kv => negb (f kv)) d)) d
  = Ok (filter f d).
Proof.
  induction d as [|[k o] d IH]; intros Hwf.
  - reflexivity.
  - apply Dict_wf_cons in Hwf. destruct Hwf as [Hk Hwf].
    cbn [filter]. destruct (f (k, o)); cbn [negb map Sim.pop_executed].
    + rewrite pop_executed_skip.
      * rewrite IH by assumption. reflexivity.
      * intros Hin. apply Hk. apply in_map_iff in Hin.
        destruct Hin as [kv [Hfst Hin]]. apply filter_In in Hin.
        rewrite <- Hfst. apply in_map. apply Hin.
    + cbn [Dict.pop]. rewrite Z.eqb_refl. cbn [bind]. apply IH. assumption.
Qed.

Lemma maker_trades_order_ids (s : Sim.t) (m : MdUpdate.t)
      (items : list (Z * Order.t)) :
  forall tid,
    map OwnTrade.order_id (maker_trades s m tid items)
    = map fst (filter (fun kv => negb (still_resting s kv)) items).
Proof.
  induction items as [|[k o] items IH]; intros tid; [reflexivity|].
  cbn [maker_trades filter]. unfold still_resting at 1. cbn [snd].
  destruct (passive_venue s o); cbn [negb map]; rewrite IH; reflexivity.
Qed.

Lemma maker_trades_trade_ids (s : Sim.t) (m : MdUpdate.t)
      (items : list (Z * Order.t)) :
  forall tid,
    map OwnTrade.trade_id (maker_trades s m tid items)
    = zrange tid (length (maker_trades s m tid items)).
Proof.
  induction items as [|[k o] items IH]; intros tid; [reflexivity|].
  cbn [maker_trades]. destruct (passive_venue s o).
  - cbn [map length zrange maker_trade OwnTrade.trade_id]. rewrite IH.
    reflexivity.
  - apply IH.
Qed.

Lemma maker_trades_In (s : Sim.t) (m : MdUpdate.t)
      (items : list (Z * Order.t)) (t : OwnTrade.t) :
  forall tid,
    In t (maker_trades s m tid items) ->
    exists k o v tid',
      In (k, o) items /\ passive_venue s o = Some v
      /\ t = maker_trade s m tid' k o v.
Proof.
  induction items as [|[k o] items IH]; intros tid Hin; [destruct Hin|].
  cbn [maker_trades] in Hin. destruct (passive_venue s o) as [v|] eqn:E.
  - destruct Hin as [<-|Hin].
    + exists k, o, v, tid. repeat split; [left; reflexivity|assumption].
    + destruct (IH _ Hin) as (k' & o' & v' & tid' & H1 & H2 & H3).
      exists k', o', v', tid'. repeat split; [right|..]; assumption.
  - destruct (IH _ Hin) as (k' & o' & v' & tid' & H1 & H2 & H3).
    exists k', o', v', tid'. repeat split; [right|..]; assumption.
Qed.

Lemma maker_trades_complete (s : Sim.t) (m : MdUpdate.t)
      (items : list (Z * Order.t)) (k : Z) (o : Order.t) (v : Venue) :
  forall tid,
    In (k, o) items -> passive_venue s o = Some v ->
    exists tid', In (maker_trade s m tid' k o v) (maker_trades s m tid items).
Proof.
  induction items as [|[k' o'] items IH]; intros tid Hin Hv; [destruct Hin|].
  cbn [maker_trades]. destruct Hin as [Heq|Hin].
  - injection Heq as -> ->. rewrite Hv. exists tid. left. reflexivity.
  - destruct (passive_venue s o').
    + destruct (IH (tid + 1) Hin Hv) as [tid' H]. exists tid'. right. exact H.
    + apply IH; assumption.
Qed.

Lemma execute_orders_eq (s : Sim.t) (m : MdUpdate.t) :
  Sim.md s = Some m ->
  Dict.wf (Sim.ready_to_execute_orders s) ->
  Sim.execute_orders s =
    Ok (Sim.set_ready_to_execute_orders
          (with_trades s
             (maker_trades s m (Sim.trade_id s) (Sim.ready_to_execute_orders s)))
          (filter (still_resting s) (Sim.ready_to_execute_orders s))).
Proof.
  intros Hmd Hwf. unfold Sim.execute_orders.
  rewrite (execute_orders_loop_eq (Sim.ready_to_execute_orders s) []
             (same_market_refl s) Hmd).
  cbn [bind app].
  replace (Sim.ready_to_execute_orders
             (with_trades s
                (maker_trades s m (Sim.trade_id s) (Sim.ready_to_execute_orders s))))
    with (Sim.ready_to_execute_orders s) by (destruct s; reflexivity).
  rewrite maker_trades_order_ids, pop_executed_filter by assumption.
  reflexivity.
Qed.

Lemma passive_pass_fields (s : Sim.t) (ts : list OwnTrade.t)
      (d : Dict.t Order.t) :
  let s' := Sim.set_ready_to_execute_orders (with_trades s ts) d in
  Sim.ready_to_execute_orders s' = d
  /\ Sim.strategy_updates_queue s'
     = push_trades (Sim.strategy_updates_queue s) ts
  /\ Sim.trade_id s' = Sim.trade_id s + Z.of_nat (length ts)
  /\ Sim.last_order s' = Sim.last_order s
  /\ Sim.md_queue s' = Sim.md_queue s
  /\ Sim.actions_queue s' = Sim.actions_queue s
  /\ Sim.order_id s' = Sim.order_id s
  /\ same_market s s'.
Proof. destruct s. repeat apply conj; reflexivity. Qed.

(** C4. One passive pass over the resting map.  The resting map of the
    returned state is the resting map of the start without the orders that
    fill, and the queue of the returned state is the queue of the start
    with the trades of the pass pushed, one per filled order, numbered from
    the trade counter.  An order that is marketable against the best bid
    and ask is no longer in the resting map and its trade, on BOOK, is in
    the queue; otherwise one whose limit was crossed by a trade of this
    iteration is no longer in the resting map and its trade, on TRADE, is in
    the queue; any other order is still in the resting map.  Every such
    trade is at the limit price of the order, is MAKER, carries the
    placement timestamp of the order and is received at the exchange
    timestamp of the current update plus the market-data latency.  Every
    order is decided against the map and the market as they were when the
    pass started: the filled orders leave the map after the pass. *)
Theorem execute_orders_pass (s : Sim.t) (m : MdUpdate.t) :
  Sim.md s = Some m ->
  Dict.wf (Sim.ready_to_execute_orders s) ->
  let trades :=
    maker_trades s m (Sim.trade_id s) (Sim.ready_to_execute_orders s) in
  exists s',
    Sim.execute_orders s = Ok s'
    /\ s' = Sim.set_ready_to_execute_orders (with_trades s trades)
              (filter (still_resting s) (Sim.ready_to_execute_orders s))
    /\ Sim.ready_to_execute_orders s'
       = filter (still_resting s) (Sim.ready_to_execute_orders s)
    /\ Sim.strategy_updates_queue s'
       = push_trades (Sim.strategy_updates_queue s) trades
    /\ Permutation
         (PriorQueue.contents (Sim.strategy_updates_queue s'))
         (PriorQueue.contents (Sim.strategy_updates_queue s)
            ++ map UTrade trades)
    /\ Sim.trade_id s' = Sim.trade_id s + Z.of_nat (length trades)
    /\ map OwnTrade.trade_id trades = zrange (Sim.trade_id s) (length trades)
    /\ (forall t, In t trades ->
          exists k o v,
            In (k, o) (Sim.ready_to_execute_orders s)
            /\ passive_venue s o = Some v
            /\ OwnTrade.order_id t = k
            /\ OwnTrade.execute t = v
            /\ OwnTrade.price t = Order.price o
            /\ OwnTrade.trade_type t = MAKER
            /\ OwnTrade.place_ts t = Order.place_ts o
            /\ OwnTrade.exchange_ts t = MdUpdate.exchange_ts m
            /\ OwnTrade.receive_ts t = MdUpdate.exchange_ts m + Sim.md_latency s)
    /\ (forall k o,
          In (k, o) (Sim.ready_to_execute_orders s) ->
          marketable s o
          = match Order.side o with
            | BID => Ext.ltb (Sim.best_ask s) (Order.price o)
            | ASK => Ext.ltb (Order.price o) (Sim.best_bid s)
            end
          /\ crossed_by_trade s o
             = match Order.side o with
               | BID => Ext.ltb (Sim.trade_price_ASK s) (Order.price o)
               | ASK => Ext.ltb (Order.price o) (Sim.trade_price_BID s)
               end
          /\ (marketable s o = true ->
              ~ In (k, o) (Sim.ready_to_execute_orders s')
              /\ exists tid,
                   In (UTrade
                         (OwnTrade.mk (Order.place_ts o) (MdUpdate.exchange_ts m)
                            (MdUpdate.exchange_ts m + Sim.md_latency s) tid k
                            (Order.side o) (Order.size o) (Order.price o)
                            MAKER BOOK))
                      (PriorQueue.contents (Sim.strategy_updates_queue s')))
          /\ (marketable s o = false -> crossed_by_trade s o = true ->
              ~ In (k, o) (Sim.ready_to_execute_orders s')
              /\ exists tid,
                   In (UTrade
                         (OwnTrade.mk (Order.place_ts o) (MdUpdate.exchange_ts m)
                            (MdUpdate.exchange_ts m + Sim.md_latency s) tid k
                            (Order.side o) (Order.size o) (Order.price o)
                            MAKER TRADE))
                      (PriorQueue.contents (Sim.strategy_updates_queue s')))
          /\ (marketable s o = false -> crossed_by_trade s o = false ->
              In (k, o) (Sim.ready_to_execute_orders s')))
    /\ (forall item,
          In item (Sim.ready_to_execute_orders s') ->
          In item (Sim.ready_to_execute_orders s))
    /\ Sim.last_order s' = Sim.last_order s
    /\ Sim.md_queue s' = Sim.md_queue s
    /\ Sim.actions_queue s' = Sim.actions_queue s
    /\ same_market s s'.
Proof.
  intros Hmd Hwf trades.
  destruct (passive_pass_fields s trades
              (filter (still_resting s) (Sim.ready_to_execute_orders s)))
    as (Hready & Hqueue & Htid & Hlast & Hmq & Haq & _ & Hsame).
  set (s' := Sim.set_ready_to_execute_orders (with_trades s trades)
               (filter (still_resting s) (Sim.ready_to_execute_orders s))) in *.
  assert (Hperm : Permutation
                    (PriorQueue.contents (Sim.strategy_updates_queue s'))
                    (PriorQueue.contents (Sim.strategy_updates_queue s)
                       ++ map UTrade trades))
    by (rewrite Hqueue; apply push_trades_contents).
  assert (Hfilled : forall k o v,
             In (k, o) (Sim.ready_to_execute_orders s) ->
             passive_venue s o = Some v ->
             ~ In (k, o) (Sim.ready_to_execute_orders s')
             /\ exists tid,
                  In (UTrade
                        (OwnTrade.mk (Order.place_ts o) (MdUpdate.exchange_ts m)
                           (MdUpdate.exchange_ts m + Sim.md_latency s) tid k
                           (Order.side o) (Order.size o) (Order.price o)
                           MAKER v))
                     (PriorQueue.contents (Sim.strategy_updates_queue s'))).
  { intros k o v Hin Hv. split.
    - rewrite Hready. intros Hf. apply filter_In in Hf. destruct Hf as [_ Hf].
      unfold still_resting in Hf. cbn [snd] in Hf. rewrite Hv in Hf.
      discriminate.
    - destruct (@maker_trades_complete s m _ k o v (Sim.trade_id s) Hin Hv)
        as [tid Ht].
      exists tid. apply (Permutation_in _ (Permutation_sym Hperm)).
      apply in_or_app. right. apply (in_map UTrade) in Ht. exact Ht. }
  exists s'.
  split; [apply execute_orders_eq; assumption|]. split; [reflexivity|].
  split; [exact Hready|]. split; [exact Hqueue|]. split; [exact Hperm|].
  split; [exact Htid|]. split; [apply maker_trades_trade_ids|].
  split; [|split; [|split; [|split; [exact Hlast|split;
                                      [exact Hmq|split; [exact Haq|exact Hsame]]]]]].
  - intros t Hin. apply maker_trades_In in Hin.
    destruct Hin as (k & o & v & tid' & H1 & H2 & ->).
    exists k, o, v. repeat apply conj; try reflexivity; assumption.
  - intros k o Hin. split; [reflexivity|]. split; [reflexivity|].
    split; [|split].
    + intros Hm. apply Hfilled; [exact Hin|].
      unfold passive_venue. rewrite Hm. reflexivity.
    + intros Hm Hc. apply Hfilled; [exact Hin|].
      unfold passive_venue. rewrite Hm, Hc. reflexivity.
    + intros Hm Hc. rewrite Hready. apply filter_In. split; [assumption|].
      unfold still_resting, passive_venue. cbn [snd]. rewrite Hm, Hc.
      reflexivity.
  - intros item Hin. rewrite Hready in Hin. apply filter_In in Hin.
    apply Hin.
Qed.

(** ** Ranges of identifiers *)

Lemma zrange_length (n : nat) : forall a, length (zrange a n) = n.
Proof. induction n; intros a; cbn; [|rewrite IHn]; reflexivity. Qed.

Lemma zrange_app (n m : nat) :
  forall a, zrange a (n + m) = zrange a n ++ zrange (a + Z.of_nat n) m.
Proof.
  induction n as [|n IH]; intros a.
  - cbn. rewrite Z.add_0_r. reflexivity.
  - cbn [Nat.add zrange app]. rewrite IH. do 3 f_equal. lia.
Qed.

Lemma zrange_In (n : nat) :
  forall a x, In x (zrange a n) <-> a <= x < a + Z.of_nat n.
Proof.
  induction n as [|n IH]; intros a x; cbn [zrange In].
  - cbn. lia.
  - rewrite IH. lia.
Qed.

Lemma zrange_NoDup (n : nat) : forall a, NoDup (zrange a n).
Proof.
  induction n as [|n IH]; intros a; cbn [zrange]; constructor.
  - rewrite zrange_In. lia.
  - apply IH.
Qed.

(** ** The resting map *)

Lemma Dict_set_keys {V : Type} (k : Z) (v : V) (d : Dict.t V) :
  forall x, In x (map fst (Dict.set k v d)) <-> x = k \/ In x (map fst d).
Proof.
  induction d as [|[k' v'] d IH]; intros x; cbn [Dict.set map fst In].
  - intuition.
  - destruct (Z.eqb_spec k' k) as [->|Hne]; cbn [map fst In].
    + intuition.
    + rewrite IH. intuition.
Qed.

Lemma Dict_set_wf {V : Type} (k : Z) (v : V) (d : Dict.t V) :
  Dict.wf d -> Dict.wf (Dict.set k v d).
Proof.
  induction d as [|[k' v'] d IH]; intros Hwf; cbn [Dict.set].
  - reflexivity.
  - apply Dict_wf_cons in Hwf. destruct Hwf as [Hk Hwf].
    destruct (Z.eqb_spec k' k) as [->|Hne]; apply Dict_wf_cons.
    + split; assumption.
    + split; [|apply IH; assumption].
      rewrite Dict_set_keys. intros [->|H]; [apply Hne; reflexivity|auto].
Qed.

Lemma Dict_set_length {V : Type} (k : Z) (v : V) (d : Dict.t V) :
  (length (Dict.set k v d) <= S (length d))%nat.
Proof.
  induction d as [|[k' v'] d IH]; cbn [Dict.set length]; [lia|].
  destruct (k' =? k); cbn [length]; lia.
Qed.

Lemma Dict_pop_Ok {V : Type} (k : Z) (d : Dict.t V) :
  Dict.mem k d = true ->
  exists d', Dict.pop k d = Ok d'
             /\ (length d' <= length d)%nat
             /\ (forall x, In x (map fst d') -> In x (map fst d))
             /\ (Dict.wf d -> Dict.wf d').
Proof.
  induction d as [|[k' v'] d IH]; intros Hmem; [discriminate|].
  cbn [Dict.mem existsb fst] in Hmem. cbn [Dict.pop].
  destruct (Z.eqb_spec k' k) as [->|Hne].
  - exists d. repeat split.
    + cbn [length]. lia.
    + intros x Hx. right. exact Hx.
    + intros Hwf. apply Dict_wf_cons in Hwf. apply Hwf.
  - cbn [orb] in Hmem. destruct (IH Hmem) as (d' & Hpop & Hlen & Hkeys & Hwf').
    rewrite Hpop. cbn [bind]. eexists. split; [reflexivity|]. repeat split.
    + cbn [length]. lia.
    + intros x [Hx|Hx]; [left; exact Hx|right; apply Hkeys; exact Hx].
    + intros Hwf. apply Dict_wf_cons in Hwf. destruct Hwf as [Hk Hwf].
      apply Dict_wf_cons. split; [|apply Hwf'; exact Hwf].
      intros Hin. apply Hk. apply Hkeys. exact Hin.
Qed.

Lemma Dict_filter_wf {V : Type} (f : Z * V -> bool) (d : Dict.t V) :
  Dict.wf d -> Dict.wf (filter f d).
Proof.
  induction d as [|[k v] d IH]; intros Hwf; [reflexivity|].
  apply Dict_wf_cons in Hwf. destruct Hwf as [Hk Hwf]. cbn [filter].
  destruct (f (k, v)); [|apply IH; assumption].
  apply Dict_wf_cons. split; [|apply IH; assumption].
  intros Hin. apply Hk. apply in_map_iff in Hin.
  destruct Hin as [kv [Hfst Hin]]. apply filter_In in Hin.
  rewrite <- Hfst. apply in_map. apply Hin.
Qed.

Lemma maker_trades_length (s : Sim.t) (m : MdUpdate.t)
      (items : list (Z * Order.t)) :
  forall tid,
    (length (maker_trades s m tid items)
     + length (filter (still_resting s) items) = length items)%nat.
Proof.
  induction items as [|[k o] items IH]; intros tid; [reflexivity|].
  cbn [maker_trades filter]. unfold still_resting at 1. cbn [snd].
  destruct (passive_venue s o); cbn [length].
  - rewrite <- (IH (tid + 1)). lia.
  - rewrite <- (IH tid). lia.
Qed.

(** ** Effects of the pieces of an iteration *)

Lemma replay_best_app (start : ext * ext) (l1 l2 : list MdUpdate.t) :
  replay_best start (l1 ++ l2) = replay_best (replay_best start l1) l2.
Proof. unfold replay_best. apply fold_left_app. Qed.

Lemma effect_refl (s : Sim.t) : effect s s [] [] [].
Proof.
  constructor; cbn [app map length zrange replay_best fold_left];
    rewrite ?app_nil_r, ?Z.add_0_r; auto with arith.
Qed.

Lemma effect_trans (s1 s2 s3 : Sim.t) mds1 mds2 acts1 acts2 ts1 ts2 :
  effect s1 s2 mds1 acts1 ts1 ->
  effect s2 s3 mds2 acts2 ts2 ->
  effect s1 s3 (mds1 ++ mds2) (acts1 ++ acts2) (ts1 ++ ts2).
Proof.
  intros [A1 B1 C1 D1 E1 F1 G1 H1 [I1 J1]] [A2 B2 C2 D2 E2 F2 G2 H2 [I2 J2]].
  constructor.
  - rewrite A1, A2, app_assoc. reflexivity.
  - rewrite B1, B2, app_assoc. reflexivity.
  - rewrite replay_best_app, <- C1, C2. reflexivity.
  - rewrite D2, D1, !map_app, <- !app_assoc.
    apply Permutation_app_head.
    rewrite !app_assoc. apply Permutation_app_tail.
    rewrite <- !app_assoc. apply Permutation_app_head.
    apply Permutation_app_comm.
  - auto.
  - rewrite map_app, F1, F2, G1, length_app, zrange_app. reflexivity.
  - rewrite G2, G1, length_app, Nat2Z.inj_add. lia.
  - rewrite !length_app. lia.
  - split; congruence.
Qed.

Lemma effect_after_md (s : Sim.t) (m : MdUpdate.t) (rest : list MdUpdate.t) :
  Sim.md_queue s = m :: rest ->
  effect s (after_md (Sim.set_md_queue s rest) m) [m] [] [].
Proof.
  intros Hq.
  destruct (after_md_fields (Sim.set_md_queue s rest) m)
    as (A & B & C & D & E & F & G & _ & I & J & _).
  destruct (set_md_queue_fields s rest)
    as (A' & B' & C' & D' & E' & F' & G' & _ & I' & J').
  constructor.
  - rewrite A, A', Hq. reflexivity.
  - rewrite after_md_actions_queue, B'. reflexivity.
  - rewrite I, J, I', J'. cbn [replay_best fold_left fst snd].
    destruct (update_best_positions _ _ m); reflexivity.
  - rewrite B, C'. cbn [map app]. rewrite ?app_nil_r. apply push_contents.
  - rewrite B, C'. intros Hk. apply (push_keyed (UMd m)). exact Hk.
  - reflexivity.
  - rewrite E, E'. cbn [length]. lia.
  - rewrite B, C, C', D'. cbn [length].
    pose proof (push_keys_length (MdUpdate.receive_ts m) (UMd m)
                  (Sim.strategy_updates_queue s)).
    lia.
  - rewrite F, G, F', G'. split; reflexivity.
Qed.

Lemma effect_delete_last_trade (s : Sim.t) :
  effect s (Sim.delete_last_trade s) [] [] [].
Proof.
  destruct s. sim_simpl.
  constructor; sim_simpl; cbn [app map length zrange replay_best fold_left];
    rewrite ?app_nil_r, ?Z.add_0_r; auto with arith.
Qed.

Lemma effect_with_trades (s : Sim.t) (ts : list OwnTrade.t)
      (d : Dict.t Order.t) (n : nat) :
  map OwnTrade.trade_id ts = zrange (Sim.trade_id s) (length ts) ->
  (length ts + length d <= length (Sim.ready_to_execute_orders s) + n)%nat ->
  forall acts rest,
    Sim.actions_queue s = rest ->
    length acts = n ->
    effect (Sim.set_actions_queue s (acts ++ rest))
           (Sim.set_ready_to_execute_orders (with_trades s ts) d) [] acts ts.
Proof.
  intros Hids Hlen acts rest Hrest Hn. destruct s. sim_simpl. subst.
  constructor; sim_simpl; cbn [app map length zrange replay_best fold_left];
    rewrite ?app_nil_r; auto.
  - apply push_trades_contents.
  - apply push_trades_keyed.
  - pose proof (push_trades_keys_length ts strategy_updates_queue). lia.
Qed.

Lemma not_marketable_before_md (s : Sim.t) (o : Order.t) :
  Sim.best_bid s = NegInf -> Sim.best_ask s = PosInf -> marketable s o = false.
Proof.
  intros Hb Ha. unfold marketable. rewrite Hb, Ha.
  destruct (Order.side o); [reflexivity|apply Ext_ltb_NegInf_r].
Qed.

Ltac effect_fields :=
  constructor; sim_simpl;
  cbn [app map length zrange replay_best fold_left fst snd
       taker_trade OwnTrade.trade_id];
  rewrite ?app_nil_r, ?Z.add_0_r; auto with arith.

(** An action is popped and applied and the pending order is resolved. *)
Lemma action_step (s : Sim.t) (a : Action) (rest : list Action) :
  coherent s ->
  Sim.last_order s = None ->
  Sim.actions_queue s = a :: rest ->
  exists s' trades,
    (s1 <- Sim.update_action (Sim.set_actions_queue s rest) a ;;
     Sim.execute_last_order s1) = Ok s'
    /\ effect s s' [] [a] trades
    /\ coherent s'
    /\ Sim.last_order s' = None
    /\ same_market s s'.
Proof.
  intros [Hwf Hinf] Hlast Hq.
  destruct s as [mq aq q ready cur oid tid lat mdl bb ba tb ta lo].
  sim_simpl. subst.
  destruct a as [o|c]; cbn [Sim.update_action bind].
  - unfold Sim.execute_last_order. sim_simpl.
    rewrite aggressive_price_marketable.
    destruct (marketable _ o) eqn:Hm.
    + destruct (Order.type o).
      * destruct cur as [m|].
        -- cbn [Sim.current_md Sim.md bind]. sim_simpl.
           match goal with
           | |- context [UTrade ?t] => eexists; exists [t]
           end.
           split; [reflexivity|].
           split; [|repeat split; sim_simpl; try assumption; discriminate].
           effect_fields.
           ++ apply push_contents.
           ++ intros Hk.
              match goal with
              | |- context [PriorQueue.push _ ?u _] => exact (push_keyed u Hk)
              end.
           ++ match goal with
              | |- context [PriorQueue.push ?k ?u ?q0] =>
                  pose proof (push_keys_length k u q0)
              end.
              lia.
        -- destruct (Hinf eq_refl) as [-> ->].
           rewrite not_marketable_before_md in Hm by reflexivity.
           discriminate.
      * cbn [bind]. sim_simpl. eexists. exists []. split; [reflexivity|].
        split; [|repeat split; sim_simpl; try assumption;
                 apply Hinf; assumption].
        effect_fields.
    + cbn [bind]. sim_simpl. eexists. exists []. split; [reflexivity|].
      split; [|repeat split; sim_simpl; try assumption;
               try (apply Dict_set_wf; assumption); apply Hinf; assumption].
      effect_fields.
      pose proof (Dict_set_length (Order.order_id o) o ready). lia.
  - sim_simpl.
    destruct (Dict.mem (CancelOrder.id_to_delete c) ready) eqn:Hmem.
    + destruct (Dict_pop_Ok _ _ Hmem) as (d' & Hpop & Hlen & _ & Hwf').
      rewrite Hpop. cbn [bind]. sim_simpl. unfold Sim.execute_last_order.
      sim_simpl. eexists. exists []. split; [reflexivity|].
      split; [|repeat split; sim_simpl; auto; apply Hinf; assumption].
      effect_fields; lia.
    + cbn [bind]. unfold Sim.execute_last_order. sim_simpl.
      eexists. exists []. split; [reflexivity|].
      split; [|repeat split; sim_simpl; auto; apply Hinf; assumption].
      effect_fields.
Qed.

Lemma set_actions_queue_same (s : Sim.t) :
  Sim.set_actions_queue s ([] ++ Sim.actions_queue s) = s.
Proof. destruct s; reflexivity. Qed.

(** The passive pass. *)
Lemma orders_step (s : Sim.t) (m : MdUpdate.t) :
  coherent s ->
  Sim.md s = Some m ->
  exists s' trades,
    Sim.execute_orders s = Ok s'
    /\ effect s s' [] [] trades
    /\ coherent s'
    /\ Sim.last_order s' = Sim.last_order s
    /\ same_market s s'.
Proof.
  intros [Hwf Hinf] Hmd.
  exists (Sim.set_ready_to_execute_orders
            (with_trades s
               (maker_trades s m (Sim.trade_id s) (Sim.ready_to_execute_orders s)))
            (filter (still_resting s) (Sim.ready_to_execute_orders s))).
  eexists. split; [apply execute_orders_eq; assumption|].
  split.
  - rewrite <- (set_actions_queue_same s) at 1.
    apply effect_with_trades with (n := 0%nat).
    + apply maker_trades_trade_ids.
    + rewrite maker_trades_length. lia.
    + reflexivity.
    + reflexivity.
  - destruct s. sim_simpl. repeat split; sim_simpl; auto.
    + apply Dict_filter_wf. assumption.
    + subst. discriminate.
    + subst. discriminate.
Qed.

Lemma after_md_facts (s : Sim.t) (m : MdUpdate.t) (mq : list MdUpdate.t) :
  Dict.wf (Sim.ready_to_execute_orders s) ->
  let s1 := after_md (Sim.set_md_queue s mq) m in
  coherent s1 /\ Sim.md s1 = Some m /\ Sim.last_order s1 = Sim.last_order s
  /\ Sim.actions_queue s1 = Sim.actions_queue s.
Proof.
  intros Hwf s1. subst s1.
  destruct (after_md_fields (Sim.set_md_queue s mq) m)
    as (_ & _ & C & D & _ & _ & _ & H & _).
  destruct (set_md_queue_fields s mq) as (_ & B' & _ & D' & _ & _ & _ & H' & _).
  repeat apply conj.
  - rewrite C, D'. exact Hwf.
  - rewrite D. discriminate.
  - exact D.
  - rewrite H, H'. reflexivity.
  - rewrite after_md_actions_queue, B'. reflexivity.
Qed.

Lemma delete_last_trade_facts (s : Sim.t) :
  coherent s -> Sim.last_order s = None -> settled (Sim.delete_last_trade s).
Proof.
  intros [Hwf Hinf] Hlast. destruct s. sim_simpl.
  repeat split; sim_simpl; auto; apply Hinf; assumption.
Qed.

Lemma settled_coherent (s : Sim.t) : settled s -> coherent s.
Proof. intros (_ & _ & _ & Hinf & Hwf). split; assumption. Qed.

(** One iteration from a settled state: it breaks, or it consumes at least
    one input and leaves a settled state. *)
Lemma tick_body_step (s : Sim.t) :
  settled s ->
  (select s = SelStop /\ Sim.tick_body s = Ok Sim.Break)
  \/ exists s' mds acts trades,
       Sim.tick_body s = Ok (Sim.Continue s')
       /\ effect s s' mds acts trades
       /\ (1 <= length mds + length acts)%nat
       /\ (length mds <= 1)%nat
       /\ settled s'.
Proof.
  intros Hs. pose proof (settled_coherent Hs) as Hc.
  destruct Hs as (Hlast & _ & _ & _ & Hwf).
  rewrite tick_body_perform.
  destruct (select s) as [|m|a|m a] eqn:Hsel; cbn [perform].
  - left. split; reflexivity.
  - right.
    destruct (@select_md s m (or_intror Hsel)) as [mq [Hq _]].
    rewrite Hq. cbn [tl]. rewrite update_md_eq. cbn [bind].
    destruct (after_md_facts s m mq Hwf) as (Hc1 & Hmd1 & Hlast1 & _).
    destruct (orders_step Hc1 Hmd1) as (s2 & ts & -> & He2 & Hc2 & Hlast2 & _).
    cbn [bind]. eexists. eexists. eexists. eexists.
    split; [reflexivity|]. split.
    + eapply effect_trans; [apply (effect_after_md s Hq)|].
      eapply effect_trans; [exact He2|apply effect_delete_last_trade].
    + cbn [app length]. split; [lia|]. split; [lia|].
      apply delete_last_trade_facts; [assumption|congruence].
  - right.
    destruct (@select_action s a (or_intror Hsel)) as [aq [Hq _]].
    rewrite Hq. cbn [tl].
    destruct (action_step Hc Hlast Hq) as (s1 & ts & H1 & He1 & Hc1 & Hlast1 & _).
    apply bind_Ok_inv in H1. destruct H1 as (s0 & H0 & H1).
    rewrite H0. cbn [bind]. rewrite H1. cbn [bind].
    eexists. eexists. eexists. eexists.
    split; [reflexivity|]. split.
    + eapply effect_trans; [exact He1|apply effect_delete_last_trade].
    + cbn [app length]. split; [lia|]. split; [lia|].
      apply delete_last_trade_facts; assumption.
  - right.
    destruct (@select_md s m (or_introl (ex_intro _ a Hsel))) as [mq [Hq _]].
    destruct (@select_action s a (or_introl (ex_intro _ m Hsel))) as [aq [Hqa _]].
    rewrite Hq. cbn [tl]. rewrite update_md_eq. cbn [bind].
    destruct (after_md_facts s m mq Hwf) as (Hc1 & Hmd1 & Hlast1 & Hact1).
    rewrite Hact1, Hqa. cbn [tl].
    assert (Hqa1 : Sim.actions_queue (after_md (Sim.set_md_queue s mq) m) = a :: aq)
      by congruence.
    rewrite Hlast in Hlast1.
    destruct (action_step Hc1 Hlast1 Hqa1)
      as (s2 & ts2 & H2 & He2 & Hc2 & Hlast2 & Hsame2).
    apply bind_Ok_inv in H2. destruct H2 as (s0 & H0 & H2).
    rewrite H0. cbn [bind]. rewrite H2. cbn [bind].
    assert (Hmd2 : Sim.md s2 = Some m)
      by (destruct Hsame2 as (_ & _ & _ & _ & Hmd & _); congruence).
    destruct (orders_step Hc2 Hmd2) as (s3 & ts3 & -> & He3 & Hc3 & Hlast3 & _).
    cbn [bind]. eexists. eexists. eexists. eexists.
    split; [reflexivity|]. split.
    + eapply effect_trans; [apply (effect_after_md s Hq)|].
      eapply effect_trans; [exact He2|].
      eapply effect_trans; [exact He3|apply effect_delete_last_trade].
    + cbn [app length]. split; [lia|]. split; [lia|].
      apply delete_last_trade_facts; [assumption|congruence].
Qed.

Lemma init_settled (market_data : list MdUpdate.t) (lat mdl : Z) :
  settled (Sim.init market_data lat mdl).
Proof. repeat split. Qed.

Lemma place_order_settled (s : Sim.t) ts size side price order_type :
  settled s -> settled (snd (Sim.place_order s ts size side price order_type)).
Proof.
  intros (H1 & H2 & H3 & H4 & H5). destruct s. unfold Sim.place_order.
  sim_simpl. repeat split; sim_simpl; auto; apply H4; assumption.
Qed.

Lemma cancel_order_settled (s : Sim.t) ts id_to_delete :
  settled s -> settled (snd (Sim.cancel_order s ts id_to_delete)).
Proof.
  intros (H1 & H2 & H3 & H4 & H5). destruct s. unfold Sim.cancel_order.
  sim_simpl. repeat split; sim_simpl; auto; apply H4; assumption.
Qed.

Lemma pop_settled (s : Sim.t) (q : PriorQueue.t Update) :
  settled s -> settled (Sim.set_strategy_updates_queue s q).
Proof.
  intros (H1 & H2 & H3 & H4 & H5). destruct s.
  sim_simpl. repeat split; sim_simpl; auto; apply H4; assumption.
Qed.

Lemma reachable_settled market_data lat mdl (s : Sim.t) :
  reachable market_data lat mdl s -> settled s.
Proof.
  induction 1 as [| | |s s' _ IH Hstep|].
  - apply init_settled.
  - apply place_order_settled. assumption.
  - apply cancel_order_settled. assumption.
  - destruct (tick_body_step IH) as [[_ Hb]|(s2 & ? & ? & ? & Hb & _ & _ & _ & Hs')].
    + rewrite Hb in Hstep. discriminate.
    + rewrite Hb in Hstep. injection Hstep as <-. exact Hs'.
  - apply pop_settled. assumption.
Qed.

(** ** Frames of the two ways of applying an action *)

Lemma execute_last_order_None (s : Sim.t) :
  Sim.last_order s = None -> Sim.execute_last_order s = Ok s.
Proof. intros H. unfold Sim.execute_last_order. rewrite H. reflexivity. Qed.

Lemma update_action_same_market (s s' : Sim.t) (a : Action) :
  Sim.update_action s a = Ok s' -> same_market s s'.
Proof.
  destruct a as [o|c]; cbn [Sim.update_action].
  - intros H. injection H as <-. destruct s; repeat split.
  - destruct (Dict.mem _ _).
    + destruct (Dict.pop _ _); cbn [bind]; intros H; [|discriminate].
      injection H as <-. destruct s; repeat split.
    + intros H. injection H as <-. repeat split.
Qed.

Lemma execute_last_order_same_market (s s' : Sim.t) :
  Sim.execute_last_order s = Ok s' -> same_market s s'.
Proof.
  unfold Sim.execute_last_order.
  destruct (Sim.last_order s) as [o|]; [|intros H; injection H as <-; repeat split].
  destruct (Sim.aggressive_price s o).
  - destruct (Order.type o).
    + destruct (Sim.current_md s); cbn [bind]; intros H; [|discriminate].
      injection H as <-. destruct s; repeat split.
    + cbn [bind]. intros H. injection H as <-. destruct s; repeat split.
  - cbn [bind]. intros H. injection H as <-. destruct s; repeat split.
Qed.

Lemma same_market_trans (s1 s2 s3 : Sim.t) :
  same_market s1 s2 -> same_market s2 s3 -> same_market s1 s3.
Proof.
  unfold same_market. intros (A1 & B1 & C1 & D1 & E1 & F1) (A2 & B2 & C2 & D2 & E2 & F2).
  repeat split; congruence.
Qed.

Lemma after_md_trade_prices (s : Sim.t) (m : MdUpdate.t) :
  Sim.trade_price_BID (after_md s m)
  = match MdUpdate.trade m with
    | Some tr =>
        match AnonTrade.side tr with
        | BID => AnonTrade.price tr
        | ASK => Sim.trade_price_BID s
        end
    | None => Sim.trade_price_BID s
    end
  /\ Sim.trade_price_ASK (after_md s m)
     = match MdUpdate.trade m with
       | Some tr =>
           match AnonTrade.side tr with
           | BID => Sim.trade_price_ASK s
           | ASK => AnonTrade.price tr
           end
       | None => Sim.trade_price_ASK s
       end.
Proof.
  unfold after_md. destruct s. cbn.
  destruct (MdUpdate.trade m) as [tr|]; [|split; reflexivity].
  cbn. destruct (AnonTrade.side tr); split; reflexivity.
Qed.

Lemma set_md_queue_trade_prices (s : Sim.t) (mq : list MdUpdate.t) :
  Sim.trade_price_BID (Sim.set_md_queue s mq) = Sim.trade_price_BID s
  /\ Sim.trade_price_ASK (Sim.set_md_queue s mq) = Sim.trade_price_ASK s.
Proof. destruct s. split; reflexivity. Qed.

Lemma delete_last_trade_frame (s : Sim.t) :
  Sim.ready_to_execute_orders (Sim.delete_last_trade s)
  = Sim.ready_to_execute_orders s
  /\ Sim.strategy_updates_queue (Sim.delete_last_trade s)
     = Sim.strategy_updates_queue s
  /\ Sim.trade_id (Sim.delete_last_trade s) = Sim.trade_id s
  /\ Sim.trade_price_BID (Sim.delete_last_trade s) = NegInf
  /\ Sim.trade_price_ASK (Sim.delete_last_trade s) = PosInf.
Proof. destruct s. repeat apply conj; reflexivity. Qed.

(** What a passive pass followed by the reset of the last trade prices
    leaves, read off the returned state. *)
Lemma passive_then_delete (s2 : Sim.t) (m : MdUpdate.t) :
  Dict.wf (Sim.ready_to_execute_orders s2) ->
  Sim.md s2 = Some m ->
  exists s4,
    Sim.execute_orders s2 = Ok s4
    /\ Sim.ready_to_execute_orders (Sim.delete_last_trade s4)
       = filter (still_resting s2) (Sim.ready_to_execute_orders s2)
    /\ (forall k o,
          In (k, o) (Sim.ready_to_execute_orders s2) ->
          match passive_venue s2 o with
          | Some v =>
              ~ In (k, o) (Sim.ready_to_execute_orders (Sim.delete_last_trade s4))
              /\ exists tid,
                   In (UTrade (maker_trade s2 m tid k o v))
                      (PriorQueue.contents
                         (Sim.strategy_updates_queue (Sim.delete_last_trade s4)))
          | None =>
              In (k, o) (Sim.ready_to_execute_orders (Sim.delete_last_trade s4))
          end)
    /\ Permutation
         (PriorQueue.contents
            (Sim.strategy_updates_queue (Sim.delete_last_trade s4)))
         (PriorQueue.contents (Sim.strategy_updates_queue s2)
            ++ map UTrade
                 (maker_trades s2 m (Sim.trade_id s2)
                    (Sim.ready_to_execute_orders s2)))
    /\ Sim.trade_id (Sim.delete_last_trade s4)
       = Sim.trade_id s2
         + Z.of_nat
             (length (maker_trades s2 m (Sim.trade_id s2)
                        (Sim.ready_to_execute_orders s2)))
    /\ Sim.trade_price_BID (Sim.delete_last_trade s4) = NegInf
    /\ Sim.trade_price_ASK (Sim.delete_last_trade s4) = PosInf.
Proof.
  intros Hwf Hmd.
  set (trades := maker_trades s2 m (Sim.trade_id s2)
                   (Sim.ready_to_execute_orders s2)).
  destruct (passive_pass_fields s2 trades
              (filter (still_resting s2) (Sim.ready_to_execute_orders s2)))
    as (Hready & Hqueue & Htid & _).
  set (s4 := Sim.set_ready_to_execute_orders (with_trades s2 trades)
               (filter (still_resting s2) (Sim.ready_to_execute_orders s2)))
    in *.
  destruct (delete_last_trade_frame s4) as (Dr & Dq & Dt & Db & Da).
  exists s4. split; [apply execute_orders_eq; assumption|].
  rewrite Dr, Dq, Dt, Hready, Hqueue, Htid.
  assert (Hperm : Permutation
                    (PriorQueue.contents
                       (push_trades (Sim.strategy_updates_queue s2) trades))
                    (PriorQueue.contents (Sim.strategy_updates_queue s2)
                       ++ map UTrade trades))
    by apply push_trades_contents.
  split; [reflexivity|]. split; [|split; [exact Hperm|]].
  - intros k o Hin. destruct (passive_venue s2 o) as [v|] eqn:Hv.
    + split.
      * intros Hf. apply filter_In in Hf. destruct Hf as [_ Hf].
        unfold still_resting in Hf. cbn [snd] in Hf. rewrite Hv in Hf.
        discriminate.
      * destruct (@maker_trades_complete s2 m _ k o v (Sim.trade_id s2) Hin Hv)
          as [tid Ht].
        exists tid. apply (Permutation_in _ (Permutation_sym Hperm)).
        apply in_or_app. right. apply (in_map UTrade) in Ht. exact Ht.
    + apply filter_In. split; [exact Hin|].
      unfold still_resting. cbn [snd]. rewrite Hv. reflexivity.
  - split; [reflexivity|]. split; [exact Db|exact Da].
Qed.

(** What applying a place action and resolving it aggressively leaves,
    read off the returned state [s2]; [s0] is the state before. *)
Lemma place_resolution (s0 : Sim.t) (o : Order.t) (rest : list Action)
      (s2 : Sim.t) :
  (sa <- Sim.update_action (Sim.set_actions_queue s0 rest) (APlace o) ;;
   Sim.execute_last_order sa) = Ok s2 ->
  (marketable s0 o = true -> Order.type o = LIMIT ->
   forall m0, Sim.md s0 = Some m0 ->
     Sim.strategy_updates_queue s2
     = PriorQueue.push (MdUpdate.exchange_ts m0 + Sim.md_latency s0)
         (UTrade
            (OwnTrade.mk (Order.place_ts o) (MdUpdate.exchange_ts m0)
               (MdUpdate.exchange_ts m0 + Sim.md_latency s0) (Sim.trade_id s0)
               (Order.order_id o) (Order.side o) (Order.size o)
               (touch s0 o) TAKER BOOK))
         (Sim.strategy_updates_queue s0)
     /\ Sim.trade_id s2 = Sim.trade_id s0 + 1
     /\ Sim.ready_to_execute_orders s2 = Sim.ready_to_execute_orders s0)
  /\ (marketable s0 o = true -> Order.type o = POST_ONLY ->
      Sim.strategy_updates_queue s2 = Sim.strategy_updates_queue s0
      /\ Sim.trade_id s2 = Sim.trade_id s0
      /\ Sim.ready_to_execute_orders s2 = Sim.ready_to_execute_orders s0)
  /\ (marketable s0 o = false ->
      Sim.strategy_updates_queue s2 = Sim.strategy_updates_queue s0
      /\ Sim.trade_id s2 = Sim.trade_id s0
      /\ Sim.ready_to_execute_orders s2
         = Dict.set (Order.order_id o) o (Sim.ready_to_execute_orders s0)).
Proof.
  cbn [Sim.update_action bind]. unfold Sim.execute_last_order.
  replace (Sim.last_order
             (Sim.set_last_order (Sim.set_actions_queue s0 rest) (Some o)))
    with (Some o) by (destruct s0; reflexivity).
  rewrite aggressive_price_marketable.
  replace (marketable
             (Sim.set_last_order (Sim.set_actions_queue s0 rest) (Some o)) o)
    with (marketable s0 o) by (destruct s0; reflexivity).
  replace (touch (Sim.set_last_order (Sim.set_actions_queue s0 rest) (Some o)) o)
    with (touch s0 o) by (destruct s0; reflexivity).
  unfold Sim.current_md.
  replace (Sim.md (Sim.set_last_order (Sim.set_actions_queue s0 rest) (Some o)))
    with (Sim.md s0) by (destruct s0; reflexivity).
  intros H. split; [|split].
  - intros Hm Hty m0 Hmd. rewrite Hm, Hty, Hmd in H. cbn [bind] in H.
    injection H as <-. destruct s0; repeat apply conj; reflexivity.
  - intros Hm Hty. rewrite Hm, Hty in H. cbn [bind] in H.
    injection H as <-. destruct s0; repeat apply conj; reflexivity.
  - intros Hm. rewrite Hm in H. cbn [bind] in H.
    injection H as <-. destruct s0; repeat apply conj; reflexivity.
Qed.

(** C2. Between two iterations no order is pending.  An iteration that pops
    a market-data update applies it, then the action of the same timestamp
    if there is one, resolves the pending order aggressively, and then
    makes a passive pass over the whole resting map.  Aggressive resolution
    shows on the state it returns: a placed order that is marketable
    against the prices of this update has, if it is LIMIT, its TAKER trade
    pushed on the queue, and is dropped if it is POST_ONLY; one that is not
    marketable is set in the resting map; the pending slot is empty again.
    The passive pass shows on the state the iteration returns: the resting
    map is the map left by the aggressive resolution without the orders
    that fill against the best bid and ask and the last trade prices of
    this very update, every such order has its MAKER trade in the queue,
    and every other order still rests.  When the update is popped alone
    nothing is pending, and aggressive resolution leaves the state as the
    update left it.  An iteration that pops only an action resolves the
    order aggressively, with the same three outcomes, and makes no passive
    pass: the resting map, the queue and the trade counter of the returned
    state are those left by the aggressive resolution, and this in whatever
    state, also one in which a resting order is marketable. *)
Theorem iteration_runs_matching market_data lat mdl (s : Sim.t) :
  reachable market_data lat mdl s ->
  Sim.last_order s = None
  /\ (forall m, select s = SelMd m ->
        Sim.tick_body s = (s' <- md_iteration s m None ;; Ok (Sim.Continue s')))
  /\ (forall m a, select s = SelBoth m a ->
        Sim.tick_body s
        = (s' <- md_iteration s m (Some a) ;; Ok (Sim.Continue s')))
  /\ (forall a, select s = SelAction a ->
        Sim.tick_body s = (s' <- action_iteration s a ;; Ok (Sim.Continue s')))
  /\ (forall m tie,
        select s = match tie with
                   | Some a => SelBoth m a
                   | None => SelMd m
                   end ->
        let s1 := after_md (Sim.set_md_queue s (tl (Sim.md_queue s))) m in
        exists s2 s',
          Sim.update_md (Sim.set_md_queue s (tl (Sim.md_queue s))) m = Ok s1
          /\ (sa <- match tie with
                    | Some a =>
                        Sim.update_action
                          (Sim.set_actions_queue s1 (tl (Sim.actions_queue s1)))
                          a
                    | None => Ok s1
                    end ;;
              Sim.execute_last_order sa) = Ok s2
          /\ (tie = None -> s2 = s1)
          /\ Sim.strategy_updates_queue s1
             = PriorQueue.push (MdUpdate.receive_ts m) (UMd m)
                 (Sim.strategy_updates_queue s)
          /\ Sim.ready_to_execute_orders s1 = Sim.ready_to_execute_orders s
          /\ Sim.trade_id s1 = Sim.trade_id s
          /\ Sim.md_latency s1 = Sim.md_latency s
          /\ (forall o, tie = Some (APlace o) ->
                (marketable s1 o = true -> Order.type o = LIMIT ->
                 Sim.strategy_updates_queue s2
                 = PriorQueue.push (MdUpdate.exchange_ts m + Sim.md_latency s1)
                     (UTrade
                        (OwnTrade.mk (Order.place_ts o) (MdUpdate.exchange_ts m)
                           (MdUpdate.exchange_ts m + Sim.md_latency s1)
                           (Sim.trade_id s1) (Order.order_id o) (Order.side o)
                           (Order.size o) (touch s1 o) TAKER BOOK))
                     (Sim.strategy_updates_queue s1)
                 /\ Sim.trade_id s2 = Sim.trade_id s1 + 1
                 /\ Sim.ready_to_execute_orders s2
                    = Sim.ready_to_execute_orders s1)
                /\ (marketable s1 o = true -> Order.type o = POST_ONLY ->
                    Sim.strategy_updates_queue s2 = Sim.strategy_updates_queue s1
                    /\ Sim.trade_id s2 = Sim.trade_id s1
                    /\ Sim.ready_to_execute_orders s2
                       = Sim.ready_to_execute_orders s1)
                /\ (marketable s1 o = false ->
                    Sim.strategy_updates_queue s2 = Sim.strategy_updates_queue s1
                    /\ Sim.trade_id s2 = Sim.trade_id s1
                    /\ Sim.ready_to_execute_orders s2
                       = Dict.set (Order.order_id o) o
                           (Sim.ready_to_execute_orders s1)))
          /\ Sim.last_order s2 = None
          /\ (Sim.best_bid s2, Sim.best_ask s2)
             = update_best_positions (Sim.best_bid s) (Sim.best_ask s) m
          /\ Sim.trade_price_BID s2
             = match MdUpdate.trade m with
               | Some tr =>
                   match AnonTrade.side tr with
                   | BID => AnonTrade.price tr
                   | ASK => NegInf
                   end
               | None => NegInf
               end
          /\ Sim.trade_price_ASK s2
             = match MdUpdate.trade m with
               | Some tr =>
                   match AnonTrade.side tr with
                   | BID => PosInf
                   | ASK => AnonTrade.price tr
                   end
               | None => PosInf
               end
          /\ Sim.md s2 = Some m
          /\ Sim.tick_body s = Ok (Sim.Continue s')
          /\ Sim.ready_to_execute_orders s'
             = filter (still_resting s2) (Sim.ready_to_execute_orders s2)
          /\ (forall k o,
                In (k, o) (Sim.ready_to_execute_orders s2) ->
                match passive_venue s2 o with
                | Some v =>
                    ~ In (k, o) (Sim.ready_to_execute_orders s')
                    /\ exists tid,
                         In (UTrade
                               (OwnTrade.mk (Order.place_ts o)
                                  (MdUpdate.exchange_ts m)
                                  (MdUpdate.exchange_ts m + Sim.md_latency s)
                                  tid k (Order.side o) (Order.size o)
                                  (Order.price o) MAKER v))
                            (PriorQueue.contents (Sim.strategy_updates_queue s'))
                | None => In (k, o) (Sim.ready_to_execute_orders s')
                end)
          /\ Permutation
               (PriorQueue.contents (Sim.strategy_updates_queue s'))
               (PriorQueue.contents (Sim.strategy_updates_queue s2)
                  ++ map UTrade
                       (maker_trades s2 m (Sim.trade_id s2)
                          (Sim.ready_to_execute_orders s2)))
          /\ Sim.trade_id s'
             = Sim.trade_id s2
               + Z.of_nat
                   (length (maker_trades s2 m (Sim.trade_id s2)
                              (Sim.ready_to_execute_orders s2)))
          /\ Sim.trade_price_BID s' = NegInf
          /\ Sim.trade_price_ASK s' = PosInf)
  /\ (forall a, select s = SelAction a ->
        exists s2 s',
          (sa <- Sim.update_action
                   (Sim.set_actions_queue s (tl (Sim.actions_queue s))) a ;;
           Sim.execute_last_order sa) = Ok s2
          /\ Sim.last_order s2 = None
          /\ (forall o, a = APlace o ->
                (marketable s o = true -> Order.type o = LIMIT ->
                 forall m0, Sim.md s = Some m0 ->
                   Sim.strategy_updates_queue s2
                   = PriorQueue.push (MdUpdate.exchange_ts m0 + Sim.md_latency s)
                       (UTrade
                          (OwnTrade.mk (Order.place_ts o)
                             (MdUpdate.exchange_ts m0)
                             (MdUpdate.exchange_ts m0 + Sim.md_latency s)
                             (Sim.trade_id s) (Order.order_id o) (Order.side o)
                             (Order.size o) (touch s o) TAKER BOOK))
                       (Sim.strategy_updates_queue s)
                   /\ Sim.trade_id s2 = Sim.trade_id s + 1
                   /\ Sim.ready_to_execute_orders s2
                      = Sim.ready_to_execute_orders s)
                /\ (marketable s o = true -> Order.type o = POST_ONLY ->
                    Sim.strategy_updates_queue s2 = Sim.strategy_updates_queue s
                    /\ Sim.trade_id s2 = Sim.trade_id s
                    /\ Sim.ready_to_execute_orders s2
                       = Sim.ready_to_execute_orders s)
                /\ (marketable s o = false ->
                    Sim.strategy_updates_queue s2 = Sim.strategy_updates_queue s
                    /\ Sim.trade_id s2 = Sim.trade_id s
                    /\ Sim.ready_to_execute_orders s2
                       = Dict.set (Order.order_id o) o
                           (Sim.ready_to_execute_orders s)))
          /\ Sim.tick_body s = Ok (Sim.Continue s')
          /\ Sim.ready_to_execute_orders s' = Sim.ready_to_execute_orders s2
          /\ Sim.strategy_updates_queue s' = Sim.strategy_updates_queue s2
          /\ Sim.trade_id s' = Sim.trade_id s2)
  /\ (forall s0 a s2,
        select s0 = SelAction a ->
        (sa <- Sim.update_action
                 (Sim.set_actions_queue s0 (tl (Sim.actions_queue s0))) a ;;
         Sim.execute_last_order sa) = Ok s2 ->
        exists s',
          Sim.tick_body s0 = Ok (Sim.Continue s')
          /\ Sim.ready_to_execute_orders s' = Sim.ready_to_execute_orders s2
          /\ Sim.strategy_updates_queue s' = Sim.strategy_updates_queue s2
          /\ Sim.trade_id s' = Sim.trade_id s2).
Proof.
  intros Hr. apply reachable_settled in Hr.
  pose proof (settled_coherent Hr) as Hc.
  destruct Hr as (Hlast & Htb & Hta & _ & Hwf).
  assert (Haction : forall s0 a s2,
             select s0 = SelAction a ->
             (sa <- Sim.update_action
                      (Sim.set_actions_queue s0 (tl (Sim.actions_queue s0))) a ;;
              Sim.execute_last_order sa) = Ok s2 ->
             Sim.tick_body s0 = Ok (Sim.Continue (Sim.delete_last_trade s2))).
  { intros s0 a s2 Hsel H. rewrite tick_body_perform, Hsel. cbn [perform].
    apply bind_Ok_inv in H. destruct H as (sa & Ha & Hb).
    rewrite Ha. cbn [bind]. rewrite Hb. reflexivity. }
  split; [exact Hlast|].
  split; [|split; [|split; [|split; [|split]]]].
  - intros m Hsel. rewrite tick_body_perform, Hsel.
    unfold perform, md_iteration. rewrite update_md_eq. cbn [bind].
    rewrite execute_last_order_None.
    + cbn [bind]. destruct (Sim.execute_orders _); reflexivity.
    + destruct (after_md_fields (Sim.set_md_queue s (tl (Sim.md_queue s))) m)
        as (_ & _ & _ & _ & _ & _ & _ & H & _).
      rewrite H. destruct s; exact Hlast.
  - intros m a Hsel. rewrite tick_body_perform, Hsel.
    unfold perform, md_iteration. rewrite update_md_eq. cbn [bind].
    destruct (Sim.update_action _ a); cbn [bind]; [|reflexivity].
    destruct (Sim.execute_last_order _); cbn [bind]; [|reflexivity].
    destruct (Sim.execute_orders _); reflexivity.
  - intros a Hsel. rewrite tick_body_perform, Hsel.
    unfold perform, action_iteration.
    destruct (Sim.update_action _ a); cbn [bind]; [|reflexivity].
    destruct (Sim.execute_last_order _); reflexivity.
  - intros m tie Hsel s1.
    assert (Hselmd : (exists a, select s = SelBoth m a) \/ select s = SelMd m)
      by (destruct tie as [a|];
          [left; exists a; exact Hsel|right; exact Hsel]).
    destruct (@select_md s m Hselmd) as [mq [Hq _]].
    assert (Hs1 : s1 = after_md (Sim.set_md_queue s mq) m)
      by (subst s1; rewrite Hq; reflexivity).
    destruct (after_md_facts s m mq Hwf) as (Hc1 & Hmd1 & Hlast1 & Hact1).
    rewrite <- Hs1 in Hc1, Hmd1, Hlast1, Hact1. rewrite Hlast in Hlast1.
    assert (Hstage : exists s2,
               (sa <- match tie with
                      | Some a =>
                          Sim.update_action
                            (Sim.set_actions_queue s1
                               (tl (Sim.actions_queue s1))) a
                      | None => Ok s1
                      end ;;
                Sim.execute_last_order sa) = Ok s2
               /\ (tie = None -> s2 = s1)
               /\ (forall o, tie = Some (APlace o) ->
                     (marketable s1 o = true -> Order.type o = LIMIT ->
                      Sim.strategy_updates_queue s2
                      = PriorQueue.push
                          (MdUpdate.exchange_ts m + Sim.md_latency s1)
                          (UTrade
                             (OwnTrade.mk (Order.place_ts o)
                                (MdUpdate.exchange_ts m)
                                (MdUpdate.exchange_ts m + Sim.md_latency s1)
                                (Sim.trade_id s1) (Order.order_id o)
                                (Order.side o) (Order.size o) (touch s1 o)
                                TAKER BOOK))
                          (Sim.strategy_updates_queue s1)
                      /\ Sim.trade_id s2 = Sim.trade_id s1 + 1
                      /\ Sim.ready_to_execute_orders s2
                         = Sim.ready_to_execute_orders s1)
                     /\ (marketable s1 o = true -> Order.type o = POST_ONLY ->
                         Sim.strategy_updates_queue s2
                         = Sim.strategy_updates_queue s1
                         /\ Sim.trade_id s2 = Sim.trade_id s1
                         /\ Sim.ready_to_execute_orders s2
                            = Sim.ready_to_execute_orders s1)
                     /\ (marketable s1 o = false ->
                         Sim.strategy_updates_queue s2
                         = Sim.strategy_updates_queue s1
                         /\ Sim.trade_id s2 = Sim.trade_id s1
                         /\ Sim.ready_to_execute_orders s2
                            = Dict.set (Order.order_id o) o
                                (Sim.ready_to_execute_orders s1)))
               /\ coherent s2
               /\ Sim.last_order s2 = None
               /\ same_market s1 s2).
    { destruct tie as [a|].
      - destruct (@select_action s a (or_introl (ex_intro _ m Hsel)))
          as [aq [Hqa _]].
        assert (Hqa1 : Sim.actions_queue s1 = a :: aq) by congruence.
        destruct (action_step Hc1 Hlast1 Hqa1)
          as (s2 & ts2 & H2 & _ & Hc2 & Hl2 & Hsame2).
        exists s2. rewrite Hqa1. cbn [tl].
        split; [exact H2|]. split; [discriminate|].
        split; [|split; [exact Hc2|split; [exact Hl2|exact Hsame2]]].
        intros o Ho. injection Ho as ->.
        destruct (place_resolution _ _ _ H2) as (P1 & P2 & P3).
        split; [|split; [exact P2|exact P3]].
        intros Hm Hty. exact (P1 Hm Hty m Hmd1).
      - exists s1. cbn [bind].
        split; [apply execute_last_order_None; exact Hlast1|].
        split; [reflexivity|]. split; [intros o Ho; discriminate Ho|].
        split; [exact Hc1|].
        split; [exact Hlast1|apply same_market_refl]. }
    destruct Hstage as (s2 & H2 & Hnone & Hagg & Hc2 & Hl2 & Hsame2).
    destruct Hsame2 as (Hb & Ha & Hpb & Hpa & Hmd2 & Hlat2).
    rewrite Hmd1 in Hmd2.
    destruct (@passive_then_delete s2 m (proj1 Hc2) Hmd2)
      as (s4 & H4 & Pready & Pfill & Pperm & Ptid & Pb & Pa).
    exists s2, (Sim.delete_last_trade s4).
    split; [apply update_md_eq|].
    split; [exact H2|]. split; [exact Hnone|].
    destruct (after_md_fields (Sim.set_md_queue s mq) m)
      as (_ & Q & R & _ & N & _ & L & _ & I & J & _).
    destruct (set_md_queue_fields s mq)
      as (_ & _ & Q' & R' & N' & _ & L' & _ & I' & J').
    rewrite <- Hs1 in Q, R, N.
    split; [rewrite Q, Q'; reflexivity|].
    split; [rewrite R, R'; reflexivity|].
    split; [rewrite N, N'; reflexivity|].
    split; [rewrite Hs1, L, L'; reflexivity|].
    split; [exact Hagg|]. split; [exact Hl2|].
    destruct (after_md_trade_prices (Sim.set_md_queue s mq) m) as (T & U).
    destruct (set_md_queue_trade_prices s mq) as (T' & U').
    rewrite <- Hs1 in L, I, J, T, U.
    split.
    { rewrite Hb, Ha, I, J, I', J'.
      destruct (update_best_positions _ _ m); reflexivity. }
    split; [rewrite Hpb, T, T', Htb; reflexivity|].
    split; [rewrite Hpa, U, U', Hta; reflexivity|].
    split; [exact Hmd2|].
    split.
    { rewrite tick_body_perform, Hsel.
      apply bind_Ok_inv in H2. destruct H2 as (sa & Hsa & Hexec).
      destruct tie as [a|]; cbn [perform]; rewrite update_md_eq; cbn [bind];
        fold s1.
      - rewrite Hsa. cbn [bind]. rewrite Hexec. cbn [bind]. rewrite H4.
        reflexivity.
      - injection Hsa as <-. rewrite (Hnone eq_refl) in H4. rewrite H4.
        reflexivity. }
    split; [exact Pready|].
    split; [|split; [exact Pperm|split; [exact Ptid|split; [exact Pb|exact Pa]]]].
    intros k o Hin. specialize (Pfill k o Hin).
    unfold maker_trade in Pfill. rewrite Hlat2, L, L' in Pfill. exact Pfill.
  - intros a Hsel.
    destruct (@select_action s a (or_intror Hsel)) as [aq [Hq _]].
    destruct (action_step Hc Hlast Hq) as (s2 & ts & H & _ & _ & Hl2 & _).
    exists s2, (Sim.delete_last_trade s2). rewrite Hq. cbn [tl].
    split; [exact H|]. split; [exact Hl2|].
    split.
    { intros o Ho. subst a.
      destruct (place_resolution _ _ _ H) as (P1 & P2 & P3).
      split; [exact P1|]. split; [exact P2|exact P3]. }
    split; [apply (Haction s a s2 Hsel); rewrite Hq; exact H|].
    destruct (delete_last_trade_frame s2) as (Dr & Dq & Dt & _).
    split; [exact Dr|]. split; [exact Dq|exact Dt].
  - intros s0 a s2 Hsel H. exists (Sim.delete_last_trade s2).
    split; [exact (Haction s0 a s2 Hsel H)|].
    destruct (delete_last_trade_frame s2) as (Dr & Dq & Dt & _).
    split; [exact Dr|]. split; [exact Dq|exact Dt].
Qed.

(** C8. Processing a cancel whose target is not in the resting map changes
    nothing but the action queue: applying it leaves the state as it is,
    an iteration that pops only this cancel returns the state with the
    cancel removed from the action queue, and an iteration that pops it
    together with an update of the same timestamp does what it would do
    without the cancel in the queue.  No exception is raised. *)
Theorem cancel_unknown_noop market_data lat mdl (s : Sim.t) (c : CancelOrder.t) :
  reachable market_data lat mdl s ->
  Dict.mem (CancelOrder.id_to_delete c) (Sim.ready_to_execute_orders s) = false ->
  Sim.update_action s (ACancel c) = Ok s
  /\ (select s = SelAction (ACancel c) ->
      Sim.tick_body s
      = Ok (Sim.Continue (Sim.set_actions_queue s (tl (Sim.actions_queue s)))))
  /\ (forall m, select s = SelBoth m (ACancel c) ->
        Sim.tick_body s
        = perform (Sim.set_actions_queue s (tl (Sim.actions_queue s))) (SelMd m)).
Proof.
  intros Hr Hmem. apply reachable_settled in Hr.
  destruct Hr as (Hlast & Htb & Hta & _).
  repeat apply conj.
  - cbn [Sim.update_action]. rewrite Hmem. reflexivity.
  - intros Hsel. rewrite tick_body_perform, Hsel. cbn [perform].
    destruct s. sim_simpl. subst.
    cbn [Sim.update_action]. sim_simpl. rewrite Hmem. cbn [bind].
    unfold Sim.execute_last_order. sim_simpl. reflexivity.
  - intros m Hsel. rewrite tick_body_perform, Hsel. cbn [perform].
    rewrite !update_md_eq. cbn [bind].
    rewrite <- after_md_pop_action.
    remember (Sim.set_actions_queue
                (after_md (Sim.set_md_queue s (tl (Sim.md_queue s))) m)
                (tl (Sim.actions_queue
                       (after_md (Sim.set_md_queue s (tl (Sim.md_queue s))) m))))
      as s1 eqn:Hs1.
    assert (Hready : Sim.ready_to_execute_orders s1 = Sim.ready_to_execute_orders s).
    { subst s1. unfold after_md. destruct s.
      destruct (MdUpdate.trade m); reflexivity. }
    assert (Hlast1 : Sim.last_order s1 = None).
    { subst s1. unfold after_md. destruct s.
      destruct (MdUpdate.trade m); exact Hlast. }
    unfold Sim.update_action. rewrite Hready, Hmem. cbn [bind].
    rewrite (execute_last_order_None s1 Hlast1). reflexivity.
Qed.

(** C10. As long as no market-data update was applied the best bid is minus
    infinity and the best ask plus infinity, and reading the current update
    would raise.  A place action processed then is not marketable whatever
    its side, price and kind: applying it and resolving it aggressively
    returns, so the branch that reads the current update is not taken, and
    in the returned state the order is in the resting map, which is the
    resting map with the order set under its id; the queue and the trade
    counter are unchanged, so no trade is generated.  The same holds of the
    iteration of the tick loop that pops the place action. *)
Theorem place_before_first_md market_data lat mdl (s : Sim.t) :
  reachable market_data lat mdl s ->
  Sim.md s = None ->
  Sim.best_bid s = NegInf /\ Sim.best_ask s = PosInf
  /\ Sim.current_md s = Raise AttributeError
  /\ forall o,
       marketable s o = false
       /\ Sim.aggressive_price s o = None
       /\ (exists s',
             (s1 <- Sim.update_action s (APlace o) ;; Sim.execute_last_order s1)
             = Ok s'
             /\ s' = Sim.set_last_order (rest_order s o) None
             /\ Sim.ready_to_execute_orders s'
                = Dict.set (Order.order_id o) o (Sim.ready_to_execute_orders s)
             /\ In (Order.order_id o, o) (Sim.ready_to_execute_orders s')
             /\ Sim.strategy_updates_queue s' = Sim.strategy_updates_queue s
             /\ Sim.trade_id s' = Sim.trade_id s
             /\ Sim.last_order s' = None
             /\ Sim.md s' = None)
       /\ (select s = SelAction (APlace o) ->
           exists s',
             Sim.tick_body s = Ok (Sim.Continue s')
             /\ Sim.ready_to_execute_orders s'
                = Dict.set (Order.order_id o) o (Sim.ready_to_execute_orders s)
             /\ In (Order.order_id o, o) (Sim.ready_to_execute_orders s')
             /\ Sim.strategy_updates_queue s' = Sim.strategy_updates_queue s
             /\ Sim.trade_id s' = Sim.trade_id s
             /\ Sim.last_order s' = None
             /\ Sim.md s' = None).
Proof.
  intros Hr Hmd. apply reachable_settled in Hr.
  destruct Hr as (Hlast & _ & _ & Hinf & _). destruct (Hinf Hmd) as [Hb Ha].
  split; [assumption|]. split; [assumption|].
  split; [unfold Sim.current_md; rewrite Hmd; reflexivity|].
  intros o.
  pose proof (not_marketable_before_md s o Hb Ha) as Hm.
  split; [assumption|].
  assert (Hp : Sim.aggressive_price s o = None)
    by (rewrite aggressive_price_marketable, Hm; reflexivity).
  split; [assumption|].
  assert (Hset : Sim.ready_to_execute_orders
                   (Sim.set_last_order (rest_order s o) None)
                 = Dict.set (Order.order_id o) o (Sim.ready_to_execute_orders s))
    by (destruct s; reflexivity).
  split.
  - exists (Sim.set_last_order (rest_order s o) None). split.
    + cbn [Sim.update_action bind]. unfold Sim.execute_last_order.
      replace (Sim.last_order (Sim.set_last_order s (Some o))) with (Some o)
        by (destruct s; reflexivity).
      replace (Sim.aggressive_price (Sim.set_last_order s (Some o)) o)
        with (Sim.aggressive_price s o) by (destruct s; reflexivity).
      rewrite Hp. cbn [bind]. destruct s; reflexivity.
    + split; [reflexivity|]. split; [exact Hset|].
      split; [rewrite Hset; apply Dict_set_holds|].
      destruct s; repeat apply conj; try reflexivity. exact Hmd.
  - intros Hsel.
    destruct (@select_action s _ (or_intror Hsel)) as [aq [Hq _]].
    rewrite tick_body_perform, Hsel. cbn [perform Sim.update_action bind].
    rewrite Hq. cbn [tl]. clear Hset Hp.
    destruct s as [mq aq0 q ready cur oid tid lat0 mdl0 bb ba tb ta lo].
    sim_simpl. subst. unfold Sim.execute_last_order. sim_simpl.
    rewrite aggressive_price_marketable.
    unfold marketable in *. sim_simpl. rewrite Hm.
    cbn [bind]. sim_simpl.
    eexists. split; [reflexivity|]. sim_simpl.
    repeat apply conj; try reflexivity. apply Dict_set_holds.
Qed.

(** ** The pending slot *)

(** C7, as amended.  The pending slot holds one order and a place action
    overwrites it without looking at what it held; but the slot is empty
    between two iterations, and the iteration that pops a place action runs
    aggressive resolution on this very order and clears the slot again: so
    every placed order is tried aggressively, in the order of the action
    queue, and none is dropped. *)
Theorem place_resolved_at_once market_data lat mdl (s : Sim.t) :
  reachable market_data lat mdl s ->
  Sim.last_order s = None
  /\ (forall s0 o,
        Sim.update_action s0 (APlace o) = Ok (Sim.set_last_order s0 (Some o)))
  /\ (forall o, select s = SelAction (APlace o) ->
        exists s2,
          Sim.execute_last_order (pending_state s o) = Ok s2
          /\ Sim.last_order s2 = None
          /\ Sim.tick_body s = Ok (Sim.Continue (Sim.delete_last_trade s2)))
  /\ (forall m o, select s = SelBoth m (APlace o) ->
        exists s2 s3,
          Sim.execute_last_order
            (pending_state (after_md (Sim.set_md_queue s (tl (Sim.md_queue s))) m) o)
          = Ok s2
          /\ Sim.last_order s2 = None
          /\ Sim.execute_orders s2 = Ok s3
          /\ Sim.last_order s3 = None
          /\ Sim.tick_body s = Ok (Sim.Continue (Sim.delete_last_trade s3))).
Proof.
  intros Hr. apply reachable_settled in Hr.
  pose proof (settled_coherent Hr) as Hc.
  destruct Hr as (Hlast & _ & _ & _ & Hwf).
  repeat apply conj.
  - assumption.
  - reflexivity.
  - intros o Hsel.
    destruct (@select_action s _ (or_intror Hsel)) as [aq [Hq _]].
    destruct (action_step Hc Hlast Hq) as (s2 & ts & H & _ & _ & Hl2 & _).
    cbn [Sim.update_action bind] in H.
    exists s2. unfold pending_state. rewrite Hq. cbn [tl].
    repeat split; try assumption.
    rewrite tick_body_perform, Hsel. cbn [perform Sim.update_action bind].
    rewrite Hq. cbn [tl]. rewrite H. reflexivity.
  - intros m o Hsel.
    destruct (@select_md s m (or_introl (ex_intro _ _ Hsel))) as [mq [Hq _]].
    destruct (@select_action s _ (or_introl (ex_intro _ m Hsel))) as [aq [Hqa _]].
    rewrite Hq. cbn [tl].
    destruct (after_md_facts s m mq Hwf) as (Hc1 & Hmd1 & Hlast1 & Hact1).
    rewrite Hlast in Hlast1.
    assert (Hqa1 : Sim.actions_queue (after_md (Sim.set_md_queue s mq) m)
                   = APlace o :: aq) by congruence.
    destruct (action_step Hc1 Hlast1 Hqa1)
      as (s2 & ts2 & H2 & _ & Hc2 & Hl2 & Hsame2).
    cbn [Sim.update_action bind] in H2.
    assert (Hmd2 : Sim.md s2 = Some m)
      by (destruct Hsame2 as (_ & _ & _ & _ & Hmd & _); congruence).
    destruct (orders_step Hc2 Hmd2) as (s3 & ts3 & H3 & _ & _ & Hl3 & _).
    exists s2, s3. unfold pending_state. rewrite Hqa1. cbn [tl].
    repeat split; try assumption; try congruence.
    rewrite tick_body_perform, Hsel. cbn [perform].
    rewrite Hq. cbn [tl]. rewrite update_md_eq. cbn [bind Sim.update_action].
    rewrite Hqa1. cbn [tl]. rewrite H2. cbn [bind]. rewrite H3. reflexivity.
Qed.

(** C7 as worded fails: when two marketable orders are placed before the
    engine is ticked, the order placed first is filled and notified, it is
    not dropped. *)
Lemma prior_order_not_dropped :
  ~ prior_orders_dropped sample_md 5 2 sample_two_places.
Proof.
  unfold prior_orders_dropped. vm_compute. intros H.
  assert (H0 : 0 = 1).
  { apply (H (OwnTrade.mk 1 0 2 0 0 BID 7 (Fin 101) TAKER BOOK)).
    right. left. reflexivity. }
  discriminate H0.
Qed.

(** * Further properties of the code *)

(** ** The runs of the engine stay among the reachable states *)

Lemma tick_loop_reachable market_data lat mdl (fuel : nat) :
  forall s s',
    reachable market_data lat mdl s ->
    Sim.tick_loop fuel s = Ok s' ->
    reachable market_data lat mdl s'.
Proof.
  induction fuel as [|fuel IH]; intros s s' Hr H; [discriminate|].
  cbn [Sim.tick_loop] in H.
  destruct (Sim.tick_body s) as [[|s1]|e] eqn:Hb; cbn [bind] in H.
  - injection H as <-. exact Hr.
  - apply (IH s1 s'); [|exact H]. apply (reach_iteration Hr Hb).
  - discriminate.
Qed.

Lemma tick_reachable market_data lat mdl (s s' : Sim.t) key res :
  reachable market_data lat mdl s ->
  Sim.tick s = Ok (key, res, s') ->
  reachable market_data lat mdl s'.
Proof.
  intros Hr H. unfold Sim.tick in H.
  destruct (Sim.tick_loop (Sim.tick_fuel s) s) as [s1|] eqn:Hl;
    cbn [bind] in H; [|discriminate].
  destruct (PriorQueue.pop (Sim.strategy_updates_queue s1))
    as [[[k r] q]|] eqn:Hp; cbn [bind] in H; [|discriminate].
  injection H as <- <- <-.
  apply (reach_pop (tick_loop_reachable _ Hr Hl) Hp).
Qed.

Lemma run_reachable market_data lat mdl (cs : list call) :
  forall s batches s',
    reachable market_data lat mdl s ->
    run cs s = Ok (batches, s') ->
    reachable market_data lat mdl s'.
Proof.
  induction cs as [|c cs IH]; intros s batches s' Hr H.
  - injection H as <- <-. exact Hr.
  - destruct c as [ts size side price ty|ts id|]; cbn [run] in H.
    + apply (IH _ _ _ (reach_place ts size side price ty Hr) H).
    + apply (IH _ _ _ (reach_cancel ts id Hr) H).
    + destruct (Sim.tick s) as [[[k r] s1]|] eqn:Ht; cbn [bind] in H;
        [|discriminate].
      destruct (run cs s1) as [[bs s2]|] eqn:Hrun; cbn [bind] in H;
        [|discriminate].
      injection H as <- <-.
      apply (IH _ _ _ (tick_reachable Hr Ht) Hrun).
Qed.

(** ** Best prices of the engine and of [md_to_dataframe] *)

Lemma md_loop_trace (md_list : list MdUpdate.t) :
  forall best_bid best_ask best_bids best_asks,
    GetInfo.md_loop md_list best_bid best_ask best_bids best_asks
    = (best_bids ++ map fst (replay_trace (best_bid, best_ask) md_list),
       best_asks ++ map snd (replay_trace (best_bid, best_ask) md_list)).
Proof.
  induction md_list as [|m l IH]; intros b a bs as_.
  - cbn. rewrite !app_nil_r. reflexivity.
  - cbn [GetInfo.md_loop replay_trace fst snd map].
    destruct (update_best_positions b a m) as [b' a'] eqn:E.
    rewrite IH. cbn [fst snd]. rewrite <- !app_assoc. reflexivity.
Qed.

Lemma replay_trace_length (mds : list MdUpdate.t) :
  forall start, length (replay_trace start mds) = length mds.
Proof.
  induction mds as [|m l IH]; intros start; cbn; [|rewrite IH]; reflexivity.
Qed.

Lemma last_nonempty_indep {A : Type} (x : A) (l : list A) (d1 d2 : A) :
  last (x :: l) d1 = last (x :: l) d2.
Proof.
  revert x. induction l as [|y l IH]; intros x; [reflexivity|].
  change (last (y :: l) d1 = last (y :: l) d2). apply IH.
Qed.

Lemma replay_trace_last (mds : list MdUpdate.t) :
  forall start, last (replay_trace start mds) start = replay_best start mds.
Proof.
  induction mds as [|m l IH]; intros start; [reflexivity|].
  change (replay_best start (m :: l))
    with (replay_best (update_best_positions (fst start) (snd start) m) l).
  rewrite <- IH. cbn [replay_trace].
  destruct l as [|m' l']; [reflexivity|].
  cbn [replay_trace]. cbn [last]. apply last_nonempty_indep.
Qed.

Lemma replay_trace_nth (mds : list MdUpdate.t) :
  forall start i,
    (i < length mds)%nat ->
    nth i (replay_trace start mds) start
    = replay_best start (firstn (S i) mds).
Proof.
  induction mds as [|m l IH]; intros start i Hi; [cbn in Hi; lia|].
  destruct i as [|i].
  - reflexivity.
  - rewrite firstn_cons. cbn [replay_trace nth].
    change (replay_best start (m :: firstn (S i) l))
      with (replay_best (update_best_positions (fst start) (snd start) m)
              (firstn (S i) l)).
    rewrite <- IH by (cbn in Hi; lia).
    apply nth_indep. rewrite replay_trace_length. cbn in Hi. lia.
Qed.

Lemma last_map {A B : Type} (f : A -> B) (l : list A) (d : A) :
  last (map f l) (f d) = f (last l d).
Proof.
  induction l as [|x l IH]; [reflexivity|].
  cbn [map]. destruct l; [reflexivity|]. exact IH.
Qed.

Lemma nth_map_pair {A B : Type} (l : list (A * B)) (i : nat) (d : A * B) :
  (nth i (map fst l) (fst d), nth i (map snd l) (snd d)) = nth i l d.
Proof. rewrite !map_nth. destruct (nth i l d); reflexivity. Qed.

(** X1. The rows of the data frame of [md_to_dataframe]: one per update, with
    the timestamps of the update and the best bid and ask obtained by
    replaying the tracker, from minus and plus infinity, over the updates
    up to this one. *)
Theorem md_to_dataframe_rows (md_list : list MdUpdate.t) :
  let df := GetInfo.md_to_dataframe md_list in
  length (GetInfo.exchange_ts df) = length md_list
  /\ length (GetInfo.receive_ts df) = length md_list
  /\ length (GetInfo.bid_price df) = length md_list
  /\ length (GetInfo.ask_price df) = length md_list
  /\ forall i, (i < length md_list)%nat ->
       nth i (GetInfo.exchange_ts df) 0
       = MdUpdate.exchange_ts
           (nth i md_list (MdUpdate.mk 0 0 None None))
       /\ nth i (GetInfo.receive_ts df) 0
          = MdUpdate.receive_ts
              (nth i md_list (MdUpdate.mk 0 0 None None))
       /\ (nth i (GetInfo.bid_price df) NegInf,
           nth i (GetInfo.ask_price df) PosInf)
          = replay_best (NegInf, PosInf) (firstn (S i) md_list).
Proof.
  unfold GetInfo.md_to_dataframe. rewrite md_loop_trace.
  cbn [app GetInfo.exchange_ts GetInfo.receive_ts GetInfo.bid_price
       GetInfo.ask_price].
  rewrite !length_map, replay_trace_length.
  repeat apply conj; try reflexivity.
  intros i Hi. repeat apply conj.
  - exact (map_nth MdUpdate.exchange_ts md_list (MdUpdate.mk 0 0 None None) i).
  - exact (map_nth MdUpdate.receive_ts md_list (MdUpdate.mk 0 0 None None) i).
  - rewrite <- (replay_trace_nth md_list (NegInf, PosInf) Hi).
    exact (nth_map_pair (replay_trace (NegInf, PosInf) md_list) i
             (NegInf, PosInf)).
Qed.

Lemma reachable_consumed market_data lat mdl (s : Sim.t) :
  reachable market_data lat mdl s ->
  exists consumed,
    market_data = consumed ++ Sim.md_queue s
    /\ (Sim.best_bid s, Sim.best_ask s) = replay_best (NegInf, PosInf) consumed.
Proof.
  induction 1 as [| s ts size side price ty Hr IH | s ts id Hr IH
                  | s s' Hr IH Hstep | s key res q Hr IH Hpop].
  - exists []. split; reflexivity.
  - destruct IH as (done & H1 & H2). exists done.
    destruct s; split; assumption.
  - destruct IH as (done & H1 & H2). exists done.
    destruct s; split; assumption.
  - destruct IH as (done & H1 & H2).
    destruct (tick_body_step (reachable_settled Hr))
      as [[_ Hb]|(s2 & mds & acts & ts & Hb & He & _)];
      rewrite Hb in Hstep; [discriminate|].
    injection Hstep as <-.
    exists (done ++ mds). split.
    + rewrite <- app_assoc, <- (eff_md_queue He). exact H1.
    + rewrite replay_best_app, <- H2. apply (eff_best He).
  - destruct IH as (done & H1 & H2). exists done.
    destruct s; split; assumption.
Qed.

(** X2. The best bid and ask of the engine after any sequence of calls are
    those of the last row of the data frame that [md_to_dataframe] builds
    from the updates the engine has consumed so far (minus and plus
    infinity when it has consumed none). *)
Theorem engine_best_matches_dataframe market_data lat mdl (cs : list call)
        (batches : list (Z * list Update)) (s : Sim.t) :
  run cs (Sim.init market_data lat mdl) = Ok (batches, s) ->
  exists consumed,
    market_data = consumed ++ Sim.md_queue s
    /\ Sim.best_bid s
       = last (GetInfo.bid_price (GetInfo.md_to_dataframe consumed)) NegInf
    /\ Sim.best_ask s
       = last (GetInfo.ask_price (GetInfo.md_to_dataframe consumed)) PosInf.
Proof.
  intros Hrun.
  pose proof (run_reachable _ (reach_init market_data lat mdl) Hrun) as Hr.
  destruct (reachable_consumed Hr) as (done & H1 & H2).
  exists done. split; [exact H1|].
  unfold GetInfo.md_to_dataframe. rewrite md_loop_trace.
  cbn [app GetInfo.bid_price GetInfo.ask_price].
  change NegInf with (fst (NegInf, PosInf)) at 2.
  change PosInf with (snd (NegInf, PosInf)) at 4.
  rewrite !last_map, replay_trace_last, <- H2. split; reflexivity.
Qed.

(** ** The loop of [tick] ends, and what a call of [tick] can raise *)

Lemma select_stop_cases (s : Sim.t) :
  select s = SelStop ->
  (Sim.md_queue s = [] /\ Sim.actions_queue s = [])
  \/ Sim.strategy_updates_queue s <> [].
Proof.
  unfold select, next_input_time. intros H.
  destruct (Sim.strategy_updates_queue s) as [|[k vs] q]; [|right; discriminate].
  left. cbn [PriorQueue.min_key Ext.ltb] in H.
  destruct (Sim.md_queue s) as [|m mq], (Sim.actions_queue s) as [|a aq];
    try (split; reflexivity); try discriminate.
  destruct (MdUpdate.exchange_ts m ?= Action_exchange_ts a); discriminate.
Qed.

Lemma tick_loop_total (fuel : nat) :
  forall s,
    settled s ->
    (length (Sim.md_queue s) + length (Sim.actions_queue s) < fuel)%nat ->
    exists s' mds acts trades,
      Sim.tick_loop fuel s = Ok s'
      /\ effect s s' mds acts trades
      /\ settled s'
      /\ select s' = SelStop.
Proof.
  induction fuel as [|fuel IH]; intros s Hs Hlt; [lia|].
  cbn [Sim.tick_loop].
  destruct (tick_body_step Hs)
    as [[Hsel Hb]|(s1 & mds & acts & ts & Hb & He & Hprog & _ & Hs1)];
    rewrite Hb; cbn [bind].
  - exists s, [], [], [].
    split; [reflexivity|]. split; [apply effect_refl|]. split; assumption.
  - pose proof (eff_md_queue He) as Hm. pose proof (eff_actions_queue He) as Ha.
    apply (f_equal (@length _)) in Hm. apply (f_equal (@length _)) in Ha.
    rewrite length_app in Hm, Ha.
    destruct (IH s1 Hs1) as (s' & mds' & acts' & ts' & Hl & He' & Hs' & Hsel');
      [lia|].
    exists s', (mds ++ mds'), (acts ++ acts'), (ts ++ ts').
    split; [exact Hl|]. split; [apply (effect_trans He He')|].
    split; assumption.
Qed.

Lemma reachable_keyed market_data lat mdl (s : Sim.t) :
  reachable market_data lat mdl s ->
  Forall keyed (Sim.strategy_updates_queue s).
Proof.
  induction 1 as [| s ts size side price ty Hr IH | s ts id Hr IH
                  | s s' Hr IH Hstep | s key res q Hr IH Hpop].
  - constructor.
  - destruct s; exact IH.
  - destruct s; exact IH.
  - destruct (tick_body_step (reachable_settled Hr))
      as [[_ Hb]|(s2 & mds & acts & ts & Hb & He & _)];
      rewrite Hb in Hstep; [discriminate|].
    injection Hstep as <-. apply (eff_keyed He IH).
  - destruct (Sim.strategy_updates_queue s) as [|[k vs] q0] eqn:E;
      [discriminate|].
    injection Hpop as <- <- <-. inversion IH; subst.
    destruct s; assumption.
Qed.

(** X3. A call of [tick] in a run never goes wrong inside the loop: the loop
    ends, and the call either returns a batch whose members all have the
    returned key as their receive timestamp, or raises the exception of the
    empty notification queue; it raises it only when, after the loop, both
    input queues are empty as well. *)
Theorem tick_returns_or_is_exhausted market_data lat mdl (s : Sim.t) :
  reachable market_data lat mdl s ->
  (exists key res s',
      Sim.tick s = Ok (key, res, s')
      /\ Forall (fun u => Update_receive_ts u = key) res
      /\ reachable market_data lat mdl s')
  \/ (Sim.tick s = Raise IndexError
      /\ exists s1,
           Sim.tick_loop (Sim.tick_fuel s) s = Ok s1 /\ exhausted s1).
Proof.
  intros Hr.
  destruct (@tick_loop_total (Sim.tick_fuel s) s (reachable_settled Hr))
    as (s1 & mds & acts & ts & Hl & He & Hs1 & Hsel);
    [unfold Sim.tick_fuel; lia|].
  pose proof (tick_loop_reachable _ Hr Hl) as Hr1.
  pose proof (reachable_keyed Hr1) as Hk.
  unfold Sim.tick. rewrite Hl. cbn [bind].
  destruct (Sim.strategy_updates_queue s1) as [|[k vs] q] eqn:Hq.
  - right. split; [reflexivity|]. exists s1. split; [reflexivity|].
    destruct (select_stop_cases _ Hsel) as [[Hm Ha]|Hne];
      [|rewrite Hq in Hne; contradiction].
    repeat split; assumption.
  - left. exists k, vs, (Sim.set_strategy_updates_queue s1 q).
    cbn [PriorQueue.pop bind]. split; [reflexivity|]. split.
    + inversion Hk as [|? ? Hkv _]; subst. exact Hkv.
    + apply (@reach_pop _ _ _ s1 k vs q Hr1). rewrite Hq. reflexivity.
Qed.

Lemma tick_effect market_data lat mdl (s s' : Sim.t)
        (key : Z) (res : list Update) :
  reachable market_data lat mdl s ->
  Sim.tick s = Ok (key, res, s') ->
  exists mds acts trades,
    Sim.md_queue s = mds ++ Sim.md_queue s'
    /\ Sim.actions_queue s = acts ++ Sim.actions_queue s'
    /\ Permutation
         (res ++ PriorQueue.contents (Sim.strategy_updates_queue s'))
         (PriorQueue.contents (Sim.strategy_updates_queue s)
            ++ map UMd mds ++ map UTrade trades)
    /\ map OwnTrade.trade_id trades = zrange (Sim.trade_id s) (length trades)
    /\ Sim.trade_id s' = Sim.trade_id s + Z.of_nat (length trades)
    /\ keyed (key, res).
Proof.
  intros Hr Ht.
  destruct (@tick_loop_total (Sim.tick_fuel s) s (reachable_settled Hr))
    as (s1 & mds & acts & ts & Hl & He & _ & _);
    [unfold Sim.tick_fuel; lia|].
  unfold Sim.tick in Ht. rewrite Hl in Ht. cbn [bind] in Ht.
  destruct (Sim.strategy_updates_queue s1) as [|[k vs] q] eqn:Hq;
    [discriminate|].
  cbn [PriorQueue.pop bind] in Ht. injection Ht as <- <- <-.
  exists mds, acts, ts.
  pose proof (eff_contents He) as Hc. rewrite Hq in Hc.
  replace (Sim.md_queue (Sim.set_strategy_updates_queue s1 q))
    with (Sim.md_queue s1) by (destruct s1; reflexivity).
  replace (Sim.actions_queue (Sim.set_strategy_updates_queue s1 q))
    with (Sim.actions_queue s1) by (destruct s1; reflexivity).
  replace (Sim.trade_id (Sim.set_strategy_updates_queue s1 q))
    with (Sim.trade_id s1) by (destruct s1; reflexivity).
  replace (Sim.strategy_updates_queue (Sim.set_strategy_updates_queue s1 q))
    with q by (destruct s1; reflexivity).
  repeat apply conj.
  - apply (eff_md_queue He).
  - apply (eff_actions_queue He).
  - exact Hc.
  - apply (eff_trade_ids He).
  - apply (eff_trade_id He).
  - pose proof (eff_keyed He (reachable_keyed Hr)) as Hk. rewrite Hq in Hk.
    inversion Hk; assumption.
Qed.

(** X4. What one successful call of [tick] does to the notifications: the
    updates it consumed from the front of the market-data queue and the
    trades it generated, numbered consecutively from the trade counter,
    together with what was queued before, are exactly the batch it returns
    and what it leaves in the queue. *)
Theorem tick_conserves_notifications market_data lat mdl (s s' : Sim.t)
        (key : Z) (res : list Update) :
  reachable market_data lat mdl s ->
  Sim.tick s = Ok (key, res, s') ->
  exists mds acts trades,
    Sim.md_queue s = mds ++ Sim.md_queue s'
    /\ Sim.actions_queue s = acts ++ Sim.actions_queue s'
    /\ Permutation
         (res ++ PriorQueue.contents (Sim.strategy_updates_queue s'))
         (PriorQueue.contents (Sim.strategy_updates_queue s)
            ++ map UMd mds ++ map UTrade trades)
    /\ map OwnTrade.trade_id trades = zrange (Sim.trade_id s) (length trades)
    /\ Sim.trade_id s' = Sim.trade_id s + Z.of_nat (length trades).
Proof.
  intros Hr Ht.
  destruct (tick_effect Hr Ht) as (mds & acts & trades & H1 & H2 & H3 & H4 & H5 & _).
  exists mds, acts, trades. repeat apply conj; assumption.
Qed.

(** ** Every notification is delivered once *)





(** ** Delivery in the order of the input when no action is submitted *)




Lemma delete_last_trade_fields (s : Sim.t) :
  Sim.md_queue (Sim.delete_last_trade s) = Sim.md_queue s
  /\ Sim.actions_queue (Sim.delete_last_trade s) = Sim.actions_queue s
  /\ Sim.strategy_updates_queue (Sim.delete_last_trade s)
     = Sim.strategy_updates_queue s
  /\ Sim.ready_to_execute_orders (Sim.delete_last_trade s)
     = Sim.ready_to_execute_orders s
  /\ Sim.last_order (Sim.delete_last_trade s) = Sim.last_order s.
Proof. destruct s. repeat apply conj; reflexivity. Qed.








(** ** The book keeping of orders *)

Lemma Dict_set_In {V : Type} (k : Z) (v : V) (d : Dict.t V) (item : Z * V) :
  In item (Dict.set k v d) -> item = (k, v) \/ In item d.
Proof.
  induction d as [|[k' v'] d IH]; cbn [Dict.set In].
  - intros [H|[]]. left. symmetry. exact H.
  - destruct (Z.eqb_spec k' k) as [->|Hne]; cbn [In].
    + intros [H|H]; [left; symmetry; exact H|right; right; exact H].
    + intros [H|H]; [right; left; exact H|].
      destruct (IH H) as [H1|H1]; [left; exact H1|right; right; exact H1].
Qed.

Lemma Dict_pop_In {V : Type} (k : Z) (d d' : Dict.t V) (item : Z * V) :
  Dict.pop k d = Ok d' -> In item d' -> In item d.
Proof.
  revert d'. induction d as [|[k' v'] d IH]; intros d'; cbn [Dict.pop];
    [discriminate|].
  destruct (k' =? k).
  - intros H Hin. injection H as <-. right. exact Hin.
  - destruct (Dict.pop k d) as [d1|]; cbn [bind]; [|discriminate].
    intros H Hin. injection H as <-. destruct Hin as [Hin|Hin].
    + left. exact Hin.
    + right. apply (IH d1 eq_refl Hin).
Qed.

Lemma Dict_pop_removes {V : Type} (k : Z) (d d' : Dict.t V) :
  Dict.wf d -> Dict.pop k d = Ok d' -> Dict.mem k d' = false.
Proof.
  revert d'. induction d as [|[k' v'] d IH]; intros d' Hwf; cbn [Dict.pop];
    [discriminate|].
  apply Dict_wf_cons in Hwf. destruct Hwf as [Hk Hwf].
  destruct (Z.eqb_spec k' k) as [->|Hne].
  - intros H. injection H as <-.
    destruct (Dict.mem k d) eqn:E; [|reflexivity].
    apply Dict_mem_In in E. contradiction.
  - destruct (Dict.pop k d) as [d1|]; cbn [bind]; [|discriminate].
    intros H. injection H as <-. cbn [Dict.mem existsb fst].
    destruct (Z.eqb_spec k' k) as [Heq|_]; [contradiction|].
    cbn [orb]. apply (IH d1 Hwf eq_refl).
Qed.

Lemma marketable_same_market (s s' : Sim.t) (o : Order.t) :
  same_market s s' -> marketable s' o = marketable s o.
Proof.
  intros (Hb & Ha & _). unfold marketable. rewrite Hb, Ha. reflexivity.
Qed.

(** The resting map and the counters after an action was popped and the
    pending order resolved. *)
Lemma action_step_book (s s' : Sim.t) (a : Action) (rest : list Action) :
  Sim.last_order s = None ->
  Sim.actions_queue s = a :: rest ->
  (s1 <- Sim.update_action (Sim.set_actions_queue s rest) a ;;
   Sim.execute_last_order s1) = Ok s' ->
  Sim.order_id s' = Sim.order_id s
  /\ Sim.actions_queue s' = rest
  /\ forall item,
       In item (Sim.ready_to_execute_orders s') ->
       In item (Sim.ready_to_execute_orders s)
       \/ exists o, a = APlace o /\ item = (Order.order_id o, o)
                    /\ marketable s o = false.
Proof.
  intros Hlast Hq.
  destruct s as [mq aq q ready cur oid tid lat mdl bb ba tb ta lo].
  sim_simpl. subst.
  destruct a as [o|c]; cbn [Sim.update_action bind].
  - unfold Sim.execute_last_order. sim_simpl.
    rewrite aggressive_price_marketable.
    destruct (marketable _ o) eqn:Hm.
    + destruct (Order.type o).
      * destruct cur as [m|]; cbn [Sim.current_md Sim.md bind];
          [|discriminate].
        sim_simpl. intros H. injection H as <-. sim_simpl.
        repeat apply conj; try reflexivity. intros item Hin. left. exact Hin.
      * cbn [bind]. sim_simpl. intros H. injection H as <-. sim_simpl.
        repeat apply conj; try reflexivity. intros item Hin. left. exact Hin.
    + cbn [bind]. sim_simpl. intros H. injection H as <-. sim_simpl.
      repeat apply conj; try reflexivity. intros item Hin.
      apply Dict_set_In in Hin. destruct Hin as [->|Hin]; [|left; exact Hin].
      right. exists o. repeat apply conj; try reflexivity.
      unfold marketable in *. exact Hm.
  - sim_simpl.
    destruct (Dict.mem (CancelOrder.id_to_delete c) ready) eqn:Hmem.
    + destruct (Dict.pop (CancelOrder.id_to_delete c) ready) as [d'|] eqn:Hpop;
        cbn [bind]; [|discriminate].
      unfold Sim.execute_last_order. sim_simpl.
      intros H. injection H as <-. sim_simpl.
      repeat apply conj; try reflexivity. intros item Hin. left.
      eapply Dict_pop_In; eassumption.
    + cbn [bind]. unfold Sim.execute_last_order. sim_simpl.
      intros H. injection H as <-. sim_simpl.
      repeat apply conj; try reflexivity. intros item Hin. left. exact Hin.
Qed.

Lemma orders_step_book (s s' : Sim.t) (m : MdUpdate.t) :
  Sim.md s = Some m ->
  Dict.wf (Sim.ready_to_execute_orders s) ->
  Sim.execute_orders s = Ok s' ->
  Sim.order_id s' = Sim.order_id s
  /\ Sim.actions_queue s' = Sim.actions_queue s
  /\ Sim.ready_to_execute_orders s'
     = filter (still_resting s) (Sim.ready_to_execute_orders s).
Proof.
  intros Hmd Hwf H. rewrite (execute_orders_eq _ Hmd Hwf) in H.
  injection H as <-. destruct s. repeat apply conj; reflexivity.
Qed.

Lemma still_resting_not_marketable (s : Sim.t) (item : Z * Order.t) :
  still_resting s item = true -> marketable s (snd item) = false.
Proof.
  unfold still_resting, passive_venue.
  destruct (marketable s (snd item)); [discriminate|reflexivity].
Qed.

Lemma after_md_counters (s : Sim.t) (m : MdUpdate.t) (mq : list MdUpdate.t) :
  Sim.order_id (after_md (Sim.set_md_queue s mq) m) = Sim.order_id s.
Proof. unfold after_md. destruct s. destruct (MdUpdate.trade m); reflexivity. Qed.

Lemma delete_last_trade_book (s : Sim.t) (o : Order.t) :
  Sim.order_id (Sim.delete_last_trade s) = Sim.order_id s
  /\ marketable (Sim.delete_last_trade s) o = marketable s o.
Proof. destruct s. split; reflexivity. Qed.

Lemma StronglySorted_app_r {A : Type} (R : A -> A -> Prop) (l1 l2 : list A) :
  StronglySorted R (l1 ++ l2) -> StronglySorted R l2.
Proof.
  induction l1 as [|x l1 IH]; cbn [app]; intros H; [exact H|].
  inversion H; subst. apply IH. assumption.
Qed.

Lemma Forall_app_r {A : Type} (P : A -> Prop) (l1 l2 : list A) :
  Forall P (l1 ++ l2) -> Forall P l2.
Proof. intros H. apply Forall_app in H. apply H. Qed.

Lemma entry_ok_transfer (s s' : Sim.t) (pre : list Z) (item : Z * Order.t) :
  Sim.order_id s' = Sim.order_id s ->
  place_ids (Sim.actions_queue s) = pre ++ place_ids (Sim.actions_queue s') ->
  entry_ok s item -> entry_ok s' item.
Proof.
  intros Hid Hq (H1 & H2 & H3). unfold entry_ok. rewrite Hid.
  rewrite Hq in H3. apply Forall_app_r in H3.
  split; [assumption|split; assumption].
Qed.

Lemma ids_ok_transfer (s s' : Sim.t) (pre : list Z) :
  Sim.order_id s' = Sim.order_id s ->
  place_ids (Sim.actions_queue s) = pre ++ place_ids (Sim.actions_queue s') ->
  ids_ok s -> ids_ok s'.
Proof.
  intros Hid Hq (H0 & H1 & H2). unfold ids_ok. rewrite Hid.
  rewrite Hq in H1, H2. split; [exact H0|]. split.
  - apply (StronglySorted_app_r _ _ H1).
  - apply (Forall_app_r _ _ H2).
Qed.

Lemma new_entry_ok (s s' : Sim.t) (o : Order.t) (rest : list Action) :
  Sim.order_id s' = Sim.order_id s ->
  Sim.actions_queue s = APlace o :: rest ->
  Sim.actions_queue s' = rest ->
  ids_ok s -> entry_ok s' (Order.order_id o, o).
Proof.
  intros Hid Hq Hq' (_ & H1 & H2). unfold entry_ok. rewrite Hid, Hq'.
  rewrite Hq in H1, H2. cbn [place_ids flat_map app] in H1, H2.
  inversion H1; subst. inversion H2; subst.
  split; [reflexivity|split; assumption].
Qed.

(** An iteration of the loop keeps the books. *)
Lemma tick_body_book (s s' : Sim.t) :
  settled s -> book_keeping s ->
  Sim.tick_body s = Ok (Sim.Continue s') ->
  book_keeping s'.
Proof.
  intros Hs (Hids & Hentries & Hcalm) Hstep.
  pose proof (settled_coherent Hs) as Hc.
  destruct Hs as (Hlast & _ & _ & _ & Hwf).
  rewrite tick_body_perform in Hstep.
  destruct (select s) as [|m|a|m a] eqn:Hsel; cbn [perform] in Hstep.
  - discriminate.
  - destruct (@select_md s m (or_intror Hsel)) as [mq [Hq _]].
    rewrite Hq in Hstep. cbn [tl] in Hstep.
    rewrite update_md_eq in Hstep. cbn [bind] in Hstep.
    destruct (after_md_facts s m mq Hwf) as (Hc1 & Hmd1 & Hlast1 & Hact1).
    destruct (orders_step Hc1 Hmd1) as (s2 & ts & H2 & _ & _ & _ & Hsame2).
    rewrite H2 in Hstep. cbn [bind] in Hstep. injection Hstep as <-.
    destruct (orders_step_book _ Hmd1 (proj1 Hc1) H2) as (Hid2 & Hact2 & Hready2).
    assert (Hid : Sim.order_id (Sim.delete_last_trade s2) = Sim.order_id s).
    { rewrite (proj1 (delete_last_trade_book s2 (sample_buy LIMIT))), Hid2.
      apply after_md_counters. }
    assert (Hact : place_ids (Sim.actions_queue s)
                   = [] ++ place_ids (Sim.actions_queue (Sim.delete_last_trade s2))).
    { destruct (delete_last_trade_fields s2) as (_ & -> & _).
      rewrite Hact2, Hact1. reflexivity. }
    assert (Hready : Sim.ready_to_execute_orders (Sim.delete_last_trade s2)
                     = filter (still_resting (after_md (Sim.set_md_queue s mq) m))
                         (Sim.ready_to_execute_orders s)).
    { destruct (delete_last_trade_fields s2) as (_ & _ & _ & -> & _).
      rewrite Hready2.
      destruct (after_md_fields (Sim.set_md_queue s mq) m) as (_ & _ & -> & _).
      destruct (set_md_queue_fields s mq) as (_ & _ & _ & -> & _).
      reflexivity. }
    split; [apply (ids_ok_transfer _ _ Hid Hact Hids)|].
    rewrite Hready. split.
    + rewrite Forall_forall in *. intros item Hin. apply filter_In in Hin.
      apply (entry_ok_transfer _ _ Hid Hact). apply Hentries. apply Hin.
    + rewrite Forall_forall. intros item Hin. apply filter_In in Hin.
      rewrite (proj2 (delete_last_trade_book s2 (snd item))).
      rewrite (marketable_same_market (snd item) Hsame2).
      apply still_resting_not_marketable. apply Hin.
  - destruct (@select_action s a (or_intror Hsel)) as [aq [Hq _]].
    rewrite Hq in Hstep. cbn [tl] in Hstep.
    destruct (action_step Hc Hlast Hq) as (s2 & ts & H2 & _ & _ & _ & Hsame2).
    destruct (action_step_book _ Hlast Hq H2) as (Hid2 & Hact2 & Hready2).
    apply bind_Ok_inv in H2. destruct H2 as (s0 & H0 & H2).
    rewrite H0 in Hstep. cbn [bind] in Hstep. rewrite H2 in Hstep.
    cbn [bind] in Hstep. injection Hstep as <-.
    assert (Hid : Sim.order_id (Sim.delete_last_trade s2) = Sim.order_id s).
    { rewrite (proj1 (delete_last_trade_book s2 (sample_buy LIMIT))). exact Hid2. }
    assert (Hact' : Sim.actions_queue (Sim.delete_last_trade s2) = aq).
    { destruct (delete_last_trade_fields s2) as (_ & -> & _). exact Hact2. }
    assert (Hact : place_ids (Sim.actions_queue s)
                   = place_ids [a]
                       ++ place_ids (Sim.actions_queue (Sim.delete_last_trade s2))).
    { rewrite Hact', Hq. unfold place_ids. cbn [flat_map].
      rewrite app_nil_r. reflexivity. }
    split; [apply (ids_ok_transfer _ _ Hid Hact Hids)|].
    destruct (delete_last_trade_fields s2) as (_ & _ & _ & Hr & _).
    rewrite Hr. split.
    + rewrite Forall_forall in *. intros item Hin.
      destruct (Hready2 item Hin) as [Hold|(o & -> & -> & _)].
      * apply (entry_ok_transfer _ _ Hid Hact). apply Hentries. exact Hold.
      * apply (new_entry_ok _ Hid Hq Hact' Hids).
    + rewrite Forall_forall in *. intros item Hin.
      rewrite (proj2 (delete_last_trade_book s2 (snd item))).
      rewrite (marketable_same_market (snd item) Hsame2).
      destruct (Hready2 item Hin) as [Hold|(o & _ & -> & Hm)].
      * apply Hcalm. exact Hold.
      * exact Hm.
  - destruct (@select_md s m (or_introl (ex_intro _ a Hsel))) as [mq [Hq _]].
    destruct (@select_action s a (or_introl (ex_intro _ m Hsel))) as [aq [Hqa _]].
    rewrite Hq in Hstep. cbn [tl] in Hstep.
    rewrite update_md_eq in Hstep. cbn [bind] in Hstep.
    destruct (after_md_facts s m mq Hwf) as (Hc1 & Hmd1 & Hlast1 & Hact1).
    rewrite Hlast in Hlast1.
    assert (Hqa1 : Sim.actions_queue (after_md (Sim.set_md_queue s mq) m) = a :: aq)
      by congruence.
    rewrite Hqa1 in Hstep. cbn [tl] in Hstep.
    destruct (action_step Hc1 Hlast1 Hqa1)
      as (s2 & ts2 & H2 & _ & Hc2 & _ & Hsame2).
    destruct (action_step_book _ Hlast1 Hqa1 H2) as (Hid2 & Hact2 & Hready2).
    apply bind_Ok_inv in H2. destruct H2 as (s0 & H0 & H2).
    rewrite H0 in Hstep. cbn [bind] in Hstep. rewrite H2 in Hstep.
    cbn [bind] in Hstep.
    assert (Hmd2 : Sim.md s2 = Some m)
      by (destruct Hsame2 as (_ & _ & _ & _ & Hmd & _); congruence).
    destruct (orders_step Hc2 Hmd2) as (s3 & ts3 & H3 & _ & _ & _ & Hsame3).
    rewrite H3 in Hstep. cbn [bind] in Hstep. injection Hstep as <-.
    destruct (orders_step_book _ Hmd2 (proj1 Hc2) H3) as (Hid3 & Hact3 & Hready3).
    assert (Hid : Sim.order_id (Sim.delete_last_trade s3) = Sim.order_id s).
    { rewrite (proj1 (delete_last_trade_book s3 (sample_buy LIMIT))), Hid3, Hid2.
      apply after_md_counters. }
    assert (Hact' : Sim.actions_queue (Sim.delete_last_trade s3) = aq).
    { destruct (delete_last_trade_fields s3) as (_ & -> & _).
      rewrite Hact3. exact Hact2. }
    assert (Hact : place_ids (Sim.actions_queue s)
                   = place_ids [a]
                       ++ place_ids (Sim.actions_queue (Sim.delete_last_trade s3))).
    { rewrite Hact', Hqa. unfold place_ids. cbn [flat_map].
      rewrite app_nil_r. reflexivity. }
    split; [apply (ids_ok_transfer _ _ Hid Hact Hids)|].
    destruct (delete_last_trade_fields s3) as (_ & _ & _ & Hr & _).
    rewrite Hr, Hready3. split.
    + rewrite Forall_forall in *. intros item Hin. apply filter_In in Hin.
      destruct Hin as [Hin _].
      destruct (Hready2 item Hin) as [Hold|(o & -> & -> & _)].
      * apply (entry_ok_transfer _ _ Hid Hact). apply Hentries.
        destruct (after_md_fields (Sim.set_md_queue s mq) m)
          as (_ & _ & Hr1 & _).
        destruct (set_md_queue_fields s mq) as (_ & _ & _ & Hr0 & _).
        rewrite Hr1, Hr0 in Hold. exact Hold.
      * apply (new_entry_ok _ Hid Hqa Hact' Hids).
    + rewrite Forall_forall. intros item Hin. apply filter_In in Hin.
      rewrite (proj2 (delete_last_trade_book s3 (snd item))).
      rewrite (marketable_same_market (snd item) Hsame3).
      apply still_resting_not_marketable. apply Hin.
Qed.

Lemma StronglySorted_snoc {A : Type} (R : A -> A -> Prop) (l : list A) (y : A) :
  StronglySorted R l -> Forall (fun x => R x y) l -> StronglySorted R (l ++ [y]).
Proof.
  induction l as [|x l IH]; cbn [app]; intros Hs Hf.
  - constructor; constructor.
  - inversion Hs; subst. inversion Hf; subst. constructor.
    + apply IH; assumption.
    + apply Forall_app. split; [assumption|]. constructor; [assumption|constructor].
Qed.

Lemma place_ids_app (l1 l2 : list Action) :
  place_ids (l1 ++ l2) = place_ids l1 ++ place_ids l2.
Proof. unfold place_ids. apply flat_map_app. Qed.

Lemma place_order_book (s : Sim.t) ts size side price order_type :
  book_keeping s ->
  book_keeping (snd (Sim.place_order s ts size side price order_type)).
Proof.
  intros ((H0 & Hsorted & Hbound) & Hentries & Hcalm).
  destruct s as [mq aq q ready cur oid tid lat mdl bb ba tb ta lo].
  unfold Sim.place_order. sim_simpl.
  unfold book_keeping, ids_ok, entry_ok. sim_simpl.
  rewrite place_ids_app. cbn [place_ids flat_map app Order.order_id].
  repeat apply conj.
  - lia.
  - apply StronglySorted_snoc; [assumption|].
    rewrite Forall_forall in *. intros i Hi. apply Hbound. exact Hi.
  - apply Forall_app. split.
    + rewrite Forall_forall in *. intros i Hi. specialize (Hbound i Hi). lia.
    + constructor; [lia|constructor].
  - rewrite Forall_forall in *. intros item Hin.
    destruct (Hentries item Hin) as (E1 & E2 & E3). unfold entry_ok in *.
    cbn [Sim.order_id Sim.actions_queue] in *.
    split; [exact E1|]. split; [lia|].
    apply Forall_app. split; [exact E3|]. constructor; [lia|constructor].
  - exact Hcalm.
Qed.

Lemma cancel_order_book (s : Sim.t) ts id_to_delete :
  book_keeping s ->
  book_keeping (snd (Sim.cancel_order s ts id_to_delete)).
Proof.
  intros ((H0 & Hsorted & Hbound) & Hentries & Hcalm).
  destruct s as [mq aq q ready cur oid tid lat mdl bb ba tb ta lo].
  unfold Sim.cancel_order. sim_simpl.
  unfold book_keeping, ids_ok, entry_ok in *. sim_simpl.
  rewrite place_ids_app. cbn [place_ids flat_map app]. rewrite app_nil_r.
  repeat apply conj; assumption.
Qed.

Lemma reachable_book market_data lat mdl (s : Sim.t) :
  reachable market_data lat mdl s -> book_keeping s.
Proof.
  induction 1 as [| s ts size side price ty Hr IH | s ts id Hr IH
                  | s s' Hr IH Hstep | s key res q Hr IH Hpop].
  - unfold book_keeping, ids_ok. cbn.
    repeat apply conj; try constructor. lia.
  - apply place_order_book. exact IH.
  - apply cancel_order_book. exact IH.
  - apply (tick_body_book (reachable_settled Hr) IH Hstep).
  - destruct s. exact IH.
Qed.

Lemma Dict_wf_NoDup {V : Type} (d : Dict.t V) :
  Dict.wf d -> NoDup (map fst d).
Proof.
  induction d as [|[k v] d IH]; intros Hwf; cbn [map fst]; constructor.
  - apply Dict_wf_cons in Hwf. apply Hwf.
  - apply IH. apply Dict_wf_cons in Hwf. apply Hwf.
Qed.

Lemma StronglySorted_lt_NoDup (l : list Z) :
  StronglySorted Z.lt l -> NoDup l.
Proof.
  induction 1 as [|x l Hs IH Hf]; constructor; [|exact IH].
  intros Hin. rewrite Forall_forall in Hf. specialize (Hf x Hin). lia.
Qed.

Lemma NoDup_append {A : Type} (l1 l2 : list A) :
  NoDup l1 -> NoDup l2 -> (forall x, In x l1 -> ~ In x l2) -> NoDup (l1 ++ l2).
Proof.
  induction l1 as [|x l1 IH]; cbn [app]; intros H1 H2 Hd; [exact H2|].
  inversion H1; subst. constructor.
  - intros Hin. apply in_app_or in Hin. destruct Hin as [Hin|Hin].
    + contradiction.
    + apply (Hd x (or_introl eq_refl) Hin).
  - apply IH; [assumption|assumption|].
    intros y Hy. apply Hd. right. exact Hy.
Qed.

Lemma Dict_pop_keeps {V : Type} (k : Z) (d d' : Dict.t V) (item : Z * V) :
  Dict.pop k d = Ok d' -> In item d -> fst item <> k -> In item d'.
Proof.
  revert d'. induction d as [|[k' v'] d IH]; intros d'; cbn [Dict.pop];
    [discriminate|].
  destruct (Z.eqb_spec k' k) as [->|Hne].
  - intros H [Hin|Hin] Hk; injection H as <-.
    + subst item. cbn in Hk. contradiction.
    + exact Hin.
  - destruct (Dict.pop k d) as [d1|]; cbn [bind]; [|discriminate].
    intros H Hin Hk. injection H as <-. destruct Hin as [Hin|Hin].
    + left. exact Hin.
    + right. apply (IH d1 eq_refl Hin Hk).
Qed.

(** X7. Between two iterations no resting order crosses the market: every
    entry of the resting map sits under the id of its order, is not
    marketable against the best bid and ask, and would not be filled by a
    passive pass. *)
Theorem resting_orders_do_not_cross market_data lat mdl (s : Sim.t) :
  reachable market_data lat mdl s ->
  forall k o,
    In (k, o) (Sim.ready_to_execute_orders s) ->
    k = Order.order_id o
    /\ marketable s o = false
    /\ passive_venue s o = None.
Proof.
  intros Hr k o Hin.
  destruct (reachable_book Hr) as (_ & Hentries & Hcalm).
  destruct (reachable_settled Hr) as (_ & Htb & Hta & _).
  rewrite Forall_forall in Hentries, Hcalm.
  destruct (Hentries _ Hin) as (Hk & _).
  pose proof (Hcalm _ Hin) as Hm. cbn [fst snd] in Hk, Hm.
  split; [exact Hk|]. split; [exact Hm|].
  unfold passive_venue, crossed_by_trade. rewrite Hm, Htb, Hta.
  destruct (Order.side o); [reflexivity|].
  rewrite Ext_ltb_NegInf_r. reflexivity.
Qed.

(** X8. The id that [place_order] gives to a new order is the order counter;
    it differs from the id of every order resting in the engine or waiting
    in the action queue, and those are pairwise different. *)
Theorem order_ids_are_fresh market_data lat mdl (s : Sim.t)
        (ts size : Z) (side : Side) (price : ext) (order_type : OrderType) :
  reachable market_data lat mdl s ->
  let o := fst (Sim.place_order s ts size side price order_type) in
  Order.order_id o = Sim.order_id s
  /\ ~ In (Order.order_id o) (map fst (Sim.ready_to_execute_orders s))
  /\ ~ In (Order.order_id o) (place_ids (Sim.actions_queue s))
  /\ NoDup (map fst (Sim.ready_to_execute_orders s)
              ++ place_ids (Sim.actions_queue s)).
Proof.
  intros Hr o.
  destruct (reachable_book Hr) as ((_ & Hsorted & Hbound) & Hentries & _).
  destruct (reachable_settled Hr) as (_ & _ & _ & _ & Hwf).
  rewrite Forall_forall in Hentries, Hbound.
  assert (Ho : Order.order_id o = Sim.order_id s) by (destruct s; reflexivity).
  rewrite Ho. repeat apply conj.
  - reflexivity.
  - intros Hin. apply in_map_iff in Hin. destruct Hin as (item & Hk & Hin).
    destruct (Hentries _ Hin) as (_ & Hb & _). lia.
  - intros Hin. specialize (Hbound _ Hin). lia.
  - apply NoDup_append.
    + apply Dict_wf_NoDup. exact Hwf.
    + apply StronglySorted_lt_NoDup. exact Hsorted.
    + intros x Hx Hx'. apply in_map_iff in Hx. destruct Hx as (item & Hk & Hin).
      destruct (Hentries _ Hin) as (_ & _ & Hlt).
      rewrite Forall_forall in Hlt. specialize (Hlt _ Hx'). lia.
Qed.

(** X9. An iteration that pops only a cancel whose target rests removes this
    order from the resting map and nothing else: the other resting orders
    stay, no trade is generated and nothing is queued. *)
Theorem cancel_removes_resting_order market_data lat mdl (s : Sim.t)
        (c : CancelOrder.t) :
  reachable market_data lat mdl s ->
  select s = SelAction (ACancel c) ->
  Dict.mem (CancelOrder.id_to_delete c) (Sim.ready_to_execute_orders s) = true ->
  exists s',
    Sim.tick_body s = Ok (Sim.Continue s')
    /\ Dict.mem (CancelOrder.id_to_delete c) (Sim.ready_to_execute_orders s')
       = false
    /\ (forall item,
          In item (Sim.ready_to_execute_orders s') <->
          In item (Sim.ready_to_execute_orders s)
          /\ fst item <> CancelOrder.id_to_delete c)
    /\ Sim.strategy_updates_queue s' = Sim.strategy_updates_queue s
    /\ Sim.trade_id s' = Sim.trade_id s.
Proof.
  intros Hr Hsel Hmem.
  destruct (reachable_settled Hr) as (Hlast & Htb & Hta & _ & Hwf).
  destruct (Dict_pop_Ok _ _ Hmem) as (d' & Hpop & _ & _ & Hwf').
  exists (Sim.set_ready_to_execute_orders
            (Sim.set_actions_queue s (tl (Sim.actions_queue s))) d').
  split.
  - rewrite tick_body_perform, Hsel. cbn [perform].
    destruct s. sim_simpl. subst.
    cbn [Sim.update_action]. sim_simpl. rewrite Hmem, Hpop. cbn [bind].
    unfold Sim.execute_last_order. sim_simpl. reflexivity.
  - replace (Sim.ready_to_execute_orders
               (Sim.set_ready_to_execute_orders
                  (Sim.set_actions_queue s (tl (Sim.actions_queue s))) d'))
      with d' by (destruct s; reflexivity).
    split; [apply (Dict_pop_removes _ Hwf Hpop)|].
    split; [|split; destruct s; reflexivity].
    intros item. split.
    + intros Hin. split; [eapply Dict_pop_In; eassumption|].
      intros Heq. pose proof (Dict_pop_removes _ Hwf Hpop) as Hno.
      assert (Hyes : Dict.mem (CancelOrder.id_to_delete c) d' = true).
      { apply Dict_mem_In. rewrite <- Heq. apply in_map. exact Hin. }
      congruence.
    + intros [Hin Hne]. eapply Dict_pop_keeps; eassumption.
Qed.

(** ** Merging books and trades *)

Lemma key_eqb_eq (a b : LoadData.key) : LoadData.key_eqb a b = true <-> a = b.
Proof.
  unfold LoadData.key_eqb. destruct a as [a1 a2], b as [b1 b2]. cbn [fst snd].
  rewrite andb_true_iff, !Z.eqb_eq. split.
  - intros [-> ->]. reflexivity.
  - intros H. injection H as -> ->. split; reflexivity.
Qed.

Lemma key_eqb_refl (a : LoadData.key) : LoadData.key_eqb a a = true.
Proof. apply key_eqb_eq. reflexivity. Qed.

Lemma sort_key_ltb_lt (a b : LoadData.key) :
  LoadData.sort_key_ltb a b = true <-> key_lt a b.
Proof.
  unfold LoadData.sort_key_ltb, key_lt.
  rewrite orb_true_iff, andb_true_iff, !Z.ltb_lt, Z.eqb_eq. reflexivity.
Qed.

Lemma key_lt_trans (a b c : LoadData.key) :
  key_lt a b -> key_lt b c -> key_lt a c.
Proof. unfold key_lt. lia. Qed.

Lemma key_lt_total (a b : LoadData.key) :
  LoadData.sort_key_ltb a b = false -> LoadData.key_eqb a b = false ->
  key_lt b a.
Proof.
  intros H1 H2.
  assert (N1 : ~ key_lt a b)
    by (intros H; apply sort_key_ltb_lt in H; congruence).
  assert (N2 : a <> b) by (intros H; apply key_eqb_eq in H; congruence).
  unfold key_lt in *. destruct a as [a1 a2], b as [b1 b2]. cbn [fst snd] in *.
  destruct (Z.eq_dec a2 b2) as [->|]; [|lia].
  destruct (Z.eq_dec a1 b1) as [->|]; [contradiction N2; reflexivity|lia].
Qed.

Lemma insert_key_In (k : LoadData.key) (l : list LoadData.key) :
  forall x, In x (LoadData.insert_key k l) <-> x = k \/ In x l.
Proof.
  induction l as [|k' l IH]; intros x; cbn [LoadData.insert_key In].
  - intuition.
  - destruct (LoadData.sort_key_ltb k k'); cbn [In]; [intuition|].
    destruct (LoadData.key_eqb k k') eqn:E; cbn [In].
    + apply key_eqb_eq in E. subst. intuition.
    + rewrite IH. intuition.
Qed.

Lemma insert_key_sorted (k : LoadData.key) (l : list LoadData.key) :
  StronglySorted key_lt l -> StronglySorted key_lt (LoadData.insert_key k l).
Proof.
  induction l as [|k' l IH]; intros Hs; cbn [LoadData.insert_key].
  - constructor; constructor.
  - inversion Hs as [|? ? Hs' Hf]; subst.
    destruct (LoadData.sort_key_ltb k k') eqn:E1.
    + apply sort_key_ltb_lt in E1. constructor; [exact Hs|].
      constructor; [exact E1|].
      rewrite Forall_forall in *. intros x Hx.
      apply (key_lt_trans E1). apply Hf. exact Hx.
    + destruct (LoadData.key_eqb k k') eqn:E2; [exact Hs|].
      constructor; [apply IH; exact Hs'|].
      rewrite Forall_forall in *. intros x Hx.
      apply insert_key_In in Hx. destruct Hx as [->|Hx].
      * apply key_lt_total; assumption.
      * apply Hf. exact Hx.
Qed.

Lemma sorted_keys_spec (ks : list LoadData.key) :
  StronglySorted key_lt (LoadData.sorted_keys ks)
  /\ forall x, In x (LoadData.sorted_keys ks) <-> In x ks.
Proof.
  induction ks as [|k ks [IHs IHin]]; cbn [LoadData.sorted_keys fold_right].
  - split; [constructor|reflexivity].
  - split; [apply insert_key_sorted; exact IHs|].
    intros x. rewrite insert_key_In.
    change (fold_right LoadData.insert_key [] ks) with (LoadData.sorted_keys ks).
    rewrite IHin. cbn [In]. intuition.
Qed.

Lemma dict_get_set {V : Type} (k k' : LoadData.key) (v : V)
      (d : list (LoadData.key * V)) :
  LoadData.dict_get k (LoadData.dict_set k' v d)
  = if LoadData.key_eqb k' k then Some v else LoadData.dict_get k d.
Proof.
  induction d as [|[k0 v0] d IH]; cbn [LoadData.dict_set LoadData.dict_get].
  - reflexivity.
  - destruct (LoadData.key_eqb k0 k') eqn:E; cbn [LoadData.dict_get].
    + apply key_eqb_eq in E. subst k0.
      destruct (LoadData.key_eqb k' k); reflexivity.
    + destruct (LoadData.key_eqb k0 k) eqn:E0; [|exact IH].
      apply key_eqb_eq in E0. subst k0.
      destruct (LoadData.key_eqb k' k) eqn:E1; [|reflexivity].
      apply key_eqb_eq in E1. subst k'. rewrite key_eqb_refl in E. discriminate.
Qed.

Lemma dict_set_keys {V : Type} (k' : LoadData.key) (v : V)
      (d : list (LoadData.key * V)) :
  forall k, In k (map fst (LoadData.dict_set k' v d))
            <-> k = k' \/ In k (map fst d).
Proof.
  induction d as [|[k0 v0] d IH]; intros k;
    cbn [LoadData.dict_set map fst In].
  - intuition.
  - destruct (LoadData.key_eqb k0 k') eqn:E; cbn [map fst In].
    + apply key_eqb_eq in E. subst. intuition.
    + rewrite IH. intuition.
Qed.

Lemma find_append {A : Type} (f : A -> bool) (l1 l2 : list A) :
  find f (l1 ++ l2)
  = match find f l1 with
    | Some x => Some x
    | None => find f l2
    end.
Proof.
  induction l1 as [|x l1 IH]; cbn [app find]; [reflexivity|].
  destruct (f x); [reflexivity|exact IH].
Qed.

Lemma dict_of_get {V : Type} (key_of : V -> LoadData.key) (l : list V)
      (k : LoadData.key) :
  LoadData.dict_get k (LoadData.dict_of key_of l) = last_with_key key_of k l.
Proof.
  unfold LoadData.dict_of, last_with_key.
  assert (G : forall d,
             LoadData.dict_get k
               (fold_left (fun d x => LoadData.dict_set (key_of x) x d) l d)
             = match find (fun x => LoadData.key_eqb (key_of x) k) (rev l) with
               | Some x => Some x
               | None => LoadData.dict_get k d
               end).
  { induction l as [|x l IH]; intros d; cbn [fold_left rev find].
    - reflexivity.
    - rewrite IH, find_append.
      destruct (find _ (rev l)); [reflexivity|].
      cbn [find]. rewrite dict_get_set.
      destruct (LoadData.key_eqb (key_of x) k); reflexivity. }
  rewrite G. destruct (find _ (rev l)); reflexivity.
Qed.

Lemma dict_of_keys {V : Type} (key_of : V -> LoadData.key) (l : list V) :
  forall k, In k (map fst (LoadData.dict_of key_of l)) <-> In k (map key_of l).
Proof.
  unfold LoadData.dict_of.
  assert (G : forall d k,
             In k (map fst (fold_left
                              (fun d x => LoadData.dict_set (key_of x) x d) l d))
             <-> In k (map key_of l) \/ In k (map fst d)).
  { induction l as [|x l IH]; intros d k; cbn [fold_left map In].
    - intuition.
    - rewrite IH, dict_set_keys. intuition. }
  intros k. rewrite G. cbn [map In]. intuition.
Qed.

Lemma last_with_key_Some {V : Type} (key_of : V -> LoadData.key)
      (k : LoadData.key) (l : list V) (x : V) :
  last_with_key key_of k l = Some x -> In x l /\ key_of x = k.
Proof.
  unfold last_with_key. intros H. apply find_some in H.
  destruct H as [Hin Hk]. split; [apply in_rev; exact Hin|].
  apply key_eqb_eq. exact Hk.
Qed.

Lemma last_with_key_None {V : Type} (key_of : V -> LoadData.key)
      (k : LoadData.key) (l : list V) :
  last_with_key key_of k l = None <-> ~ In k (map key_of l).
Proof.
  unfold last_with_key. split.
  - intros H Hin. apply in_map_iff in Hin. destruct Hin as (x & Hk & Hin).
    apply in_rev in Hin.
    pose proof (find_none _ _ H x Hin) as Hn. cbn beta in Hn.
    rewrite Hk, key_eqb_refl in Hn. discriminate.
  - intros Hn. destruct (find _ (rev l)) as [x|] eqn:E; [|reflexivity].
    apply find_some in E. destruct E as [Hin Hk]. exfalso. apply Hn.
    apply key_eqb_eq in Hk. rewrite <- Hk. apply in_map. apply in_rev. exact Hin.
Qed.

Lemma merge_keys (books : list OrderbookSnapshotUpdate.t)
      (trades : list AnonTrade.t) :
  map md_key (LoadData.merge_books_and_trades books trades)
  = LoadData.sorted_keys
      (map fst (LoadData.dict_of LoadData.trade_key trades)
         ++ map fst (LoadData.dict_of LoadData.book_key books)).
Proof.
  unfold LoadData.merge_books_and_trades. rewrite map_map.
  cbn [md_key MdUpdate.exchange_ts MdUpdate.receive_ts].
  rewrite <- (map_id (LoadData.sorted_keys _)) at 2.
  apply map_ext. intros [e r]. reflexivity.
Qed.

Lemma StronglySorted_map {A B : Type} (R : B -> B -> Prop) (S : A -> A -> Prop)
      (f : A -> B) (l : list A) :
  (forall x y, R (f x) (f y) -> S x y) ->
  StronglySorted R (map f l) -> StronglySorted S l.
Proof.
  intros HRS. induction l as [|x l IH]; cbn [map]; intros H; [constructor|].
  inversion H as [|? ? Hs Hf]; subst. constructor; [apply IH; exact Hs|].
  rewrite Forall_forall in *. intros y Hy. apply HRS. apply Hf.
  apply in_map. exact Hy.
Qed.

Lemma merge_keys_sorted (books : list OrderbookSnapshotUpdate.t)
      (trades : list AnonTrade.t) :
  StronglySorted key_lt
    (map md_key (LoadData.merge_books_and_trades books trades)).
Proof. rewrite merge_keys. apply sorted_keys_spec. Qed.

Lemma merge_md_sorted (books : list OrderbookSnapshotUpdate.t)
      (trades : list AnonTrade.t) :
  md_sorted (LoadData.merge_books_and_trades books trades).
Proof.
  unfold md_sorted.
  apply (StronglySorted_map _ md_key (R := key_lt));
    [|apply merge_keys_sorted].
  intros x y. unfold key_lt, md_key. cbn [fst snd]. lia.
Qed.

(** X10. The merged market data is in strictly ascending order of (receive
    timestamp, exchange timestamp): no two updates have both timestamps in
    common, and the list is in the order of the receive timestamps, which
    is the order the engine needs. *)
Theorem merge_is_sorted (books : list OrderbookSnapshotUpdate.t)
        (trades : list AnonTrade.t) :
  let md := LoadData.merge_books_and_trades books trades in
  StronglySorted key_lt (map md_key md)
  /\ NoDup (map md_key md)
  /\ md_sorted md.
Proof.
  intros md. subst md.
  pose proof (merge_keys_sorted books trades) as Hs.
  split; [exact Hs|]. split.
  - clear -Hs. induction Hs as [|x l Hs IH Hf]; constructor; [|exact IH].
    intros Hin. rewrite Forall_forall in Hf. specialize (Hf x Hin).
    unfold key_lt in Hf. lia.
  - apply merge_md_sorted.
Qed.

(** X11. The merged market data has one update for every pair of timestamps
    that a book or a trade carries, and no other; the update carries the
    last book of the input with this pair of timestamps and the last trade
    with it, or none where there is none, and never neither of the two. *)
Theorem merge_contents (books : list OrderbookSnapshotUpdate.t)
        (trades : list AnonTrade.t) (u : MdUpdate.t) :
  In u (LoadData.merge_books_and_trades books trades) <->
  (In (md_key u) (map LoadData.book_key books)
   \/ In (md_key u) (map LoadData.trade_key trades))
  /\ MdUpdate.orderbook u = last_with_key LoadData.book_key (md_key u) books
  /\ MdUpdate.trade u = last_with_key LoadData.trade_key (md_key u) trades.
Proof.
  unfold LoadData.merge_books_and_trades. rewrite in_map_iff. split.
  - intros (k & <- & Hin).
    apply (proj1 (proj2 (sorted_keys_spec _) _)) in Hin.
    apply in_app_or in Hin. rewrite !dict_of_keys in Hin.
    unfold md_key. cbn [MdUpdate.exchange_ts MdUpdate.receive_ts
                          MdUpdate.orderbook MdUpdate.trade].
    replace (fst k, snd k) with k by (destruct k; reflexivity).
    rewrite !dict_of_get. split; [tauto|]. split; reflexivity.
  - intros (Hin & Hb & Ht). exists (md_key u). split.
    + rewrite !dict_of_get, <- Hb, <- Ht. destruct u; reflexivity.
    + apply (proj2 (proj2 (sorted_keys_spec _) _)).
      apply in_or_app. rewrite !dict_of_keys. tauto.
Qed.


(** ** Fills, seen from the tick loop *)

(** X13. A resting order that the next update makes marketable is filled in the
    iteration that applies this update: it leaves the resting map, and a
    MAKER trade on BOOK at its limit price, under its key, is queued for
    the exchange timestamp of the update plus the market-data latency. *)
Theorem resting_order_filled_by_update market_data lat mdl (s : Sim.t)
        (m : MdUpdate.t) (k : Z) (o : Order.t) :
  reachable market_data lat mdl s ->
  select s = SelMd m ->
  In (k, o) (Sim.ready_to_execute_orders s) ->
  marketable (after_md (Sim.set_md_queue s (tl (Sim.md_queue s))) m) o = true ->
  exists s' tid,
    Sim.tick_body s = Ok (Sim.Continue s')
    /\ ~ In (k, o) (Sim.ready_to_execute_orders s')
    /\ In (UTrade
             (OwnTrade.mk (Order.place_ts o) (MdUpdate.exchange_ts m)
                (MdUpdate.exchange_ts m + Sim.md_latency s) tid k
                (Order.side o) (Order.size o) (Order.price o) MAKER BOOK))
          (PriorQueue.contents (Sim.strategy_updates_queue s')).
Proof.
  intros Hr Hsel Hin Hm.
  destruct (reachable_settled Hr) as (_ & _ & _ & _ & Hwf).
  destruct (@select_md s m (or_intror Hsel)) as [mq [Hq _]].
  rewrite Hq in Hm. cbn [tl] in Hm.
  set (A := after_md (Sim.set_md_queue s mq) m) in *.
  destruct (after_md_facts s m mq Hwf) as (Hc1 & Hmd1 & _ & _).
  fold A in Hc1, Hmd1.
  assert (HrA : Sim.ready_to_execute_orders A = Sim.ready_to_execute_orders s).
  { subst A.
    destruct (after_md_fields (Sim.set_md_queue s mq) m) as (_ & _ & -> & _).
    destruct (set_md_queue_fields s mq) as (_ & _ & _ & -> & _). reflexivity. }
  assert (HlA : Sim.md_latency A = Sim.md_latency s).
  { subst A.
    destruct (after_md_fields (Sim.set_md_queue s mq) m)
      as (_ & _ & _ & _ & _ & _ & -> & _).
    destruct (set_md_queue_fields s mq) as (_ & _ & _ & _ & _ & _ & -> & _).
    reflexivity. }
  assert (Hv : passive_venue A o = Some BOOK)
    by (unfold passive_venue; rewrite Hm; reflexivity).
  rewrite <- HrA in Hin.
  destruct (@maker_trades_complete A m _ k o BOOK (Sim.trade_id A) Hin Hv)
    as [tid Ht].
  set (ts := maker_trades A m (Sim.trade_id A) (Sim.ready_to_execute_orders A)) in *.
  exists (Sim.delete_last_trade
            (Sim.set_ready_to_execute_orders (with_trades A ts)
               (filter (still_resting A) (Sim.ready_to_execute_orders A)))), tid.
  split; [|split].
  - rewrite tick_body_perform, Hsel. cbn [perform]. rewrite Hq. cbn [tl].
    rewrite update_md_eq. cbn [bind]. fold A.
    rewrite (execute_orders_eq A Hmd1 (proj1 Hc1)). reflexivity.
  - replace (Sim.ready_to_execute_orders
               (Sim.delete_last_trade
                  (Sim.set_ready_to_execute_orders (with_trades A ts)
                     (filter (still_resting A) (Sim.ready_to_execute_orders A)))))
      with (filter (still_resting A) (Sim.ready_to_execute_orders A))
      by (destruct A; reflexivity).
    intros Hf. apply filter_In in Hf. destruct Hf as [_ Hf].
    unfold still_resting in Hf. cbn [snd] in Hf. rewrite Hv in Hf. discriminate.
  - replace (Sim.strategy_updates_queue
               (Sim.delete_last_trade
                  (Sim.set_ready_to_execute_orders (with_trades A ts)
                     (filter (still_resting A) (Sim.ready_to_execute_orders A)))))
      with (push_trades (Sim.strategy_updates_queue A) ts)
      by (destruct A; reflexivity).
    apply (Permutation_in _ (Permutation_sym (push_trades_contents ts _))).
    apply in_or_app. right.
    unfold maker_trade in Ht. rewrite HlA in Ht.
    apply (in_map UTrade) in Ht. exact Ht.
Qed.

(** X14. A marketable LIMIT order is filled in the iteration that pops its place
    action: a TAKER trade on BOOK at the touch is queued for the exchange
    timestamp of the update applied last, not of a later one, plus the
    market-data latency; the resting map is unchanged and the trade counter
    goes up by one. *)
Theorem placed_marketable_limit_fills market_data lat mdl (s : Sim.t)
        (m : MdUpdate.t) (o : Order.t) :
  reachable market_data lat mdl s ->
  select s = SelAction (APlace o) ->
  Sim.md s = Some m ->
  Order.type o = LIMIT ->
  marketable s o = true ->
  exists s',
    Sim.tick_body s = Ok (Sim.Continue s')
    /\ Sim.strategy_updates_queue s'
       = PriorQueue.push (MdUpdate.exchange_ts m + Sim.md_latency s)
           (UTrade
              (OwnTrade.mk (Order.place_ts o) (MdUpdate.exchange_ts m)
                 (MdUpdate.exchange_ts m + Sim.md_latency s) (Sim.trade_id s)
                 (Order.order_id o) (Order.side o) (Order.size o)
                 (touch s o) TAKER BOOK))
           (Sim.strategy_updates_queue s)
    /\ Sim.ready_to_execute_orders s' = Sim.ready_to_execute_orders s
    /\ Sim.trade_id s' = Sim.trade_id s + 1
    /\ Sim.last_order s' = None.
Proof.
  intros Hr Hsel Hmd Hty Hm.
  destruct (reachable_settled Hr) as (Hlast & _).
  destruct (@select_action s _ (or_intror Hsel)) as [aq [Hq _]].
  rewrite tick_body_perform, Hsel. cbn [perform Sim.update_action bind].
  rewrite Hq. cbn [tl].
  destruct s as [mq aq0 q ready cur oid tid lat0 mdl0 bb ba tb ta lo].
  sim_simpl. subst. unfold Sim.execute_last_order. sim_simpl.
  rewrite aggressive_price_marketable.
  unfold marketable, touch in *. sim_simpl. rewrite Hm, Hty.
  cbn [Sim.current_md Sim.md bind]. sim_simpl.
  eexists. split; [reflexivity|]. sim_simpl.
  repeat apply conj; reflexivity.
Qed.

(** X15. A placed order that is not marketable when its place action is popped
    rests, whatever its type and whether or not an update was applied
    before: the iteration puts it into the resting map under its id and
    does nothing else; no trade is generated and nothing is queued. *)
Theorem placed_unmarketable_order_rests market_data lat mdl (s : Sim.t)
        (o : Order.t) :
  reachable market_data lat mdl s ->
  select s = SelAction (APlace o) ->
  marketable s o = false ->
  exists s',
    Sim.tick_body s = Ok (Sim.Continue s')
    /\ Sim.ready_to_execute_orders s'
       = Dict.set (Order.order_id o) o (Sim.ready_to_execute_orders s)
    /\ Sim.strategy_updates_queue s' = Sim.strategy_updates_queue s
    /\ Sim.trade_id s' = Sim.trade_id s
    /\ Sim.md_queue s' = Sim.md_queue s
    /\ Sim.last_order s' = None.
Proof.
  intros Hr Hsel Hm.
  destruct (reachable_settled Hr) as (Hlast & _).
  destruct (@select_action s _ (or_intror Hsel)) as [aq [Hq _]].
  rewrite tick_body_perform, Hsel. cbn [perform Sim.update_action bind].
  rewrite Hq. cbn [tl].
  destruct s as [mq aq0 q ready cur oid tid lat0 mdl0 bb ba tb ta lo].
  sim_simpl. subst. unfold Sim.execute_last_order. sim_simpl.
  rewrite aggressive_price_marketable.
  unfold marketable in *. sim_simpl. rewrite Hm.
  cbn [bind]. sim_simpl.
  eexists. split; [reflexivity|]. sim_simpl.
  repeat apply conj; reflexivity.
Qed.

(** ** Delivery and best prices over a run *)



(** C9. In every state of a run, between two iterations of the tick loop,
    the engine has consumed the first [n] updates of the market data, for
    some [n], and its best bid and ask are those obtained by replaying the
    best-price tracker, from minus and plus infinity, over these [n]
    updates: they are the last row of the data frame that [md_to_dataframe]
    builds from them, and row [n - 1] of the data frame it builds from the
    whole market data.  This holds whatever actions are submitted, so in
    particular when none is. *)
Theorem best_prices_refine_tracker market_data lat mdl (s : Sim.t) :
  reachable market_data lat mdl s ->
  exists n,
    (n <= length market_data)%nat
    /\ Sim.md_queue s = skipn n market_data
    /\ (Sim.best_bid s, Sim.best_ask s)
       = replay_best (NegInf, PosInf) (firstn n market_data)
    /\ Sim.best_bid s
       = last (GetInfo.bid_price
                 (GetInfo.md_to_dataframe (firstn n market_data))) NegInf
    /\ Sim.best_ask s
       = last (GetInfo.ask_price
                 (GetInfo.md_to_dataframe (firstn n market_data))) PosInf
    /\ (forall i, n = S i ->
          Sim.best_bid s
          = nth i (GetInfo.bid_price (GetInfo.md_to_dataframe market_data))
                NegInf
          /\ Sim.best_ask s
             = nth i (GetInfo.ask_price (GetInfo.md_to_dataframe market_data))
                   PosInf)
    /\ (n = 0%nat -> Sim.best_bid s = NegInf /\ Sim.best_ask s = PosInf).
Proof.
  intros Hr. destruct (reachable_consumed Hr) as (done & H1 & H2).
  assert (Hfirst : firstn (length done) market_data = done).
  { rewrite H1, firstn_app, firstn_all, Nat.sub_diag, firstn_O.
    apply app_nil_r. }
  exists (length done).
  split; [rewrite H1, length_app; lia|].
  split; [rewrite H1, skipn_app, skipn_all, Nat.sub_diag; reflexivity|].
  rewrite Hfirst. split; [exact H2|].
  split; [|split; [|split]].
  - unfold GetInfo.md_to_dataframe. rewrite md_loop_trace.
    cbn [app GetInfo.bid_price].
    change NegInf with (fst (NegInf, PosInf)) at 2.
    rewrite last_map, replay_trace_last, <- H2. reflexivity.
  - unfold GetInfo.md_to_dataframe. rewrite md_loop_trace.
    cbn [app GetInfo.ask_price].
    change PosInf with (snd (NegInf, PosInf)) at 2.
    rewrite last_map, replay_trace_last, <- H2. reflexivity.
  - intros i Hn.
    assert (Hi : (i < length market_data)%nat)
      by (rewrite H1, length_app; lia).
    unfold GetInfo.md_to_dataframe. rewrite md_loop_trace.
    cbn [app GetInfo.bid_price GetInfo.ask_price].
    pose proof (nth_map_pair (replay_trace (NegInf, PosInf) market_data) i
                  (NegInf, PosInf)) as Hrow.
    cbn [fst snd] in Hrow.
    rewrite (replay_trace_nth market_data (NegInf, PosInf) Hi) in Hrow.
    rewrite <- Hn, Hfirst, <- H2 in Hrow.
    injection Hrow as -> ->. split; reflexivity.
  - intros Hn. destruct done; [|discriminate].
    cbn in H2. injection H2 as -> ->. split; reflexivity.
Qed.

(** ** The theorems at the sample data *)

Lemma execute_last_order_limit_witness :
  Sim.last_order (sample_pending LIMIT) = Some (sample_buy LIMIT)
  /\ Order.type (sample_buy LIMIT) = LIMIT
  /\ Sim.md (sample_pending LIMIT) = Some (book_update 0 1 99 101)
  /\ marketable (sample_pending LIMIT) (sample_buy LIMIT) = true
  /\ exists s',
       Sim.execute_last_order (sample_pending LIMIT) = Ok s'
       /\ Sim.strategy_updates_queue s'
          = PriorQueue.push 2
              (UTrade (OwnTrade.mk 1 0 2 0 0 BID 7 (Fin 101) TAKER BOOK))
              (Sim.strategy_updates_queue (sample_pending LIMIT))
       /\ Sim.trade_id s' = 1
       /\ Sim.ready_to_execute_orders s' = []
       /\ Sim.last_order s' = None.
Proof.
  split; [reflexivity|]. split; [reflexivity|]. split; [reflexivity|].
  split; [reflexivity|].
  destruct (@execute_last_order_limit (sample_pending LIMIT)
              (sample_buy LIMIT) (book_update 0 1 99 101)
              eq_refl eq_refl eq_refl)
    as (s' & Hexec & _ & _ & Hfill & _ & Hlast & _).
  destruct (Hfill eq_refl) as (Hq & Htid & Hready).
  exists s'. split; [exact Hexec|]. split; [exact Hq|].
  split; [exact Htid|]. split; [exact Hready|exact Hlast].
Defined.

Lemma execute_last_order_post_only_witness :
  Sim.last_order (sample_pending POST_ONLY) = Some (sample_buy POST_ONLY)
  /\ Order.type (sample_buy POST_ONLY) = POST_ONLY
  /\ marketable (sample_pending POST_ONLY) (sample_buy POST_ONLY) = true
  /\ Sim.execute_last_order (sample_pending POST_ONLY)
     = Ok (Sim.set_last_order (sample_pending POST_ONLY) None).
Proof.
  split; [reflexivity|]. split; [reflexivity|]. split; [reflexivity|].
  exact (proj1 (@execute_last_order_post_only (sample_pending POST_ONLY)
                  (sample_buy POST_ONLY) eq_refl eq_refl eq_refl)).
Defined.

Lemma execute_orders_pass_witness :
  Sim.md sample_resting = Some (book_update 20 21 99 94)
  /\ Dict.wf (Sim.ready_to_execute_orders sample_resting)
  /\ exists s',
       Sim.execute_orders sample_resting = Ok s'
       /\ Sim.ready_to_execute_orders s'
          = [(1, Order.mk 1 6 1 ASK 3 (Fin 120) LIMIT)]
       /\ Sim.strategy_updates_queue s'
          = push_trades (Sim.strategy_updates_queue sample_resting)
              [OwnTrade.mk 1 20 22 0 0 BID 7 (Fin 95) MAKER BOOK]
       /\ Sim.trade_id s' = 1.
Proof.
  split; [reflexivity|]. split; [reflexivity|].
  destruct (@execute_orders_pass sample_resting (book_update 20 21 99 94)
              eq_refl eq_refl)
    as (s' & Hexec & _ & Hready & Hqueue & _ & Htid & _).
  exists s'. split; [exact Hexec|]. split; [exact Hready|].
  split; [exact Hqueue|exact Htid].
Defined.

Lemma iteration_runs_matching_witness :
  reachable sample_crossing_md 5 2 sample_bid_rested
  /\ select sample_bid_rested = SelMd (book_update 0 1 90 94)
  /\ In (0, Order.mk (-10) (-5) 0 BID 7 (Fin 95) LIMIT)
        (Sim.ready_to_execute_orders sample_bid_rested)
  /\ exists s',
       Sim.tick_body sample_bid_rested = Ok (Sim.Continue s')
       /\ Sim.ready_to_execute_orders s' = []
       /\ Sim.trade_id s' = 1
       /\ exists tid,
            In (UTrade
                  (OwnTrade.mk (-10) 0 2 tid 0 BID 7 (Fin 95) MAKER BOOK))
               (PriorQueue.contents (Sim.strategy_updates_queue s')).
Proof.
  assert (Hr : reachable sample_crossing_md 5 2 sample_bid_rested).
  { apply (@reach_iteration sample_crossing_md 5 2 sample_bid_placed
             sample_bid_rested).
    - apply reach_place, reach_init.
    - vm_compute. reflexivity. }
  assert (Hsel : select sample_bid_rested = SelMd (book_update 0 1 90 94))
    by (vm_compute; reflexivity).
  assert (Hin : In (0, Order.mk (-10) (-5) 0 BID 7 (Fin 95) LIMIT)
                   (Sim.ready_to_execute_orders sample_bid_rested))
    by (vm_compute; left; reflexivity).
  split; [exact Hr|]. split; [exact Hsel|]. split; [exact Hin|].
  destruct (iteration_runs_matching Hr) as (_ & _ & _ & _ & Hmd & _).
  destruct (Hmd (book_update 0 1 90 94) None Hsel)
    as (s2 & s' & _ & _ & Hnone & _ & _ & _ & _ & _ & _ & _ & _ & _ & _
        & Htick & Hready & Hfill & _ & Htid & _).
  specialize (Hnone eq_refl). subst s2.
  exists s'. split; [exact Htick|]. split; [exact Hready|].
  split; [exact Htid|].
  exact (proj2 (Hfill 0 (Order.mk (-10) (-5) 0 BID 7 (Fin 95) LIMIT) Hin)).
Defined.

Lemma place_resolved_at_once_witness :
  reachable sample_md 5 2 sample_placed
  /\ Sim.last_order sample_placed = None.
Proof.
  assert (Hr : reachable sample_md 5 2 sample_placed)
    by (apply reach_place, reach_init).
  split; [exact Hr|].
  exact (proj1 (place_resolved_at_once Hr)).
Defined.

Lemma cancel_unknown_noop_witness :
  reachable sample_md 5 2 sample_cancelled
  /\ Dict.mem 42 (Sim.ready_to_execute_orders sample_cancelled) = false
  /\ Sim.tick_body sample_cancelled
     = Ok (Sim.Continue
             (Sim.set_actions_queue sample_cancelled
                (tl (Sim.actions_queue sample_cancelled)))).
Proof.
  assert (Hr : reachable sample_md 5 2 sample_cancelled)
    by (apply reach_cancel, reach_init).
  split; [exact Hr|]. split; [reflexivity|].
  exact (proj1 (proj2 (cancel_unknown_noop (CancelOrder.mk (-5) 42) Hr eq_refl))
           eq_refl).
Defined.

Lemma place_before_first_md_witness :
  reachable sample_md 5 2 sample_placed
  /\ Sim.md sample_placed = None
  /\ select sample_placed
     = SelAction (APlace (Order.mk (-10) (-5) 0 BID 7 (Fin 102) LIMIT))
  /\ Sim.best_bid sample_placed = NegInf
  /\ Sim.best_ask sample_placed = PosInf
  /\ exists s',
       Sim.tick_body sample_placed = Ok (Sim.Continue s')
       /\ Sim.ready_to_execute_orders s'
          = Dict.set 0 (Order.mk (-10) (-5) 0 BID 7 (Fin 102) LIMIT)
              (Sim.ready_to_execute_orders sample_placed)
       /\ In (0, Order.mk (-10) (-5) 0 BID 7 (Fin 102) LIMIT)
             (Sim.ready_to_execute_orders s')
       /\ Sim.strategy_updates_queue s'
          = Sim.strategy_updates_queue sample_placed
       /\ Sim.trade_id s' = Sim.trade_id sample_placed.
Proof.
  assert (Hr : reachable sample_md 5 2 sample_placed)
    by (apply reach_place, reach_init).
  assert (Hsel : select sample_placed
                 = SelAction (APlace (Order.mk (-10) (-5) 0 BID 7 (Fin 102) LIMIT)))
    by (vm_compute; reflexivity).
  split; [exact Hr|]. split; [reflexivity|]. split; [exact Hsel|].
  destruct (@place_before_first_md sample_md 5 2 sample_placed Hr eq_refl)
    as (Hb & Ha & _ & Ho).
  split; [exact Hb|]. split; [exact Ha|].
  destruct (Ho (Order.mk (-10) (-5) 0 BID 7 (Fin 102) LIMIT))
    as (_ & _ & _ & Htick).
  destruct (Htick Hsel) as (s' & H1 & H2 & H3 & H4 & H5 & _).
  exists s'. split; [exact H1|]. split; [exact H2|]. split; [exact H3|].
  split; [exact H4|exact H5].
Defined.

Lemma sample_ticked_reachable : reachable sample_md 5 2 sample_ticked.
Proof.
  apply (@tick_reachable sample_md 5 2 sample_engine sample_ticked 1
           [UMd (book_update 0 1 99 101)] (reach_init sample_md 5 2)).
  vm_compute. reflexivity.
Defined.

Lemma sample_bid_rested_reachable :
  reachable sample_crossing_md 5 2 sample_bid_rested.
Proof.
  apply (@reach_iteration sample_crossing_md 5 2 sample_bid_placed
           sample_bid_rested).
  - apply reach_place, reach_init.
  - vm_compute. reflexivity.
Defined.

Lemma engine_best_matches_dataframe_witness :
  exists batches s,
    run [CallTick; CallTick] sample_engine = Ok (batches, s)
    /\ exists consumed,
         sample_md = consumed ++ Sim.md_queue s
         /\ Sim.best_bid s
            = last (GetInfo.bid_price (GetInfo.md_to_dataframe consumed)) NegInf
         /\ Sim.best_ask s
            = last (GetInfo.ask_price (GetInfo.md_to_dataframe consumed)) PosInf.
Proof.
  assert (H : exists batches s,
             run [CallTick; CallTick] (Sim.init sample_md 5 2) = Ok (batches, s))
    by (vm_compute; eexists; eexists; reflexivity).
  destruct H as (batches & s & H). exists batches, s. split; [exact H|].
  exact (@engine_best_matches_dataframe sample_md 5 2 _ _ _ H).
Defined.

Lemma tick_returns_or_is_exhausted_witness :
  reachable sample_md 5 2 sample_engine
  /\ ((exists key res s',
          Sim.tick sample_engine = Ok (key, res, s')
          /\ Forall (fun u => Update_receive_ts u = key) res
          /\ reachable sample_md 5 2 s')
      \/ (Sim.tick sample_engine = Raise IndexError
          /\ exists s1,
               Sim.tick_loop (Sim.tick_fuel sample_engine) sample_engine = Ok s1
               /\ exhausted s1)).
Proof.
  split; [apply reach_init|].
  exact (@tick_returns_or_is_exhausted sample_md 5 2 sample_engine
           (reach_init sample_md 5 2)).
Defined.

Lemma tick_conserves_notifications_witness :
  reachable sample_md 5 2 sample_engine
  /\ Sim.tick sample_engine
     = Ok (1, [UMd (book_update 0 1 99 101)], sample_ticked)
  /\ exists mds acts trades,
       Sim.md_queue sample_engine = mds ++ Sim.md_queue sample_ticked
       /\ Sim.actions_queue sample_engine = acts ++ Sim.actions_queue sample_ticked
       /\ Permutation
            ([UMd (book_update 0 1 99 101)]
               ++ PriorQueue.contents (Sim.strategy_updates_queue sample_ticked))
            (PriorQueue.contents (Sim.strategy_updates_queue sample_engine)
               ++ map UMd mds ++ map UTrade trades)
       /\ map OwnTrade.trade_id trades
          = zrange (Sim.trade_id sample_engine) (length trades)
       /\ Sim.trade_id sample_ticked
          = Sim.trade_id sample_engine + Z.of_nat (length trades).
Proof.
  assert (Ht : Sim.tick sample_engine
               = Ok (1, [UMd (book_update 0 1 99 101)], sample_ticked))
    by (vm_compute; reflexivity).
  split; [apply reach_init|]. split; [exact Ht|].
  exact (@tick_conserves_notifications sample_md 5 2 sample_engine
           sample_ticked 1 _ (reach_init sample_md 5 2) Ht).
Defined.




Lemma resting_orders_do_not_cross_witness :
  reachable sample_crossing_md 5 2 sample_bid_rested
  /\ In (0, Order.mk (-10) (-5) 0 BID 7 (Fin 95) LIMIT)
        (Sim.ready_to_execute_orders sample_bid_rested)
  /\ 0 = Order.order_id (Order.mk (-10) (-5) 0 BID 7 (Fin 95) LIMIT)
  /\ marketable sample_bid_rested (Order.mk (-10) (-5) 0 BID 7 (Fin 95) LIMIT)
     = false
  /\ passive_venue sample_bid_rested
       (Order.mk (-10) (-5) 0 BID 7 (Fin 95) LIMIT) = None.
Proof.
  assert (Hin : In (0, Order.mk (-10) (-5) 0 BID 7 (Fin 95) LIMIT)
                   (Sim.ready_to_execute_orders sample_bid_rested))
    by (vm_compute; left; reflexivity).
  split; [exact sample_bid_rested_reachable|]. split; [exact Hin|].
  exact (@resting_orders_do_not_cross sample_crossing_md 5 2 sample_bid_rested
           sample_bid_rested_reachable _ _ Hin).
Defined.

Lemma order_ids_are_fresh_witness :
  reachable sample_crossing_md 5 2 sample_bid_rested
  /\ Order.order_id
       (fst (Sim.place_order sample_bid_rested 3 1 ASK (Fin 120) POST_ONLY))
     = Sim.order_id sample_bid_rested.
Proof.
  split; [exact sample_bid_rested_reachable|].
  exact (proj1 (@order_ids_are_fresh sample_crossing_md 5 2 sample_bid_rested
                  3 1 ASK (Fin 120) POST_ONLY sample_bid_rested_reachable)).
Defined.

Lemma cancel_removes_resting_order_witness :
  reachable sample_crossing_md 5 2 sample_bid_cancelled
  /\ select sample_bid_cancelled = SelAction (ACancel (CancelOrder.mk (-3) 0))
  /\ Dict.mem 0 (Sim.ready_to_execute_orders sample_bid_cancelled) = true
  /\ exists s',
       Sim.tick_body sample_bid_cancelled = Ok (Sim.Continue s')
       /\ Dict.mem 0 (Sim.ready_to_execute_orders s') = false
       /\ (forall item,
             In item (Sim.ready_to_execute_orders s') <->
             In item (Sim.ready_to_execute_orders sample_bid_cancelled)
             /\ fst item <> 0)
       /\ Sim.strategy_updates_queue s'
          = Sim.strategy_updates_queue sample_bid_cancelled
       /\ Sim.trade_id s' = Sim.trade_id sample_bid_cancelled.
Proof.
  assert (Hr : reachable sample_crossing_md 5 2 sample_bid_cancelled)
    by (apply reach_cancel; exact sample_bid_rested_reachable).
  assert (Hsel : select sample_bid_cancelled
                 = SelAction (ACancel (CancelOrder.mk (-3) 0)))
    by (vm_compute; reflexivity).
  assert (Hmem : Dict.mem 0 (Sim.ready_to_execute_orders sample_bid_cancelled)
                 = true)
    by (vm_compute; reflexivity).
  split; [exact Hr|]. split; [exact Hsel|]. split; [exact Hmem|].
  exact (@cancel_removes_resting_order sample_crossing_md 5 2
           sample_bid_cancelled (CancelOrder.mk (-3) 0) Hr Hsel Hmem).
Defined.

Lemma resting_order_filled_by_update_witness :
  reachable sample_crossing_md 5 2 sample_bid_rested
  /\ select sample_bid_rested = SelMd (book_update 0 1 90 94)
  /\ In (0, Order.mk (-10) (-5) 0 BID 7 (Fin 95) LIMIT)
        (Sim.ready_to_execute_orders sample_bid_rested)
  /\ exists s' tid,
       Sim.tick_body sample_bid_rested = Ok (Sim.Continue s')
       /\ ~ In (0, Order.mk (-10) (-5) 0 BID 7 (Fin 95) LIMIT)
              (Sim.ready_to_execute_orders s')
       /\ In (UTrade (OwnTrade.mk (-10) 0 (0 + 2) tid 0 BID 7 (Fin 95) MAKER BOOK))
             (PriorQueue.contents (Sim.strategy_updates_queue s')).
Proof.
  assert (Hsel : select sample_bid_rested = SelMd (book_update 0 1 90 94))
    by (vm_compute; reflexivity).
  assert (Hin : In (0, Order.mk (-10) (-5) 0 BID 7 (Fin 95) LIMIT)
                   (Sim.ready_to_execute_orders sample_bid_rested))
    by (vm_compute; left; reflexivity).
  assert (Hm : marketable
                 (after_md (Sim.set_md_queue sample_bid_rested
                              (tl (Sim.md_queue sample_bid_rested)))
                    (book_update 0 1 90 94))
                 (Order.mk (-10) (-5) 0 BID 7 (Fin 95) LIMIT) = true)
    by (vm_compute; reflexivity).
  split; [exact sample_bid_rested_reachable|]. split; [exact Hsel|].
  split; [exact Hin|].
  exact (@resting_order_filled_by_update sample_crossing_md 5 2
           sample_bid_rested (book_update 0 1 90 94) 0
           (Order.mk (-10) (-5) 0 BID 7 (Fin 95) LIMIT)
           sample_bid_rested_reachable Hsel Hin Hm).
Defined.

Lemma placed_marketable_limit_fills_witness :
  reachable sample_md 5 2 sample_marketable_placed
  /\ select sample_marketable_placed
     = SelAction (APlace (Order.mk 1 6 0 BID 7 (Fin 102) LIMIT))
  /\ Sim.md sample_marketable_placed = Some (book_update 0 1 99 101)
  /\ exists s',
       Sim.tick_body sample_marketable_placed = Ok (Sim.Continue s')
       /\ Sim.trade_id s' = Sim.trade_id sample_marketable_placed + 1.
Proof.
  assert (Hr : reachable sample_md 5 2 sample_marketable_placed)
    by (apply reach_place; exact sample_ticked_reachable).
  assert (Hsel : select sample_marketable_placed
                 = SelAction (APlace (Order.mk 1 6 0 BID 7 (Fin 102) LIMIT)))
    by (vm_compute; reflexivity).
  assert (Hmd : Sim.md sample_marketable_placed = Some (book_update 0 1 99 101))
    by (vm_compute; reflexivity).
  split; [exact Hr|]. split; [exact Hsel|]. split; [exact Hmd|].
  destruct (@placed_marketable_limit_fills sample_md 5 2
              sample_marketable_placed (book_update 0 1 99 101)
              (Order.mk 1 6 0 BID 7 (Fin 102) LIMIT) Hr Hsel Hmd
              eq_refl eq_refl)
    as (s' & H1 & _ & _ & H4 & _).
  exists s'. split; [exact H1|exact H4].
Defined.

Lemma placed_unmarketable_order_rests_witness :
  reachable sample_crossing_md 5 2 sample_bid_placed
  /\ select sample_bid_placed
     = SelAction (APlace (Order.mk (-10) (-5) 0 BID 7 (Fin 95) LIMIT))
  /\ marketable sample_bid_placed (Order.mk (-10) (-5) 0 BID 7 (Fin 95) LIMIT)
     = false
  /\ exists s',
       Sim.tick_body sample_bid_placed = Ok (Sim.Continue s')
       /\ Sim.ready_to_execute_orders s'
          = Dict.set 0 (Order.mk (-10) (-5) 0 BID 7 (Fin 95) LIMIT)
              (Sim.ready_to_execute_orders sample_bid_placed).
Proof.
  assert (Hr : reachable sample_crossing_md 5 2 sample_bid_placed)
    by apply reach_place, reach_init.
  assert (Hsel : select sample_bid_placed
                 = SelAction (APlace (Order.mk (-10) (-5) 0 BID 7 (Fin 95) LIMIT)))
    by (vm_compute; reflexivity).
  split; [exact Hr|]. split; [exact Hsel|]. split; [reflexivity|].
  destruct (@placed_unmarketable_order_rests sample_crossing_md 5 2
              sample_bid_placed (Order.mk (-10) (-5) 0 BID 7 (Fin 95) LIMIT)
              Hr Hsel eq_refl)
    as (s' & H1 & H2 & _).
  exists s'. split; [exact H1|exact H2].
Defined.


Lemma best_prices_refine_tracker_witness :
  reachable sample_md 5 2 sample_ticked
  /\ exists n,
       (n <= length sample_md)%nat
       /\ Sim.md_queue sample_ticked = skipn n sample_md
       /\ (Sim.best_bid sample_ticked, Sim.best_ask sample_ticked)
          = replay_best (NegInf, PosInf) (firstn n sample_md)
       /\ Sim.best_bid sample_ticked
          = last (GetInfo.bid_price
                    (GetInfo.md_to_dataframe (firstn n sample_md))) NegInf
       /\ Sim.best_ask sample_ticked
          = last (GetInfo.ask_price
                    (GetInfo.md_to_dataframe (firstn n sample_md))) PosInf.
Proof.
  split; [exact sample_ticked_reachable|].
  destruct (@best_prices_refine_tracker sample_md 5 2 sample_ticked
              sample_ticked_reachable)
    as (n & H1 & H2 & H3 & H4 & H5 & _).
  exists n. split; [exact H1|]. split; [exact H2|]. split; [exact H3|].
  split; [exact H4|exact H5].
Defined.
